(** * usbmux: the protocol and connection layer of a usbmuxd client

    A shallow embedding of

      - [usbmux/types/*.py]                      (payload records, struct formats)
      - [usbmux/exceptions/*.py]                 (errors and their messages)
      - [usbmux/connection/safe_stream_socket.py] (full-buffer send / receive)
      - [usbmux/connection/protocols/*.py]       (binary and plist codecs)
      - [usbmux/connection/connection.py]        (tagged exchange, listen, poll, connect)
      - [usbmux/connection/client.py]            (pairing-record helper)
      - [usbmux/connection/socket.py]            (address of the daemon)
      - [usbmux/connection/device.py]            (devices and their text)
      - [usbmux/__init__.py]                     (the [USBMux] object)

    followed by the properties of the specification that are stated about
    them.  Python integers are [Z]; [bytes] objects are lists of [byte];
    [None] is [option]'s [None]; an exception is a value of [exception]
    returned next to the state it leaves behind.

    What lies outside the package is kept to what the package asks of it:
      - the operating system's socket is a list of chunks waiting to be
        received, a list of how many bytes each [send] call accepts, and
        the bytes sent so far; its calls return, an [OSError] of the
        operating system is not modelled;
      - [select.select] is an argument of the poll step;
      - [plistlib] is an interface, [dumps] and [loads], with the one law
        that [dumps] refuses [None], and one instance of it to evaluate
        examples with; that [loads] gives back what [dumps] was given is a
        hypothesis where it is needed;
      - [struct] is the part of the module the formats of the package use,
        in native mode, with its alignment;
      - the fields of the dataclasses hold what their annotations say; a
        value from the wire of another type is refused by the keyword
        constructor with [AnnotationViolated], which no Python run raises.
    Payload objects live in a store, since the plist codec assigns to the
    object it is given and the default payload of [send_packet] is one
    object shared by all calls. *)

From Stdlib Require Import ZArith Lia List Bool Sorted.
From Stdlib Require Import Strings.Byte Strings.Ascii Strings.String.
From Stdlib Require DecimalString HexadecimalString.
From stdpp Require Import base tactics option list strings gmap countable.

Local Open Scope Z_scope.

(** ** Bytes *)

Abbreviation bytes := (list byte).

Definition Z_of_byte (b : byte) : Z := Z.of_N (Byte.to_N b).

Definition byte_of_Z (z : Z) : byte :=
  match Byte.of_N (Z.to_N (z mod 256)) with
  | Some b => b
  | None => x00
  end.

Lemma byte_to_N_inj (x y : byte) : Byte.to_N x = Byte.to_N y -> x = y.
Proof.
  intros E. pose proof (Byte.of_to_N x) as Hx. rewrite E, Byte.of_to_N in Hx.
  congruence.
Qed.

Global Instance byte_eq_dec : EqDecision byte.
Proof.
  refine (fun x y => cast_if (decide (Byte.to_N x = Byte.to_N y)));
    [ now apply byte_to_N_inj | congruence ].
Defined.

(** [len(b)] *)
Definition len {A} (l : list A) : Z := Z.of_nat (length l).

(** ** Request and response types: [Types.RequestType = Union[str, int]] *)

Inductive RequestType :=
| RInt (n : Z)
| RStr (s : string).

Global Instance RequestType_eq_dec : EqDecision RequestType.
Proof. solve_decision. Defined.

(** ** [usbmux/exceptions/messages.py]

    A message is kept as its template together with the values that
    [str.format] puts into it. *)

Inductive Messages :=
| SOCKET_CONNECTION_BROKEN
| SOCKET_LISTENER_ERROR
| SOCKET_IS_CONNECTED
| TAG_MISMATCH (expected current : Z)
| LISTEN_FAILED (number : Z)
| CONNECTION_FAILED (number : option Z)
| UNEXPECTED_RESULT (response : RequestType)
| INVALID_PAYLOAD
| INVALID_PACKET_TYPE (response : RequestType)
| INVALID_OUTGOING_REQUEST_TYPE (request : RequestType)
| INVALID_INCOMING_RESPONSE_TYPE (response : RequestType)
| MUX_CONNECTED_ERROR
| INVALID_VERSION (expected current : Z)
| INVALID_PLIST_TYPE (response : RequestType).

(** ** [usbmux/exceptions/exceptions.py] and the built-in exceptions the
    code can raise.

    [AnnotationViolated] is not a Python exception.  The dataclasses do not
    check their annotations, so a wire record may bind a field to a value of
    another type than the annotated one; such a record leaves this typed
    model, and the decoder reports it here instead of going on. *)

Inductive exception :=
| MuxError (message : Messages)
| MuxVersionError (message : Messages)
| ValueError (message : option Messages)
| KeyError (key : RequestType)
| TypeError
| AttributeError
| OverflowError
| NotImplementedError
| struct_error
| AnnotationViolated (field : string).

(** [class MuxVersionError(MuxError)]: what [except MuxError] and
    [except MuxVersionError] catch. *)
Definition isinstance_MuxError (e : exception) : bool :=
  match e with
  | MuxError _ | MuxVersionError _ => true
  | _ => false
  end.

Definition isinstance_MuxVersionError (e : exception) : bool :=
  match e with
  | MuxVersionError _ => true
  | _ => false
  end.

Inductive result (A : Type) :=
| Ok (a : A)
| Raise (e : exception).
Arguments Ok {A} a.
Arguments Raise {A} e.

(** ** The [struct] module, native mode (no prefix character): native byte
    order, native sizes and native alignment, for the three format
    characters the code uses. *)

Inductive byte_order := LittleEndian | BigEndian.

(** [sys.byteorder] of the host. *)
Class ByteOrder := native : byte_order.

(** Little-endian digits of [z] in [n] bytes, and back. *)
Fixpoint le_digits (n : nat) (z : Z) : bytes :=
  match n with
  | O => []
  | S n' => byte_of_Z z :: le_digits n' (z / 256)
  end.

Fixpoint le_value (b : bytes) : Z :=
  match b with
  | [] => 0
  | x :: b' => Z_of_byte x + 256 * le_value b'
  end.

Definition encode_uint `{ByteOrder} (n : nat) (z : Z) : bytes :=
  match native with
  | LittleEndian => le_digits n z
  | BigEndian => rev (le_digits n z)
  end.

Definition decode_uint `{ByteOrder} (b : bytes) : Z :=
  match native with
  | LittleEndian => le_value b
  | BigEndian => le_value (rev b)
  end.

Module struct.

(** Format characters: [I] unsigned int, [H] unsigned short, [<n>s] char[n]. *)
Inductive code := I | H | s (n : nat).

Definition size (c : code) : nat :=
  match c with I => 4 | H => 2 | s n => n end.

Definition alignment (c : code) : nat :=
  match c with I => 4 | H => 2 | s _ => 1 end.

(** Pad bytes inserted before an item that starts at [offset]. *)
Definition padding (offset : nat) (c : code) : nat :=
  ((alignment c - offset `mod` alignment c) `mod` alignment c)%nat.

Fixpoint calcsize_from (offset : nat) (fmt : list code) : nat :=
  match fmt with
  | [] => offset
  | c :: fmt' => calcsize_from (offset + padding offset c + size c) fmt'
  end.

Definition calcsize (fmt : list code) : nat := calcsize_from 0 fmt.

(** Arguments of [pack]: what the callers pass. *)
Inductive arg :=
| Int (z : Z)
| Bytes (b : bytes)
| None_.

Definition of_option (o : option Z) : arg :=
  match o with Some z => Int z | None => None_ end.

Definition encode `{ByteOrder} (c : code) (a : arg) : option bytes :=
  match c, a with
  | I, Int z => if decide (0 <= z < 2 ^ 32) then Some (encode_uint 4 z) else None
  | H, Int z => if decide (0 <= z < 2 ^ 16) then Some (encode_uint 2 z) else None
  | s n, Bytes b => Some (take n b ++ replicate (n - length b) x00)
  | _, _ => None
  end.

Fixpoint pack_from `{ByteOrder} (offset : nat) (fmt : list code) (args : list arg)
  : option bytes :=
  match fmt, args with
  | [], [] => Some []
  | c :: fmt', a :: args' =>
      match encode c a with
      | Some b =>
          match pack_from (offset + padding offset c + size c) fmt' args' with
          | Some rest => Some (replicate (padding offset c) x00 ++ b ++ rest)
          | None => None
          end
      | None => None
      end
  | _, _ => None
  end.

(** [pack(fmt, *args)]: [struct.error] on a wrong number of arguments, an
    argument that is not an integer, or an integer out of range. *)
Definition pack `{ByteOrder} (fmt : list code) (args : list arg) : result bytes :=
  match pack_from 0 fmt args with
  | Some b => Ok b
  | None => Raise struct_error
  end.

(** The tuple [unpack] returns. *)
Definition field (c : code) : Type :=
  match c with s _ => bytes | _ => Z end.

Fixpoint tuple (fmt : list code) : Type :=
  match fmt with
  | [] => unit
  | c :: fmt' => (field c * tuple fmt')%type
  end.

Definition decode `{ByteOrder} (c : code) (b : bytes) : field c :=
  match c with
  | I => decode_uint b
  | H => decode_uint b
  | s _ => b
  end.

Fixpoint unpack_from `{ByteOrder} (offset : nat) (fmt : list code) (buffer : bytes)
  : tuple fmt :=
  match fmt with
  | [] => tt
  | c :: fmt' =>
      let start := (offset + padding offset c)%nat in
      (decode c (take (size c) (drop start buffer)),
       unpack_from (start + size c) fmt' buffer)
  end.

(** [unpack(fmt, buffer)]: the buffer must have exactly [calcsize(fmt)]
    bytes, or [struct.error] is raised. *)
Definition unpack `{ByteOrder} (fmt : list code) (buffer : bytes)
  : result (tuple fmt) :=
  if decide (length buffer = calcsize fmt)
  then Ok (unpack_from 0 fmt buffer)
  else Raise struct_error.

End struct.

(** ** [usbmux/types/formats.py] *)

Module Formats.
Definition I : list struct.code := [struct.I].
Definition III : list struct.code := [struct.I; struct.I; struct.I].
Definition IIII : list struct.code := [struct.I; struct.I; struct.I; struct.I].
Definition IH256sHI : list struct.code :=
  [struct.I; struct.H; struct.s 256; struct.H; struct.I].
Definition IH : list struct.code := [struct.I; struct.H].
End Formats.

(** ** [usbmux/types/payload.py] *)

Module Properties.
Record t := mk {
  ConnectionType : option string;
  DeviceID : option Z;
  LocationID : option Z;
  ProductID : option Z;
  SerialNumber : option string;
  UDID : option string;
}.

(** [_Properties()] *)
Definition empty : t := mk None None None None None None.
End Properties.

Module Payload.
Record t := mk {
  ClientVersionString : string;
  ProgName : string;
  MessageType : option string;
  Number : option Z;
  DeviceID : option Z;
  PortNumber : option Z;
  Properties : option Properties.t;
  PairRecordID : option string;
  PairRecordData : option bytes;
}.

(** [Payload()] *)
Definition default : t :=
  mk "qt4i-usbmuxd" "tcprelay" None None None None None None None.

(** [payload.MessageType = value] *)
Definition set_MessageType (value : option string) (p : t) : t :=
  mk (ClientVersionString p) (ProgName p) value (Number p) (DeviceID p)
     (PortNumber p) (Properties p) (PairRecordID p) (PairRecordData p).
End Payload.

(** ** [usbmux/connection/device.py]

    [Device] defines no [__eq__]: two devices are equal when they are the
    same object.  [ident] is the identity of the object, given at
    construction; the four attributes are never assigned again. *)

Record Device := {
  ident : nat;
  device_id : option Z;
  usb_product_id : option Z;
  serial : option string;
  location : option Z;
}.

(** [a == b] on devices. *)
Definition Device_eqb (a b : Device) : bool := Nat.eqb (ident a) (ident b).

(** ** The world a [Connection] lives in *)

(** The operating system's stream socket behind [SafeStreamSocket].

    - [inbox]: the chunks the next calls of [recv] have to offer, in order;
      an empty chunk, or no chunk at all, is a peer that has closed.
    - [window]: how many bytes the next calls of [send] are able to take;
      [0], or no entry at all, is a send that accepts nothing.
    - [outbox]: every byte accepted so far.
    - [closed]: [socket.close()] has been called. *)
Record socket := {
  inbox : list bytes;
  window : list nat;
  outbox : bytes;
  closed : bool;
}.

(** References to [Payload] objects. *)
Definition loc := nat.

Record state := {
  sock : socket;                 (* Connection.__socket *)
  connected : bool;              (* Protocol.__connected *)
  devices : list Device;         (* Connection.__devices *)
  packet_tag : Z;                (* Connection.__packet_tag *)
  heap : loc -> Payload.t;       (* the Payload objects *)
  next_loc : loc;                (* first unused reference *)
  next_ident : nat;              (* first unused object identity *)
  tag_log : list Z;              (* history: the tags handed out, oldest first *)
}.

Definition set_sock (s : socket) (σ : state) : state :=
  {| sock := s; connected := connected σ; devices := devices σ;
     packet_tag := packet_tag σ; heap := heap σ; next_loc := next_loc σ;
     next_ident := next_ident σ; tag_log := tag_log σ |}.

Definition set_connected (b : bool) (σ : state) : state :=
  {| sock := sock σ; connected := b; devices := devices σ;
     packet_tag := packet_tag σ; heap := heap σ; next_loc := next_loc σ;
     next_ident := next_ident σ; tag_log := tag_log σ |}.

Definition set_devices (l : list Device) (σ : state) : state :=
  {| sock := sock σ; connected := connected σ; devices := l;
     packet_tag := packet_tag σ; heap := heap σ; next_loc := next_loc σ;
     next_ident := next_ident σ; tag_log := tag_log σ |}.

Definition set_packet_tag (t : Z) (σ : state) : state :=
  {| sock := sock σ; connected := connected σ; devices := devices σ;
     packet_tag := t; heap := heap σ; next_loc := next_loc σ;
     next_ident := next_ident σ; tag_log := tag_log σ |}.

Definition set_heap (h : loc -> Payload.t) (σ : state) : state :=
  {| sock := sock σ; connected := connected σ; devices := devices σ;
     packet_tag := packet_tag σ; heap := h; next_loc := next_loc σ;
     next_ident := next_ident σ; tag_log := tag_log σ |}.

Definition set_next_loc (n : loc) (σ : state) : state :=
  {| sock := sock σ; connected := connected σ; devices := devices σ;
     packet_tag := packet_tag σ; heap := heap σ; next_loc := n;
     next_ident := next_ident σ; tag_log := tag_log σ |}.

Definition set_next_ident (n : nat) (σ : state) : state :=
  {| sock := sock σ; connected := connected σ; devices := devices σ;
     packet_tag := packet_tag σ; heap := heap σ; next_loc := next_loc σ;
     next_ident := n; tag_log := tag_log σ |}.

Definition set_tag_log (l : list Z) (σ : state) : state :=
  {| sock := sock σ; connected := connected σ; devices := devices σ;
     packet_tag := packet_tag σ; heap := heap σ; next_loc := next_loc σ;
     next_ident := next_ident σ; tag_log := l |}.

(** ** Computations that read and write the world and may raise.

    An exception does not undo what was written before it was raised: the
    state comes back in both cases. *)

Definition M (A : Type) : Type := state -> result A * state.

Definition ret {A} (a : A) : M A := fun σ => (Ok a, σ).

Definition raise {A} (e : exception) : M A := fun σ => (Raise e, σ).

Definition bind {A B} (m : M A) (k : A -> M B) : M B :=
  fun σ =>
    match m σ with
    | (Ok a, σ') => k a σ'
    | (Raise e, σ') => (Raise e, σ')
    end.

Definition get : M state := fun σ => (Ok σ, σ).

Definition modify (f : state -> state) : M unit := fun σ => (Ok tt, f σ).

(** A pure computation that may raise. *)
Definition lift {A} (r : result A) : M A := fun σ => (r, σ).

Declare Scope M_scope.
Delimit Scope M_scope with M.
Notation "x <- m ;; k" := (bind m (fun x => k))
  (at level 100, m at next level, right associativity) : M_scope.
Notation "m ;; k" := (bind m (fun _ => k))
  (at level 100, right associativity) : M_scope.
Local Open Scope M_scope.

(** ** [usbmux/connection/safe_stream_socket.py]

    The socket of the model is an open socket whose calls return.  A call
    of the operating system that fails with [OSError] (a socket that was
    closed, a broken pipe, a reset connection) is not in the model: what
    is stated about [send] and [receive] is stated for the calls that
    return. *)

(** [socket.send(data)]: the operating system takes a prefix of [data]
    and says how long it is. *)
Definition socket_send (data : bytes) : M nat :=
  fun σ =>
    let s := sock σ in
    match window s with
    | [] => (Ok O, σ)
    | w :: ws =>
        let n := Nat.min w (length data) in
        (Ok n, set_sock {| inbox := inbox s; window := ws;
                           outbox := outbox s ++ take n data;
                           closed := closed s |} σ)
    end.

(** [socket.recv(bufsize)]: at most [bufsize] bytes of what has arrived;
    the empty [bytes] once the peer has closed. *)
Definition socket_recv (bufsize : nat) : M bytes :=
  fun σ =>
    let s := sock σ in
    match inbox s with
    | [] => (Ok [], σ)
    | c :: cs =>
        let rest := if decide (length c <= bufsize)%nat then cs else drop bufsize c :: cs in
        (Ok (take bufsize c),
         set_sock {| inbox := rest; window := window s;
                     outbox := outbox s; closed := closed s |} σ)
    end.

(** [socket.close()] *)
Definition socket_close : M unit :=
  modify (fun σ =>
    let s := sock σ in
    set_sock {| inbox := inbox s; window := window s;
                outbox := outbox s; closed := true |} σ).

Module SafeStreamSocket.

(** The [while total_sent < len(message)] loop of [send].  Every turn
    either raises or sends at least one byte, so [length message] turns
    are enough: [fuel] never runs out before the loop ends. *)
Fixpoint send_loop (fuel : nat) (message : bytes) (total_sent : nat) : M unit :=
  if decide (total_sent < length message)%nat then
    match fuel with
    | O => ret tt
    | S fuel' =>
        sent <- socket_send (drop total_sent message) ;;
        if decide (sent = O)
        then raise (MuxError SOCKET_CONNECTION_BROKEN)
        else send_loop fuel' message (total_sent + sent)
    end
  else ret tt.

Definition send (message : bytes) : M unit :=
  send_loop (length message) message 0.

(** The [while len(message) < size] loop of [receive]; [size] turns are
    enough for the same reason. *)
Fixpoint receive_loop (fuel : nat) (size : Z) (message : bytes) : M bytes :=
  if decide (len message < size) then
    match fuel with
    | O => ret message
    | S fuel' =>
        chunk <- socket_recv (Z.to_nat (size - len message)) ;;
        match chunk with
        | [] => raise (MuxError SOCKET_CONNECTION_BROKEN)
        | _ => receive_loop fuel' size (message ++ chunk)
        end
    end
  else ret message.

Definition receive (size : Z) : M bytes :=
  receive_loop (Z.to_nat size) size [].

End SafeStreamSocket.

(** ** Pure computations that may raise *)

Definition result_bind {A B} (r : result A) (k : A -> result B) : result B :=
  match r with
  | Ok a => k a
  | Raise e => Raise e
  end.

Notation "'let*' x := r 'in' k" := (result_bind r (fun x => k))
  (at level 10, x name, r at level 100, k at level 200).

(** ** [Types.Payload = Union[Payload, bytes]]

    A payload handed to [send_packet] is a reference to the caller's object
    ([R := loc]); a payload that [get_packet] returns is a new object that
    nothing else refers to, and it is passed on as its value
    ([R := Payload.t]). *)

Inductive Types_Payload (R : Type) :=
| Structured (p : R)
| RawBytes (b : bytes).
Arguments Structured {R} p.
Arguments RawBytes {R} b.

(** [payload = Payload(...)]: a new object. *)
Definition new_Payload (p : Payload.t) : M loc :=
  fun σ =>
    let l := next_loc σ in
    (Ok l, set_next_loc (S l)
             (set_heap (fun l' => if decide (l' = l) then p else heap σ l') σ)).

(** ** [bytes.split(sep)]

    The separator has to be bytes-like: with a [str] the call raises
    [TypeError] ("a bytes-like object is required, not 'str'"); with an empty
    separator it raises [ValueError]. *)

Inductive str_or_bytes :=
| Str (s : string)
| Bytes (b : bytes).

Fixpoint startswith (prefix l : bytes) : bool :=
  match prefix, l with
  | [], _ => true
  | x :: prefix', y :: l' => if decide (x = y) then startswith prefix' l' else false
  | _ :: _, [] => false
  end.

Fixpoint split_loop (sep : bytes) (skip : nat) (current rest : bytes) : list bytes :=
  match rest with
  | [] => [current]
  | x :: rest' =>
      match skip with
      | S k => split_loop sep k current rest'
      | O =>
          if startswith sep rest
          then current :: split_loop sep (length sep - 1) [] rest'
          else split_loop sep O (current ++ [x]) rest'
      end
  end.

Definition bytes_split (self : bytes) (sep : str_or_bytes) : result (list bytes) :=
  match sep with
  | Str _ => Raise TypeError
  | Bytes [] => Raise (ValueError None)
  | Bytes d => Ok (split_loop d O [] self)
  end.

(** The class of [self]: which of the two codecs a method call is
    dispatched to. *)
Inductive Protocol := Binary | Plist.

Definition TYPE_RESULT (P : Protocol) : RequestType :=
  match P with Binary => RInt 1 | Plist => RStr "Result" end.
Definition TYPE_CONNECT (P : Protocol) : RequestType :=
  match P with Binary => RInt 2 | Plist => RStr "Connect" end.
Definition TYPE_LISTEN (P : Protocol) : RequestType :=
  match P with Binary => RInt 3 | Plist => RStr "Listen" end.
Definition TYPE_DEVICE_ADD (P : Protocol) : RequestType :=
  match P with Binary => RInt 4 | Plist => RStr "Attached" end.
Definition TYPE_DEVICE_REMOVE (P : Protocol) : RequestType :=
  match P with Binary => RInt 5 | Plist => RStr "Detached" end.
Definition VERSION (P : Protocol) : Z :=
  match P with Binary => 0 | Plist => 1 end.
Definition PADDING_LENGTH : Z := 16.
Definition SOCKET_PADDING : Z := 4.
Definition TYPE_PLIST : Z := 8.

(** An opcode as an argument of [pack]: only an [int] is accepted. *)
Definition arg_of_request (request : RequestType) : struct.arg :=
  match request with
  | RInt n => struct.Int n
  | RStr _ => struct.None_
  end.

(** [serial_number] is kept in a field annotated [str]. *)
Definition str_of_bytes (b : bytes) : string := string_of_list_byte b.

(** ** [usbmux/connection/protocols/binary_protocol.py]

    [P] is the class of [self]: [PlistProtocol] inherits these methods and
    they read [self.VERSION], [self.TYPE_*] and [self._unpack]. *)

Module BinaryProtocol.
Section BinaryProtocol.
Context `{ByteOrder}.

Definition __is_connected : M unit :=
  σ <- get ;;
  if connected σ then raise (MuxError MUX_CONNECTED_ERROR) else ret tt.

Definition _pack (P : Protocol) (request : RequestType)
    (payload : Types_Payload loc) : M bytes :=
  match payload with
  | RawBytes b => ret b
  | Structured l =>
      if decide (request = TYPE_LISTEN P) then ret []
      else if decide (request = TYPE_CONNECT P) then
        σ <- get ;;
        let connection_data : bytes := [x00; x00] in
        let data := [struct.of_option (Payload.DeviceID (heap σ l));
                     struct.of_option (Payload.PortNumber (heap σ l))] in
        wrapped_payload <- lift (struct.pack Formats.IH data) ;;
        ret (wrapped_payload ++ connection_data)
      else raise (ValueError (Some (INVALID_OUTGOING_REQUEST_TYPE request)))
  end.

Definition _unpack (response : Z) (payload : Types_Payload Payload.t)
  : result Payload.t :=
  match payload with
  | Structured _ => Raise NotImplementedError
  | RawBytes payload =>
      if decide (RInt response = TYPE_RESULT Binary) then
        let* result_payload := struct.unpack Formats.I payload in
        Ok (Payload.mk "qt4i-usbmuxd" "tcprelay" None (Some (fst result_payload))
              None None None None None)
      else if decide (RInt response = TYPE_DEVICE_REMOVE Binary) then
        let* remove_payload := struct.unpack Formats.I payload in
        Ok (Payload.mk "qt4i-usbmuxd" "tcprelay" None None
              (Some (fst remove_payload)) None None None None)
      else if decide (RInt response = TYPE_DEVICE_ADD Binary) then
        let* add_payload := struct.unpack Formats.IH256sHI payload in
        let '(device_id, (product_id, (serial_number, (_, (location, _))))) :=
          add_payload in
        let* parts := bytes_split serial_number (Str (String "000"%char EmptyString)) in
        let serial_number := hd [] parts in
        let properties :=
          Properties.mk None None (Some location) (Some product_id)
            (Some (str_of_bytes serial_number)) None in
        Ok (Payload.mk "qt4i-usbmuxd" "tcprelay" None None (Some device_id)
              None (Some properties) None None)
      else Raise (MuxError (INVALID_INCOMING_RESPONSE_TYPE (RInt response)))
  end.

Definition send_packet (P : Protocol) (request : RequestType) (tag : Z)
    (payload : Types_Payload loc) : M unit :=
  __is_connected ;;
  wrapped_payload <- _pack P request payload ;;
  let length := PADDING_LENGTH + len wrapped_payload in
  let data := [struct.Int length; struct.Int (VERSION P);
               arg_of_request request; struct.Int tag] in
  header <- lift (struct.pack Formats.IIII data) ;;
  SafeStreamSocket.send (header ++ wrapped_payload).

(** [self._unpack(response, body[0xc:])]: [PlistProtocol] overrides
    [_unpack] and hands the bytes back as they are. *)
Definition dispatch_unpack (P : Protocol) (response : Z) (payload : bytes)
  : result (Types_Payload Payload.t) :=
  match P with
  | Binary => let* p := _unpack response (RawBytes payload) in Ok (Structured p)
  | Plist => Ok (RawBytes payload)
  end.

Definition get_packet (P : Protocol) : M (Z * Z * Types_Payload Payload.t) :=
  __is_connected ;;
  received_data <- SafeStreamSocket.receive SOCKET_PADDING ;;
  length_payload <- lift (struct.unpack Formats.I received_data) ;;
  let size := fst length_payload - SOCKET_PADDING in
  body <- SafeStreamSocket.receive size ;;
  payload <- lift (struct.unpack Formats.III (take 12 body)) ;;
  let '(version, (response, (tag, _))) := payload in
  if decide (version = VERSION P) then
    unpacked <- lift (dispatch_unpack P response (drop 12 body)) ;;
    ret (response, tag, unpacked)
  else
    raise (MuxVersionError (INVALID_VERSION (VERSION P) version)).

End BinaryProtocol.
End BinaryProtocol.

(** ** Property lists: what [plistlib] serialises

    A record is a dictionary with string keys; a value is a scalar or a
    dictionary of scalars (the nested [Properties]).  [VNone] is Python's
    [None]: [asdict] puts it into the dictionaries it builds, [plistlib]
    never returns it. *)

Module plist.
Inductive scalar :=
| VNone
| VInt (z : Z)
| VStr (s : string)
| VBytes (b : bytes).

Inductive value :=
| Scalar (x : scalar)
| Dict (d : gmap string scalar).

Global Instance scalar_eq_dec : EqDecision scalar.
Proof. solve_decision. Defined.

Global Instance value_eq_dec : EqDecision value.
Proof. solve_decision. Defined.

Definition of_int (o : option Z) : scalar :=
  match o with Some z => VInt z | None => VNone end.
Definition of_str (o : option string) : scalar :=
  match o with Some s => VStr s | None => VNone end.
Definition of_bytes (o : option bytes) : scalar :=
  match o with Some b => VBytes b | None => VNone end.

(** No [None] anywhere in the record. *)
Definition value_free_of_None (v : value) : Prop :=
  match v with
  | Scalar x => x <> VNone
  | Dict d => map_Forall (fun _ x => x <> VNone) d
  end.

Definition free_of_None (d : gmap string value) : Prop :=
  map_Forall (fun _ v => value_free_of_None v) d.
End plist.

(** [plistlib.dumps] and [plistlib.loads] are a library outside the
    repository; the codec uses them as a black box.  What is taken from
    them: nothing that holds a [None] is serialised ([dumps] raises
    [TypeError] on it).  That [loads] returns the dictionary [dumps] was
    given is not taken from them: the XML writer of [plistlib] replaces a
    carriage return in a string by a line feed, so the string that is read
    back can differ from the one that was written.  A statement that
    depends on what [loads] returns says so in a hypothesis. *)

Class Plistlib := {
  dumps : gmap string plist.value -> result bytes;
  loads : bytes -> result (gmap string plist.value);
  dumps_None : forall d b, dumps d = Ok b -> plist.free_of_None d;
}.

(** ** [dataclasses.asdict] and the keyword constructors of the two
    dataclasses *)

Definition Properties_asdict (q : Properties.t) : gmap string plist.scalar :=
  list_to_map
    [("ConnectionType", plist.of_str (Properties.ConnectionType q));
     ("DeviceID", plist.of_int (Properties.DeviceID q));
     ("LocationID", plist.of_int (Properties.LocationID q));
     ("ProductID", plist.of_int (Properties.ProductID q));
     ("SerialNumber", plist.of_str (Properties.SerialNumber q));
     ("UDID", plist.of_str (Properties.UDID q))].

Definition asdict (p : Payload.t) : gmap string plist.value :=
  list_to_map
    [("ClientVersionString", plist.Scalar (plist.VStr (Payload.ClientVersionString p)));
     ("ProgName", plist.Scalar (plist.VStr (Payload.ProgName p)));
     ("MessageType", plist.Scalar (plist.of_str (Payload.MessageType p)));
     ("Number", plist.Scalar (plist.of_int (Payload.Number p)));
     ("DeviceID", plist.Scalar (plist.of_int (Payload.DeviceID p)));
     ("PortNumber", plist.Scalar (plist.of_int (Payload.PortNumber p)));
     ("Properties",
       match Payload.Properties p with
       | None => plist.Scalar plist.VNone
       | Some q => plist.Dict (Properties_asdict q)
       end);
     ("PairRecordID", plist.Scalar (plist.of_str (Payload.PairRecordID p)));
     ("PairRecordData", plist.Scalar (plist.of_bytes (Payload.PairRecordData p)))].

(** A keyword argument for a field annotated [Optional[int]],
    [Optional[str]], [Optional[bytes]] or [str]; a missing keyword is the
    field's default. *)
Definition int_keyword (name : string) (v : option plist.scalar) : result (option Z) :=
  match v with
  | None | Some plist.VNone => Ok None
  | Some (plist.VInt z) => Ok (Some z)
  | Some _ => Raise (AnnotationViolated name)
  end.

Definition str_keyword (name : string) (v : option plist.scalar) : result (option string) :=
  match v with
  | None | Some plist.VNone => Ok None
  | Some (plist.VStr s) => Ok (Some s)
  | Some _ => Raise (AnnotationViolated name)
  end.

Definition bytes_keyword (name : string) (v : option plist.scalar) : result (option bytes) :=
  match v with
  | None | Some plist.VNone => Ok None
  | Some (plist.VBytes b) => Ok (Some b)
  | Some _ => Raise (AnnotationViolated name)
  end.

Definition plain_str_keyword (name default : string) (v : option plist.scalar)
  : result string :=
  match v with
  | None => Ok default
  | Some (plist.VStr s) => Ok s
  | Some _ => Raise (AnnotationViolated name)
  end.

(** A top-level value where a scalar is annotated. *)
Definition scalar_of (name : string) (v : option plist.value)
  : result (option plist.scalar) :=
  match v with
  | None => Ok None
  | Some (plist.Scalar x) => Ok (Some x)
  | Some (plist.Dict _) => Raise (AnnotationViolated name)
  end.

Definition Properties_keywords : list string :=
  ["ConnectionType"; "DeviceID"; "LocationID"; "ProductID"; "SerialNumber"; "UDID"].

(** [_Properties] called with the items of [properties] as keywords:
    [TypeError] when [properties] is not a
    mapping, or has a key that is not a field. *)
Definition Properties_init (properties : plist.value) : result Properties.t :=
  match properties with
  | plist.Scalar _ => Raise TypeError
  | plist.Dict d =>
      if decide (map_Forall (fun k _ => k ∈ Properties_keywords) d) then
        let* connection_type := str_keyword "ConnectionType" (d !! "ConnectionType") in
        let* device_id := int_keyword "DeviceID" (d !! "DeviceID") in
        let* location_id := int_keyword "LocationID" (d !! "LocationID") in
        let* product_id := int_keyword "ProductID" (d !! "ProductID") in
        let* serial_number := str_keyword "SerialNumber" (d !! "SerialNumber") in
        let* udid := str_keyword "UDID" (d !! "UDID") in
        Ok (Properties.mk connection_type device_id location_id product_id
              serial_number udid)
      else Raise TypeError
  end.

Definition Payload_keywords : list string :=
  ["ClientVersionString"; "ProgName"; "MessageType"; "Number"; "DeviceID";
   "PortNumber"; "PairRecordID"; "PairRecordData"].

(** [Payload] called with the items of [plist_payload] as keywords and
    [Properties=properties], where
    [plist_payload] has no key [Properties] any more. *)
Definition Payload_init (plist_payload : gmap string plist.value)
    (properties : Properties.t) : result Payload.t :=
  if decide (map_Forall (fun k _ => k ∈ Payload_keywords) plist_payload) then
    let field name := scalar_of name (plist_payload !! name) in
    let* v1 := field "ClientVersionString" in
    let* client_version_string := plain_str_keyword "ClientVersionString" "qt4i-usbmuxd" v1 in
    let* v2 := field "ProgName" in
    let* prog_name := plain_str_keyword "ProgName" "tcprelay" v2 in
    let* v3 := field "MessageType" in
    let* message_type := str_keyword "MessageType" v3 in
    let* v4 := field "Number" in
    let* number := int_keyword "Number" v4 in
    let* v5 := field "DeviceID" in
    let* device_id := int_keyword "DeviceID" v5 in
    let* v6 := field "PortNumber" in
    let* port_number := int_keyword "PortNumber" v6 in
    let* v7 := field "PairRecordID" in
    let* pair_record_id := str_keyword "PairRecordID" v7 in
    let* v8 := field "PairRecordData" in
    let* pair_record_data := bytes_keyword "PairRecordData" v8 in
    Ok (Payload.mk client_version_string prog_name message_type number device_id
          port_number (Some properties) pair_record_id pair_record_data)
  else Raise TypeError.

(** ** [usbmux/connection/protocols/plist_protocol.py] *)

Module PlistProtocol.
Section PlistProtocol.
Context `{ByteOrder} `{Plistlib}.

Definition __request_type (request : RequestType) : result string :=
  match request with
  | RStr request => Ok request
  | RInt n =>
      if decide (n = 2) then Ok "Connect"
      else if decide (n = 3) then Ok "Listen"
      else Raise (KeyError request)
  end.

Definition remove_none (dict : gmap string plist.value) : gmap string plist.value :=
  filter (fun kv => kv.2 <> plist.Scalar plist.VNone) dict.

Definition send_packet (request : RequestType) (tag : Z) (payload : loc) : M unit :=
  message_type <- lift (__request_type request) ;;
  modify (fun σ =>
    set_heap (fun l => if decide (l = payload)
                       then Payload.set_MessageType (Some message_type) (heap σ payload)
                       else heap σ l) σ) ;;
  σ <- get ;;
  wrapped_payload <- lift (dumps (remove_none (asdict (heap σ payload)))) ;;
  BinaryProtocol.send_packet Plist (RInt TYPE_PLIST) tag (RawBytes wrapped_payload).

(** [payload.MessageType or ''] *)
Definition or_empty (message_type : option string) : string :=
  match message_type with
  | Some s => s
  | None => EmptyString
  end.

Definition get_packet : M (string * Z * Payload.t) :=
  r <- BinaryProtocol.get_packet Plist ;;
  let '(response, tag, payload) := r in
  if decide (response <> TYPE_PLIST) then
    raise (MuxError (INVALID_INCOMING_RESPONSE_TYPE (RInt response)))
  else
    match payload with
    | Structured payload => ret (or_empty (Payload.MessageType payload), tag, payload)
    | RawBytes payload =>
        plist_payload <- lift (loads payload) ;;
        (* properties = plist_payload.pop('Properties', {}) *)
        let properties :=
          match plist_payload !! "Properties" with
          | Some v => v
          | None => plist.Dict ∅
          end in
        let plist_payload := delete "Properties" plist_payload in
        properties <- lift (Properties_init properties) ;;
        structured_payload <- lift (Payload_init plist_payload properties) ;;
        let string_response := or_empty (Payload.MessageType structured_payload) in
        ret (string_response, tag, structured_payload)
    end.

End PlistProtocol.
End PlistProtocol.

(** ** The [Protocol] interface: a call on [self.__protocol] goes to the
    method of its class.  [PlistProtocol.send_packet] assigns to an attribute
    of its payload, which a [bytes] object does not have: the right-hand
    side, [self.__request_type(request)], is evaluated first and may raise
    its [KeyError]; the assignment then raises [AttributeError]. *)

Section Dispatch.
Context `{ByteOrder} `{Plistlib}.

Definition send_packet (P : Protocol) (request : RequestType) (tag : Z)
    (payload : Types_Payload loc) : M unit :=
  match P with
  | Binary => BinaryProtocol.send_packet Binary request tag payload
  | Plist =>
      match payload with
      | Structured l => PlistProtocol.send_packet request tag l
      | RawBytes _ =>
          _ <- lift (PlistProtocol.__request_type request) ;;
          raise AttributeError
      end
  end.

Definition get_packet (P : Protocol)
  : M (RequestType * Z * Types_Payload Payload.t) :=
  match P with
  | Binary =>
      r <- BinaryProtocol.get_packet Binary ;;
      let '(response, tag, payload) := r in
      ret (RInt response, tag, payload)
  | Plist =>
      r <- PlistProtocol.get_packet ;;
      let '(response, tag, payload) := r in
      ret (RStr response, tag, Structured payload)
  end.
End Dispatch.

(** ** [usbmux/connection/connection.py] *)

(** What [select(socket_list, [], socket_list, timeout)] came back with:
    is the socket in the readable list, is it in the exceptional list.
    Both lists empty is a timeout. *)
Record select_result := {
  rlo : bool;
  xlo : bool;
}.

(** [bool(number)] for an [Optional[int]]. *)
Definition truthy (number : option Z) : bool :=
  match number with
  | Some n => negb (n =? 0)
  | None => false
  end.

(** [Device(device_id, usb_product_id, serial, location)]: a new object. *)
Definition new_Device (device_id usb_product_id : option Z) (serial : option string)
    (location : option Z) : M Device :=
  fun σ =>
    (Ok {| ident := next_ident σ; device_id := device_id;
           usb_product_id := usb_product_id; serial := serial;
           location := location |},
     set_next_ident (S (next_ident σ)) σ).

(** [list.remove(x)]: the first item equal to [x] goes; [ValueError] when
    there is none. *)
Fixpoint list_remove (x : Device) (l : list Device) : result (list Device) :=
  match l with
  | [] => Raise (ValueError None)
  | y :: l' =>
      if Device_eqb y x then Ok l'
      else let* r := list_remove x l' in Ok (y :: r)
  end.

(** [[self.__devices.remove(device) for device in self.__devices
      if device.device_id == data.DeviceID]]

    The comprehension walks the very list it removes from.  A list iterator
    is an index [i] into the list: it stops when [i] reaches the current
    length, and otherwise yields item [i] and moves to [i + 1].  The list
    never grows, so [S (length l)] turns are enough. *)
Fixpoint remove_matching (fuel : nat) (i : nat) (DeviceID : option Z)
    (l : list Device) : result (list Device) :=
  match fuel with
  | O => Ok l
  | S fuel' =>
      match l !! i with
      | None => Ok l
      | Some device =>
          if decide (device_id device = DeviceID) then
            let* l' := list_remove device l in
            remove_matching fuel' (S i) DeviceID l'
          else remove_matching fuel' (S i) DeviceID l
      end
  end.

(** The reference of the default argument [payload: Payload = Payload()]
    of [_exchange]: one object, made when the function is defined, shared
    by every call that leaves the argument out. *)
Definition default_payload : loc := O.

Module Connection.
Section Connection.
Context `{ByteOrder} `{Plistlib}.

(** [Connection.__init__], given the socket it has connected. *)
Definition __init__ (s : socket) : state :=
  {| sock := s; connected := false; devices := []; packet_tag := 1;
     heap := fun _ => Payload.default; next_loc := 1%nat;
     next_ident := O; tag_log := [] |}.

Definition _get_reply (P : Protocol) : M (Z * Types_Payload Payload.t) :=
  r <- get_packet P ;;
  let '(response, tag, data) := r in
  if decide (response = TYPE_RESULT P) then ret (tag, data)
  else raise (MuxError (INVALID_PACKET_TYPE response)).

Definition append (device : Device) : M unit :=
  modify (fun σ => set_devices (devices σ ++ [device]) σ).

Definition _process_packet (P : Protocol) : M unit :=
  r <- get_packet P ;;
  let '(response, _, data) := r in
  if decide (response = TYPE_DEVICE_ADD P) then
    match data with
    | RawBytes _ => raise (MuxError INVALID_PAYLOAD)
    | Structured data =>
        let device_id := Payload.DeviceID data in
        match Payload.Properties data with
        | None =>
            device <- new_Device device_id None None None ;;
            append device
        | Some properties =>
            let product_id := Properties.ProductID properties in
            let serial_number := Properties.SerialNumber properties in
            let location_id := Properties.LocationID properties in
            device <- new_Device device_id product_id serial_number location_id ;;
            append device
        end
    end
  else
    (if decide (response = TYPE_DEVICE_REMOVE P) then
       match data with
       | RawBytes _ => raise (MuxError INVALID_PAYLOAD)
       | Structured data =>
           σ <- get ;;
           l <- lift (remove_matching (S (length (devices σ))) O
                        (Payload.DeviceID data) (devices σ)) ;;
           modify (set_devices l)
       end
     else ret tt) ;;
    if decide (response <> TYPE_RESULT P)
    then raise (MuxError (INVALID_PACKET_TYPE response))
    else raise (MuxError (UNEXPECTED_RESULT response)).

Definition _exchange (P : Protocol) (request : RequestType) (payload : loc)
  : M (option Z) :=
  σ <- get ;;
  let previous_tag := packet_tag σ in
  modify (fun σ => set_tag_log (tag_log σ ++ [previous_tag])
                     (set_packet_tag (packet_tag σ + 1) σ)) ;;
  send_packet P request previous_tag (Structured payload) ;;
  r <- _get_reply P ;;
  let '(received_tag, data) := r in
  match data with
  | RawBytes _ => raise (MuxError INVALID_PAYLOAD)
  | Structured data =>
      if decide (received_tag <> previous_tag)
      then raise (MuxError (TAG_MISMATCH previous_tag received_tag))
      else ret (Payload.Number data)
  end.

Definition listen (P : Protocol) : M unit :=
  number <- _exchange P (TYPE_LISTEN P) default_payload ;;
  match number with
  | Some n => if truthy number then raise (MuxError (LISTEN_FAILED n)) else ret tt
  | None => ret tt
  end.

Definition close : M unit := socket_close.

Definition process (P : Protocol) (ready : select_result) : M unit :=
  σ <- get ;;
  if connected σ then raise (MuxError SOCKET_IS_CONNECTED)
  else if xlo ready then
    close ;;
    raise (MuxError SOCKET_LISTENER_ERROR)
  else if rlo ready then _process_packet P
  else ret tt.

(** [((port << 8) & 0xFF00) | (port >> 8)] *)
Definition port_number (port : Z) : Z :=
  Z.lor (Z.land (Z.shiftl port 8) 65280) (Z.shiftr port 8).

(** [Payload(DeviceID=device_id, PortNumber=port_number)] *)
Definition connect_payload (device : Device) (port : Z) : Payload.t :=
  let device_id := device_id device in
  let port_number := port_number port in
  Payload.mk "qt4i-usbmuxd" "tcprelay" None None device_id (Some port_number)
    None None None.

Definition connect (P : Protocol) (device : Device) (port : Z) : M socket :=
  payload <- new_Payload (connect_payload device port) ;;
  let request := TYPE_CONNECT P in
  number <- _exchange P request payload ;;
  if truthy number then
    modify (set_connected true) ;;
    σ <- get ;;
    ret (sock σ)
  else raise (MuxError (CONNECTION_FAILED number)).

End Connection.
End Connection.

(** ** [usbmux/connection/client.py]: a [Connection] made with
    [PlistProtocol]. *)

Module Client.
Section Client.
Context `{ByteOrder} `{Plistlib}.

Definition TYPE_READ_PAIR : string := "ReadPairRecord".

(** The message of the tag check is formatted with the keyword
    [excepted], and the template asks for [expected]: [str.format] raises
    [KeyError('expected')] before a [MuxError] is made. *)
Definition get_pair_record (udid : string) : M (gmap string plist.value) :=
  σ <- get ;;
  let tag := packet_tag σ in
  modify (fun σ => set_tag_log (tag_log σ ++ [tag])
                     (set_packet_tag (packet_tag σ + 1) σ)) ;;
  payload <- new_Payload
    (Payload.mk "qt4i-usbmuxd" "tcprelay" None None None None None (Some udid)
       None) ;;
  send_packet Plist (RStr TYPE_READ_PAIR) tag (Structured payload) ;;
  r <- get_packet Plist ;;
  let '(_, received_tag, data) := r in
  if decide (received_tag <> tag) then raise (KeyError (RStr "expected"))
  else
    match data with
    | RawBytes _ => raise (MuxError INVALID_PAYLOAD)
    | Structured data =>
        match Payload.PairRecordData data with
        | None => raise (MuxError INVALID_PAYLOAD)
        | Some record => lift (loads record)
        end
    end.

End Client.
End Client.

(** ** Vocabulary of the statements below *)

(** The state after the socket has handed out part of its inbox. *)
Definition with_inbox (i : list bytes) (σ : state) : state :=
  set_sock {| inbox := i; window := window (sock σ);
              outbox := outbox (sock σ); closed := closed (sock σ) |} σ.

(** The state after the socket has taken [data], its window now [w]. *)
Definition with_sent (data : bytes) (w : list nat) (σ : state) : state :=
  set_sock {| inbox := inbox (sock σ); window := w;
              outbox := outbox (sock σ) ++ data; closed := closed (sock σ) |} σ.

(** What is left of the window [w] once [n] bytes have gone out through
    successive calls of [send], and [None] when a call on the way accepts
    nothing. *)
Fixpoint window_after (w : list nat) (n : nat) : option (list nat) :=
  match w with
  | [] => if decide (n = O) then Some [] else None
  | k :: w' =>
      if decide (n = O) then Some w
      else if decide (k = O) then None
      else window_after w' (n - Nat.min k n)
  end.

(** The daemon has sent [data], and perhaps more, and has not closed in
    between: the chunks waiting in the inbox are non-empty and begin with
    [data], however they are cut. *)
Definition arrives (data : bytes) (σ : state) : Prop :=
  Forall (fun c => c <> []) (inbox (sock σ)) /\
  exists rest, concat (inbox (sock σ)) = data ++ rest.

(** A packet on the wire: the 16-byte header and the body. *)
Definition frame `{ByteOrder} (version response tag : Z) (body : bytes) : bytes :=
  encode_uint 4 (PADDING_LENGTH + len body) ++ encode_uint 4 version ++
  encode_uint 4 response ++ encode_uint 4 tag ++ body.

(** A value that fits an unsigned 32-bit field. *)
Definition u32 (z : Z) : Prop := 0 <= z < 2 ^ 32.

(** The object [l] after [PlistProtocol.send_packet] has assigned [s] to
    its [MessageType]; every other object as it was. *)
Definition stamped (s : string) (l : loc) (σ : state) : state :=
  set_heap (fun l' => if decide (l' = l)
                      then Payload.set_MessageType (Some s) (heap σ l)
                      else heap σ l') σ.

(** [m] touches nothing but the socket. *)
Definition socket_only {A} (m : M A) : Prop :=
  forall σ, exists s, snd (m σ) = set_sock s σ.

(** [m] leaves the observation [f] of the state as it finds it. *)
Definition keeps {A X} (f : state -> X) (m : M A) : Prop :=
  forall σ, f (snd (m σ)) = f σ.

(** The state once an exchange has taken its tag: the counter is one
    higher and the tag is in the history. *)
Definition allocated (σ : state) : state :=
  set_tag_log (tag_log σ ++ [packet_tag σ]) (set_packet_tag (packet_tag σ + 1) σ).

(** The two observations of the tag counter. *)
Definition tags (σ : state) : Z * list Z := (packet_tag σ, tag_log σ).

(** What the socket has taken between the state [σ] and the later state
    [σ']. *)
Definition sent (σ σ' : state) : bytes :=
  drop (length (outbox (sock σ))) (outbox (sock σ')).

(** ** [usbmux/connection/socket.py]

    An address is what [socket.connect] takes: a tuple, a string or a
    buffer.  [platform] is [sys.platform]. *)

Module Socket.

Inductive item :=
| Host (s : string)
| Port (n : Z).

Inductive Address :=
| AddressTuple (items : list item)
| AddressStr (s : string)
| AddressBuffer (b : bytes).

Inductive AddressFamily := AF_INET | AF_UNIX.

(** [bool(address)]: an empty tuple, string or buffer is false. *)
Definition truthy (a : Address) : bool :=
  match a with
  | AddressTuple items => match items with [] => false | _ => true end
  | AddressStr s => match s with EmptyString => false | _ => true end
  | AddressBuffer b => match b with [] => false | _ => true end
  end.

Definition WINDOWS : list string := ["win32"; "cygwin"].

(** [Socket.__init__]: [self.__is_nt] *)
Definition is_nt (platform : string) : bool := bool_decide (platform ∈ WINDOWS).

Definition __address (platform : string) (socket : option Address) : Address :=
  if is_nt platform then AddressTuple [Host "127.0.0.1"; Port 27015]
  else
    match socket with
    | Some a => if truthy a then a else AddressStr "/var/run/usbmuxd"
    | None => AddressStr "/var/run/usbmuxd"
    end.

Definition __socket (platform : string) : AddressFamily :=
  if is_nt platform then AF_INET else AF_UNIX.

Definition __call__ (platform : string) (socket : option Address)
  : Address * AddressFamily :=
  (__address platform socket, __socket platform).

(** The address a socket of the family connects to: the pair of a host
    and a port for [AF_INET], a path, as a string or a buffer, for
    [AF_UNIX]. *)
Definition fits (a : Address) (family : AddressFamily) : bool :=
  match family, a with
  | AF_INET, AddressTuple [Host _; Port _] => true
  | AF_UNIX, AddressStr _ => true
  | AF_UNIX, AddressBuffer _ => true
  | _, _ => false
  end.

End Socket.

(** ** [Device.__str__]

    The conversions of the [%] operator that the template uses: [%d],
    [%x], [%04x] and [%s].  A number is written with its sign; the zeros
    of [%04x] go between the sign and the digits and fill up to four
    characters, sign included. *)

Definition format_d (z : Z) : string :=
  DecimalString.NilZero.string_of_int (Z.to_int z).

Definition format_x (width : nat) (z : Z) : string :=
  let sign := if decide (z < 0) then "-"%string else EmptyString in
  let digits := HexadecimalString.NilZero.string_of_uint (N.to_hex_uint (Z.abs_N z)) in
  (sign ++
   string_of_list_ascii
     (replicate (width - String.length sign - String.length digits) "0"%char) ++
   digits)%string.

(** [%s] of an [Optional[str]]: [str(None)] is the text [None]. *)
Definition format_s (s : option string) : string :=
  match s with
  | Some s => s
  | None => "None"
  end.

(** [__name__ + '.' + __class__.__name__] in [usbmux/connection/device.py] *)
Definition Device_instance : string := "usbmux.connection.device.Device".

(** [self.STRING % (instance, device_id, usb_product_id, serial,
    location)]: [%d], [%04x] and [%x] take a number, and raise
    [TypeError] for [None]. *)
Definition Device_str (self : Device) : result string :=
  match device_id self, usb_product_id self, location self with
  | Some device_id, Some usb_product_id, Some location =>
      Ok ("<" ++ Device_instance ++ ": Device ID " ++ format_d device_id ++
          ", USB Product ID 0x" ++ format_x 4 usb_product_id ++
          ", Serial '" ++ format_s (serial self) ++
          "', Location 0x" ++ format_x 0 location ++ ">")%string
  | _, _, _ => Raise TypeError
  end.

(** ** [usbmux/__init__.py]

    A [USBMux] makes a [Connection] of its own for the listener, and one
    more for every [connect].  The connections of a process have each
    their socket, flag, registry and tag counter; the [Payload] objects,
    the default payload of [_exchange] among them, and the identities of
    the objects belong to the process. *)

(** The connection [c] in the process whose objects are those of
    [world]. *)
Definition with_world (world c : state) : state :=
  set_next_ident (next_ident world)
    (set_next_loc (next_loc world) (set_heap (heap world) c)).

(** [Connection(protocol, socket_path)] in a process that is running:
    [s] is the socket that the operating system has connected for it. *)
Definition new_Connection (s : socket) (world : state) : state :=
  with_world world (Connection.__init__ s).

Module USBMux.

Record t := {
  listener : state;       (* self.__listener, and the objects of the process *)
  version : Z;            (* self.__version *)
  protocol : Protocol;    (* self.__protocol *)
}.

(** [self.devices], the list object of the listener. *)
Definition devices (self : t) : list Device := devices (listener self).

Section USBMux.
Context `{ByteOrder} `{Plistlib}.

(** [__connect]; the state that comes back with an exception is that of
    the connection that has failed. *)
Definition __connect (P : Protocol) (version : Z) (s : socket) (world : state)
  : result t * state :=
  match Connection.listen P (new_Connection s world) with
  | (Ok _, c) => (Ok {| listener := c; version := version; protocol := P |}, c)
  | (Raise e, c) => (Raise e, c)
  end.

(** [__init__]: [s1] is the socket of the first connection, [s2] the one
    of the second, if it comes to that. *)
Definition __init__ (s1 s2 : socket) (world : state) : result t * state :=
  match __connect Binary 0 s1 world with
  | (Raise e, c) =>
      if isinstance_MuxVersionError e then __connect Plist 1 s2 c
      else (Raise e, c)
  | (Ok self, c) => (Ok self, c)
  end.

Definition process (ready : select_result) (self : t) : result unit * t :=
  match Connection.process (protocol self) ready (listener self) with
  | (r, c) => (r, {| listener := c; version := version self;
                     protocol := protocol self |})
  end.

(** [connect]: [s] is the socket of the new connection.  It gives back
    what [Connection.connect] returns, the object itself with the objects
    of the process as the connector has left them, and the connector. *)
Definition connect (s : socket) (device : Device) (port : Z) (self : t)
  : result socket * t * state :=
  match Connection.connect (protocol self) device port
          (new_Connection s (listener self)) with
  | (r, connector) =>
      (r, {| listener := with_world connector (listener self);
             version := version self; protocol := protocol self |}, connector)
  end.

End USBMux.
End USBMux.

(** What a caller can do with a [USBMux]. *)
Inductive usbmux_operation :=
| usbmux_process (ready : select_result)
| usbmux_connect (s : socket) (device : Device) (port : Z).

Section USBMuxCaller.
Context `{ByteOrder} `{Plistlib}.

Definition usbmux_run (o : usbmux_operation) (self : USBMux.t) : USBMux.t :=
  match o with
  | usbmux_process ready => snd (USBMux.process ready self)
  | usbmux_connect s device port => snd (fst (USBMux.connect s device port self))
  end.

Fixpoint usbmux_run_all (ops : list usbmux_operation) (self : USBMux.t) : USBMux.t :=
  match ops with
  | [] => self
  | o :: ops' => usbmux_run_all ops' (usbmux_run o self)
  end.
End USBMuxCaller.

(** What a caller can do with a connection, and a caller that does one
    thing after the other, going on after an exception. *)
Inductive operation :=
| op_send_packet (request : RequestType) (tag : Z) (payload : Types_Payload loc)
| op_get_packet
| op_process (ready : select_result)
| op_listen
| op_connect (device : Device) (port : Z)
| op_get_pair_record (udid : string).

(** The operations that are a tagged exchange. *)
Definition is_exchange (o : operation) : bool :=
  match o with
  | op_listen | op_connect _ _ | op_get_pair_record _ => true
  | _ => false
  end.

Section Caller.
Context `{ByteOrder} `{Plistlib}.

Definition run (P : Protocol) (o : operation) : M unit :=
  match o with
  | op_send_packet request tag payload => send_packet P request tag payload
  | op_get_packet => get_packet P ;; ret tt
  | op_process ready => Connection.process P ready
  | op_listen => Connection.listen P
  | op_connect device port => Connection.connect P device port ;; ret tt
  | op_get_pair_record udid => Client.get_pair_record udid ;; ret tt
  end.

Fixpoint run_all (P : Protocol) (ops : list operation) (σ : state) : state :=
  match ops with
  | [] => σ
  | o :: ops' => run_all P ops' (snd (run P o σ))
  end.
End Caller.

(** * Properties *)

(** ** Bytes and unsigned integers *)

Lemma Z_of_byte_range (b : byte) : 0 <= Z_of_byte b < 256.
Proof.
  unfold Z_of_byte. pose proof (Byte.to_N_bounded b). lia.
Qed.

Lemma Z_of_byte_of_Z (z : Z) : Z_of_byte (byte_of_Z z) = z mod 256.
Proof.
  unfold Z_of_byte, byte_of_Z.
  assert (B : 0 <= z mod 256 < 256) by (apply Z.mod_pos_bound; lia).
  destruct (Byte.of_N (Z.to_N (z mod 256))) as [b|] eqn:E.
  - apply Byte.to_of_N in E. rewrite E. lia.
  - apply Byte.of_N_None_iff in E. lia.
Qed.

Lemma byte_of_Z_of_byte (b : byte) : byte_of_Z (Z_of_byte b) = b.
Proof.
  apply byte_to_N_inj, N2Z.inj.
  change (Z_of_byte (byte_of_Z (Z_of_byte b)) = Z_of_byte b).
  rewrite Z_of_byte_of_Z. apply Z.mod_small, Z_of_byte_range.
Qed.

Lemma length_le_digits (n : nat) (z : Z) : length (le_digits n z) = n.
Proof. revert z. induction n as [|n IH]; intros z; simpl; [done | by rewrite IH]. Qed.

Lemma le_value_le_digits (n : nat) (z : Z) :
  0 <= z < 256 ^ Z.of_nat n -> le_value (le_digits n z) = z.
Proof.
  revert z. induction n as [|n IH]; intros z Hz.
  - simpl in *. lia.
  - cbn [le_digits le_value]. rewrite Z_of_byte_of_Z, IH.
    + pose proof (Z.div_mod z 256). lia.
    + rewrite Nat2Z.inj_succ, Z.pow_succ_r in Hz by lia.
      split; [apply Z.div_pos; lia | apply Z.div_lt_upper_bound; lia].
Qed.

Lemma le_value_range (b : bytes) : 0 <= le_value b < 256 ^ len b.
Proof.
  unfold len. induction b as [|x b IH].
  - simpl. lia.
  - cbn [le_value length]. rewrite Nat2Z.inj_succ, Z.pow_succ_r by lia.
    pose proof (Z_of_byte_range x). lia.
Qed.

Lemma le_digits_le_value (b : bytes) : le_digits (length b) (le_value b) = b.
Proof.
  induction b as [|x b IH]; [done|].
  cbn [le_value length le_digits].
  pose proof (Z_of_byte_range x) as Hx.
  assert (E1 : (Z_of_byte x + 256 * le_value b) mod 256 = Z_of_byte x).
  { replace (Z_of_byte x + 256 * le_value b) with (Z_of_byte x + le_value b * 256) by lia.
    rewrite Z.mod_add by lia. by apply Z.mod_small. }
  assert (E2 : (Z_of_byte x + 256 * le_value b) / 256 = le_value b).
  { replace (Z_of_byte x + 256 * le_value b) with (Z_of_byte x + le_value b * 256) by lia.
    rewrite Z.div_add by lia. rewrite Z.div_small by lia. lia. }
  rewrite E2, IH. f_equal.
  apply byte_to_N_inj, N2Z.inj.
  change (Z_of_byte (byte_of_Z (Z_of_byte x + 256 * le_value b)) = Z_of_byte x).
  by rewrite Z_of_byte_of_Z.
Qed.

Section Uint.
Context `{ByteOrder}.

Lemma length_encode_uint (n : nat) (z : Z) : length (encode_uint n z) = n.
Proof.
  unfold encode_uint. destruct native; [|rewrite length_rev]; apply length_le_digits.
Qed.

Lemma decode_encode_uint (n : nat) (z : Z) :
  0 <= z < 256 ^ Z.of_nat n -> decode_uint (encode_uint n z) = z.
Proof.
  intros Hz. unfold decode_uint, encode_uint.
  destruct native; [|rewrite rev_involutive]; by apply le_value_le_digits.
Qed.

Lemma decode_uint_range (b : bytes) : 0 <= decode_uint b < 256 ^ len b.
Proof.
  unfold decode_uint. destruct native; [apply le_value_range|].
  replace (len b) with (len (rev b)); [apply le_value_range|].
  unfold len. by rewrite length_rev.
Qed.

Lemma encode_decode_uint (b : bytes) : encode_uint (length b) (decode_uint b) = b.
Proof.
  unfold decode_uint, encode_uint. destruct native.
  - apply le_digits_le_value.
  - rewrite <- (length_rev b), le_digits_le_value. apply rev_involutive.
Qed.
End Uint.

(** ** A reference serialiser

    One implementation of the [Plistlib] interface, to run the codec on
    sample inputs: a record is numbered by its [Countable] code and the
    number is written in base 256.  It refuses a record that holds a
    [None], as [plistlib.dumps] does. *)

Global Instance byte_countable : Countable byte.
Proof.
  refine (inj_countable' Byte.to_N
            (fun n => match Byte.of_N n with Some b => b | None => x00 end) _).
  intros b. by rewrite Byte.of_to_N.
Defined.

Global Instance scalar_countable : Countable plist.scalar.
Proof.
  refine (inj_countable'
    (fun x => match x with
              | plist.VNone => inl (inl (inl tt))
              | plist.VInt z => inl (inl (inr z))
              | plist.VStr s => inl (inr s)
              | plist.VBytes b => inr b
              end)
    (fun y => match y with
              | inl (inl (inl _)) => plist.VNone
              | inl (inl (inr z)) => plist.VInt z
              | inl (inr s) => plist.VStr s
              | inr b => plist.VBytes b
              end) _).
  by intros [].
Defined.

Global Instance value_countable : Countable plist.value.
Proof.
  refine (inj_countable'
    (fun v => match v with plist.Scalar x => inl x | plist.Dict d => inr d end)
    (fun y => match y with inl x => plist.Scalar x | inr d => plist.Dict d end) _).
  by intros [].
Defined.

Global Instance value_free_of_None_dec (v : plist.value) :
  Decision (plist.value_free_of_None v).
Proof. destruct v; simpl; apply _. Defined.

Global Instance free_of_None_dec (d : gmap string plist.value) :
  Decision (plist.free_of_None d).
Proof. unfold plist.free_of_None. apply _. Defined.

Module reference.

Definition bytes_of_pos (p : positive) : bytes :=
  le_digits (S (Z.to_nat (Z.log2 (Z.pos p)))) (Z.pos p).

Definition pos_of_bytes (b : bytes) : option positive :=
  match le_value b with
  | Z.pos p => Some p
  | _ => None
  end.

Definition serialise (d : gmap string plist.value) : result bytes :=
  if decide (plist.free_of_None d) then Ok (bytes_of_pos (encode d))
  else Raise TypeError.

Definition parse (b : bytes) : result (gmap string plist.value) :=
  match pos_of_bytes b ≫= decode with
  | Some d => Ok d
  | None => Raise (ValueError None)
  end.

Lemma pos_of_bytes_of_pos (p : positive) : pos_of_bytes (bytes_of_pos p) = Some p.
Proof.
  unfold pos_of_bytes, bytes_of_pos. rewrite le_value_le_digits; [done|].
  split; [lia|].
  pose proof (Z.log2_spec (Z.pos p) ltac:(lia)) as [_ Hlt].
  pose proof (Z.log2_nonneg (Z.pos p)) as Hnn.
  apply Z.lt_le_trans with (2 ^ Z.succ (Z.log2 (Z.pos p))); [done|].
  rewrite Nat2Z.inj_succ, Z2Nat.id by done.
  apply Z.pow_le_mono_l. lia.
Qed.

Lemma parse_serialise (d : gmap string plist.value) (b : bytes) :
  serialise d = Ok b -> parse b = Ok d.
Proof.
  unfold serialise, parse. case_decide; [|done]. intros [= <-].
  rewrite pos_of_bytes_of_pos. simpl. by rewrite decode_encode.
Qed.

Lemma serialise_free_of_None (d : gmap string plist.value) (b : bytes) :
  serialise d = Ok b -> plist.free_of_None d.
Proof. unfold serialise. by case_decide. Qed.

Definition plistlib : Plistlib :=
  {| dumps := serialise; loads := parse;
     dumps_None := serialise_free_of_None |}.

End reference.

(** ** Sample inputs *)

(** A little-endian host. *)
Definition little_endian : ByteOrder := LittleEndian.

(** A socket that holds [chunks] for the reader and accepts whatever the
    [window] says. *)
Definition socket_with (chunks : list bytes) (w : list nat) : socket :=
  {| inbox := chunks; window := w; outbox := []; closed := false |}.

(** The bytes the reference serialiser makes of a record. *)
Definition serialised (d : gmap string plist.value) : bytes :=
  match reference.serialise d with
  | Ok b => b
  | Raise _ => []
  end.

(** A device with id 7, and the port of the lockdown service. *)
Definition device_7 : Device :=
  {| ident := 0; device_id := Some 7; usb_product_id := None;
     serial := None; location := None |}.

Definition lockdown_port : Z := 62078.

(** A binary packet with the right version, 0, and the opcode of
    [CONNECT], 2, which no rule of [_unpack] decodes. *)
Definition connect_frame : bytes := frame (H := little_endian) 0 2 1 [].

(** A binary [RESULT] packet with tag 9 and number 0. *)
Definition result_frame_tag_9 : bytes :=
  frame (H := little_endian) 0 1 9 [x00; x00; x00; x00].

(** A binary [DEVICE_REMOVE] packet for the device id 7. *)
Definition device_remove_frame : bytes :=
  frame (H := little_endian) 0 5 0 [x07; x00; x00; x00].

(** A 270-byte [DEVICE_ADD] body: device id 7, product id 0x12a8, a
    256-byte serial field that starts with "ABC123" and goes on with NUL
    bytes, and eight more bytes. *)
Definition serial_field : bytes :=
  [x41; x42; x43; x31; x32; x33] ++ replicate 250 x00.

Definition device_add_body_270 : bytes :=
  [x07; x00; x00; x00] ++ [xa8; x12] ++ serial_field ++ replicate 8 x00.

(** The same device in the 268 bytes of the format [IH256sHI]: two pad
    bytes and the location after the serial field. *)
Definition device_add_body_268 : bytes :=
  [x07; x00; x00; x00] ++ [xa8; x12] ++ serial_field ++ replicate 6 x00.

(** A connection on the binary codec, not connected, that has nothing to
    read and a socket that takes 64 bytes. *)
Definition idle_connection : state := Connection.__init__ (socket_with [] [64%nat]).

(** The same after a successful [connect]. *)
Definition connected_connection : state := set_connected true idle_connection.

(** A listening connection on the binary codec with the device 7 in its
    registry and a [DEVICE_REMOVE] packet for it waiting. *)
Definition removal_pending : state :=
  set_devices [device_7] (Connection.__init__ (socket_with [device_remove_frame] [])).

(** The same with an empty registry. *)
Definition removal_of_absent_pending : state :=
  Connection.__init__ (socket_with [device_remove_frame] []).

(** A connection on the binary codec about to [listen], whose daemon
    answers with the tag 9. *)
Definition wrong_tag_pending : state :=
  Connection.__init__ (socket_with [result_frame_tag_9] [64%nat]).

(** The record of the default payload once [listen] has stamped it, as
    the plist codec serialises it, and a plist connection that receives it. *)
Definition listen_record : gmap string plist.value :=
  PlistProtocol.remove_none
    (asdict (Payload.set_MessageType (Some "Listen") Payload.default)).

Definition plist_sender : state := Connection.__init__ (socket_with [] [4096%nat]).

Definition plist_receiver : state :=
  Connection.__init__
    (socket_with [frame (H := little_endian) 1 8 1 (serialised listen_record)] []).

(** An attach notification without a [Properties] key, and a plist
    connection that receives it. *)
Definition attached_record : gmap string plist.value :=
  list_to_map [("MessageType", plist.Scalar (plist.VStr "Attached"));
               ("DeviceID", plist.Scalar (plist.VInt 3))].

Definition attach_pending : state :=
  Connection.__init__
    (socket_with [frame (H := little_endian) 1 8 0 (serialised attached_record)] []).

(** ** The [struct] formats of the code *)

Section StructFormats.
Context `{ByteOrder}.

Lemma calcsize_formats :
  struct.calcsize Formats.I = 4%nat /\
  struct.calcsize Formats.III = 12%nat /\
  struct.calcsize Formats.IIII = 16%nat /\
  struct.calcsize Formats.IH = 6%nat /\
  struct.calcsize Formats.IH256sHI = 268%nat.
Proof. repeat split; reflexivity. Qed.

Lemma pack_IIII (a b c d : Z) :
  u32 a -> u32 b -> u32 c -> u32 d ->
  struct.pack Formats.IIII [struct.Int a; struct.Int b; struct.Int c; struct.Int d]
  = Ok (encode_uint 4 a ++ encode_uint 4 b ++ encode_uint 4 c ++ encode_uint 4 d).
Proof.
  unfold u32. intros Ha Hb Hc Hd. unfold struct.pack, Formats.IIII.
  cbn [struct.pack_from struct.encode].
  rewrite !decide_True by assumption. cbn. by rewrite app_nil_r.
Qed.

Lemma pack_IH (d p : Z) :
  0 <= d < 2 ^ 32 -> 0 <= p < 2 ^ 16 ->
  struct.pack Formats.IH [struct.Int d; struct.Int p]
  = Ok (encode_uint 4 d ++ encode_uint 2 p).
Proof.
  intros Hd Hp. unfold struct.pack, Formats.IH.
  cbn [struct.pack_from struct.encode].
  rewrite !decide_True by assumption. cbn. by rewrite app_nil_r.
Qed.

Ltac explode l :=
  repeat (destruct l as [|? l]; try discriminate).

Lemma unpack_I (x : bytes) :
  length x = 4%nat -> struct.unpack Formats.I x = Ok (decode_uint x, tt).
Proof. intros Hx. explode x. reflexivity. Qed.

Lemma unpack_III (x y z : bytes) :
  length x = 4%nat -> length y = 4%nat -> length z = 4%nat ->
  struct.unpack Formats.III (x ++ y ++ z)
  = Ok (decode_uint x, (decode_uint y, (decode_uint z, tt))).
Proof. intros Hx Hy Hz. explode x. explode y. explode z. reflexivity. Qed.

Lemma unpack_IH (x y : bytes) :
  length x = 4%nat -> length y = 2%nat ->
  struct.unpack Formats.IH (x ++ y) = Ok (decode_uint x, (decode_uint y, tt)).
Proof. intros Hx Hy. explode x. explode y. reflexivity. Qed.

Lemma unpack_wrong_size (fmt : list struct.code) (buffer : bytes) :
  length buffer <> struct.calcsize fmt ->
  struct.unpack fmt buffer = Raise struct_error.
Proof. intros Hn. unfold struct.unpack. by rewrite decide_False. Qed.
End StructFormats.

(** ** Full-buffer send and receive *)

Lemma with_inbox_same (σ : state) : with_inbox (inbox (sock σ)) σ = σ.
Proof. by destruct σ as [[] ? ? ? ? ? ? ?]. Qed.

Lemma with_inbox_twice (i j : list bytes) (σ : state) :
  with_inbox j (with_inbox i σ) = with_inbox j σ.
Proof. reflexivity. Qed.

Lemma receive_loop_ok (fuel : nat) (size : Z) (message : bytes) (σ : state) (need : nat) :
  need = Z.to_nat (size - len message) ->
  Forall (fun c => c <> []) (inbox (sock σ)) ->
  (need <= fuel)%nat ->
  (need <= length (concat (inbox (sock σ))))%nat ->
  exists i,
    SafeStreamSocket.receive_loop fuel size message σ
    = (Ok (message ++ take need (concat (inbox (sock σ)))), with_inbox i σ) /\
    concat i = drop need (concat (inbox (sock σ))) /\
    Forall (fun c => c <> []) i.
Proof.
  revert message σ need.
  induction fuel as [|fuel IH]; intros message σ need Eneed Hne Hfuel Hlen.
  - exists (inbox (sock σ)). assert (need = O) as E0 by lia. rewrite E0.
    rewrite with_inbox_same, take_0, drop_0, app_nil_r. simpl.
    destruct (decide (len message < size)); [lia|done].
  - cbn [SafeStreamSocket.receive_loop].
    destruct (decide (len message < size)) as [Hlt|Hge].
    + assert (Hneed : (0 < need)%nat) by lia.
      unfold bind, socket_recv.
      destruct (inbox (sock σ)) as [|c cs] eqn:Ei; [simpl in Hlen; lia|].
      pose proof (Forall_inv Hne) as Hc. pose proof (Forall_inv_tail Hne) as Hcs.
      rewrite <- Eneed.
      assert (Hclen : (0 < length c)%nat) by (destruct c; [done | simpl; lia]).
      assert (Htake : take need c <> []).
      { destruct c; [done|]. destruct need; [lia|done]. }
      assert (Hm : forall (A : Type) (a b : A),
                 match take need c with [] => a | _ :: _ => b end = b).
      { intros. by destruct (take need c). }
      rewrite Hm. clear Hm.
      set (σ1 := set_sock _ σ).
      assert (Hlen1 : len (message ++ take need c)
                      = len message + Z.of_nat (Nat.min need (length c))).
      { unfold len. rewrite length_app, length_take. lia. }
      simpl in Hlen. rewrite length_app in Hlen.
      destruct (decide (length c <= need)%nat) as [Hle|Hgt].
      * destruct (IH (message ++ take need c) σ1 (need - length c)%nat)
          as (i & E & Hcat & Hi).
        { rewrite Hlen1. lia. }
        { done. }
        { lia. }
        { subst σ1. simpl. lia. }
        exists i. rewrite E. subst σ1. simpl. split; [|split; [|done]].
        -- rewrite take_app_ge, take_ge by done. by rewrite <- app_assoc.
        -- rewrite Hcat. simpl. by rewrite drop_app_ge by done.
      * destruct (IH (message ++ take need c) σ1 O) as (i & E & Hcat & Hi).
        { rewrite Hlen1. lia. }
        { subst σ1. simpl. apply Forall_cons; [|done].
          intros E. apply (f_equal length) in E. rewrite length_drop in E.
          simpl in E. lia. }
        { lia. }
        { lia. }
        exists i. rewrite E. subst σ1. simpl.
        rewrite drop_0 in Hcat. rewrite take_0, app_nil_r.
        split; [|split; [|done]].
        -- by rewrite take_app_le by lia.
        -- rewrite Hcat. simpl. by rewrite drop_app_le by lia.
    + exists (inbox (sock σ)). assert (need = O) as E0 by lia. rewrite E0.
      by rewrite with_inbox_same, take_0, drop_0, app_nil_r.
Qed.

Lemma receive_ok (data rest : bytes) (σ : state) :
  Forall (fun c => c <> []) (inbox (sock σ)) ->
  concat (inbox (sock σ)) = data ++ rest ->
  exists i,
    SafeStreamSocket.receive (len data) σ = (Ok data, with_inbox i σ) /\
    concat i = rest /\
    Forall (fun c => c <> []) i.
Proof.
  intros Hne Hcat. unfold SafeStreamSocket.receive.
  destruct (receive_loop_ok (Z.to_nat (len data)) (len data) [] σ (length data))
    as (i & E & Hi & Hni).
  - unfold len. simpl. lia.
  - done.
  - unfold len. lia.
  - rewrite Hcat, length_app. lia.
  - exists i. rewrite E, Hi, Hcat. simpl.
    by rewrite take_app_length, drop_app_length.
Qed.

Lemma with_sent_nothing (σ : state) : with_sent [] (window (sock σ)) σ = σ.
Proof.
  destruct σ as [[] ? ? ? ? ? ? ?]. unfold with_sent, set_sock. simpl.
  by rewrite app_nil_r.
Qed.

Lemma window_after_0 (w : list nat) : window_after w 0 = Some w.
Proof. by destruct w. Qed.

Lemma send_loop_ok (fuel : nat) (message : bytes) (total : nat) (σ : state)
    (w' : list nat) :
  (total <= length message)%nat ->
  (length message - total <= fuel)%nat ->
  window_after (window (sock σ)) (length message - total) = Some w' ->
  SafeStreamSocket.send_loop fuel message total σ
  = (Ok tt, with_sent (drop total message) w' σ).
Proof.
  revert total σ. induction fuel as [|fuel IH]; intros total σ Htot Hfuel Hw.
  - assert (E : (length message - total = 0)%nat) by lia.
    rewrite E, window_after_0 in Hw. injection Hw as <-.
    rewrite drop_ge, with_sent_nothing by lia. simpl.
    by destruct (decide (total < length message)%nat); [lia|].
  - cbn [SafeStreamSocket.send_loop].
    destruct (decide (total < length message)%nat) as [Hlt|Hge].
    + unfold bind, socket_send.
      destruct (window (sock σ)) as [|k ws] eqn:Ew; simpl in Hw.
      { by rewrite decide_False in Hw by lia. }
      rewrite decide_False in Hw by lia.
      destruct (decide (k = O)) as [->|Hk]; [done|].
      rewrite length_drop.
      set (n := Nat.min k (length message - total)) in *.
      rewrite decide_False by lia.
      rewrite IH.
      * unfold with_sent, set_sock. simpl. do 3 f_equal.
        rewrite <- app_assoc. f_equal.
        rewrite <- drop_drop. apply take_drop.
      * lia.
      * lia.
      * simpl. rewrite <- Hw. f_equal. lia.
    + assert (E : (length message - total = 0)%nat) by lia.
      rewrite E, window_after_0 in Hw. injection Hw as <-.
      by rewrite drop_ge, with_sent_nothing by lia.
Qed.

Lemma send_ok (message : bytes) (σ : state) (w' : list nat) :
  window_after (window (sock σ)) (length message) = Some w' ->
  SafeStreamSocket.send message σ = (Ok tt, with_sent message w' σ).
Proof.
  intros Hw. unfold SafeStreamSocket.send.
  rewrite (send_loop_ok _ _ _ _ w'); [done | lia | lia |].
  by rewrite Nat.sub_0_r.
Qed.

(** ** The loops have fuel enough

    Each loop is written with a counter that bounds its turns.  With the
    counter the code starts from, a further turn changes nothing: the loop
    has ended by itself before the counter runs out. *)

Lemma send_loop_fuel (fuel : nat) (message : bytes) (total : nat) (σ : state) :
  (length message - total <= fuel)%nat ->
  SafeStreamSocket.send_loop (S fuel) message total σ
  = SafeStreamSocket.send_loop fuel message total σ.
Proof.
  revert total σ. induction fuel as [|fuel IH]; intros total σ Hfuel.
  - simpl. destruct (decide (total < length message)%nat); [lia|done].
  - change (SafeStreamSocket.send_loop (S (S fuel)) message total σ)
      with ((if decide (total < length message)%nat then
               sent <- socket_send (drop total message) ;;
               if decide (sent = O)
               then raise (MuxError SOCKET_CONNECTION_BROKEN)
               else SafeStreamSocket.send_loop (S fuel) message (total + sent)
             else ret tt) σ).
    change (SafeStreamSocket.send_loop (S fuel) message total σ)
      with ((if decide (total < length message)%nat then
               sent <- socket_send (drop total message) ;;
               if decide (sent = O)
               then raise (MuxError SOCKET_CONNECTION_BROKEN)
               else SafeStreamSocket.send_loop fuel message (total + sent)
             else ret tt) σ).
    destruct (decide (total < length message)%nat); [|done].
    unfold bind. destruct (socket_send _ σ) as [[sent|e] σ']; [|done].
    destruct (decide (sent = O)); [done|]. apply IH. lia.
Qed.

Lemma receive_loop_fuel (fuel : nat) (size : Z) (message : bytes) (σ : state) :
  (Z.to_nat (size - len message) <= fuel)%nat ->
  SafeStreamSocket.receive_loop (S fuel) size message σ
  = SafeStreamSocket.receive_loop fuel size message σ.
Proof.
  revert message σ. induction fuel as [|fuel IH]; intros message σ Hfuel.
  - simpl. destruct (decide (len message < size)); [lia|done].
  - change (SafeStreamSocket.receive_loop (S (S fuel)) size message σ)
      with ((if decide (len message < size) then
               chunk <- socket_recv (Z.to_nat (size - len message)) ;;
               match chunk with
               | [] => raise (MuxError SOCKET_CONNECTION_BROKEN)
               | _ => SafeStreamSocket.receive_loop (S fuel) size (message ++ chunk)
               end
             else ret message) σ).
    change (SafeStreamSocket.receive_loop (S fuel) size message σ)
      with ((if decide (len message < size) then
               chunk <- socket_recv (Z.to_nat (size - len message)) ;;
               match chunk with
               | [] => raise (MuxError SOCKET_CONNECTION_BROKEN)
               | _ => SafeStreamSocket.receive_loop fuel size (message ++ chunk)
               end
             else ret message) σ).
    destruct (decide (len message < size)); [|done].
    unfold bind. destruct (socket_recv _ σ) as [[chunk|e] σ']; [|done].
    destruct chunk as [|x chunk]; [done|]. apply IH.
    unfold len in *. rewrite length_app. simpl. lia.
Qed.

(** ** Reading one packet off the wire *)

Section GetPacket.
Context `{ByteOrder}.

Lemma len_frame (version response tag : Z) (body : bytes) :
  len (frame version response tag body) = PADDING_LENGTH + len body.
Proof.
  unfold frame, len. rewrite !length_app, !length_encode_uint.
  unfold PADDING_LENGTH. lia.
Qed.

(** What [BinaryProtocol.get_packet] does with a packet that arrives
    whole, whatever the class of [self]. *)
Lemma get_packet_frame (P : Protocol) (σ : state)
    (version response tag : Z) (body rest : bytes) :
  connected σ = false ->
  u32 (PADDING_LENGTH + len body) -> u32 version -> u32 response -> u32 tag ->
  Forall (fun c => c <> []) (inbox (sock σ)) ->
  concat (inbox (sock σ)) = frame version response tag body ++ rest ->
  exists i,
    concat i = rest /\ Forall (fun c => c <> []) i /\
    BinaryProtocol.get_packet P σ =
      (if decide (version = VERSION P) then
         match BinaryProtocol.dispatch_unpack P response body with
         | Ok unpacked => Ok (response, tag, unpacked)
         | Raise e => Raise e
         end
       else Raise (MuxVersionError (INVALID_VERSION (VERSION P) version)),
       with_inbox i σ).
Proof.
  unfold u32. intros Hc Hl Hv Hr Ht Hne Hcat.
  unfold frame in Hcat. rewrite <- !app_assoc in Hcat.
  destruct (receive_ok _ _ σ Hne Hcat) as (i1 & E1 & Hcat1 & Hne1).
  replace (len (encode_uint 4 (PADDING_LENGTH + len body))) with SOCKET_PADDING in E1
    by (unfold len; by rewrite length_encode_uint).
  set (σ1 := with_inbox i1 σ) in *.
  assert (Hcat1' : concat (inbox (sock σ1))
            = (encode_uint 4 version ++ encode_uint 4 response ++
               encode_uint 4 tag ++ body) ++ rest).
  { subst σ1. simpl. by rewrite Hcat1, <- !app_assoc. }
  destruct (receive_ok _ _ σ1 Hne1 Hcat1') as (i & E2 & Hcat2 & Hne2).
  replace (len (encode_uint 4 version ++ encode_uint 4 response ++
                encode_uint 4 tag ++ body))
    with (PADDING_LENGTH + len body - SOCKET_PADDING) in E2.
  2:{ unfold len. rewrite !length_app, !length_encode_uint.
      unfold PADDING_LENGTH, SOCKET_PADDING. lia. }
  exists i. split; [done|]. split; [done|].
  unfold BinaryProtocol.get_packet, BinaryProtocol.__is_connected, bind, get, lift.
  rewrite Hc. unfold ret at 1. rewrite E1.
  rewrite unpack_I by apply length_encode_uint.
  rewrite decode_encode_uint by (change (256 ^ Z.of_nat 4) with (2 ^ 32); lia).
  cbn [fst]. rewrite E2.
  assert (Etake : take 12 (encode_uint 4 version ++ encode_uint 4 response ++
                            encode_uint 4 tag ++ body)
                  = encode_uint 4 version ++ encode_uint 4 response ++ encode_uint 4 tag).
  { rewrite !app_assoc. rewrite take_app_length'; [done|].
    by rewrite !length_app, !length_encode_uint. }
  assert (Edrop : drop 12 (encode_uint 4 version ++ encode_uint 4 response ++
                            encode_uint 4 tag ++ body) = body).
  { rewrite !app_assoc. rewrite drop_app_length'; [done|].
    by rewrite !length_app, !length_encode_uint. }
  rewrite Etake, Edrop.
  rewrite unpack_III by apply length_encode_uint.
  rewrite !decode_encode_uint by (change (256 ^ Z.of_nat 4) with (2 ^ 32); lia).
  subst σ1. rewrite with_inbox_twice.
  repeat case_decide; try done.
  destruct (BinaryProtocol.dispatch_unpack P response body); reflexivity.
Qed.
End GetPacket.

(** ** What the socket and the codecs leave alone *)

Lemma socket_only_ret {A} (a : A) : socket_only (ret a).
Proof. intros σ. exists (sock σ). by destruct σ. Qed.

Lemma socket_only_raise {A} (e : exception) : socket_only (@raise A e).
Proof. intros σ. exists (sock σ). by destruct σ. Qed.

Lemma socket_only_lift {A} (r : result A) : socket_only (lift r).
Proof. intros σ. exists (sock σ). by destruct σ. Qed.

Lemma socket_only_get : socket_only get.
Proof. intros σ. exists (sock σ). by destruct σ. Qed.

Lemma socket_only_bind {A B} (m : M A) (k : A -> M B) :
  socket_only m -> (forall a, socket_only (k a)) -> socket_only (bind m k).
Proof.
  intros Hm Hk σ. unfold bind. destruct (Hm σ) as [s Hs].
  destruct (m σ) as [[a|e] σ1]; simpl in Hs; subst σ1.
  - destruct (Hk a (set_sock s σ)) as [s' Hs']. exists s'. by rewrite Hs'.
  - by exists s.
Qed.

Lemma socket_only_socket_send (data : bytes) : socket_only (socket_send data).
Proof.
  intros σ. unfold socket_send. destruct (window (sock σ)); simpl; [|eauto].
  exists (sock σ). by destruct σ.
Qed.

Lemma socket_only_socket_recv (n : nat) : socket_only (socket_recv n).
Proof.
  intros σ. unfold socket_recv. destruct (inbox (sock σ)); simpl; [|eauto].
  exists (sock σ). by destruct σ.
Qed.

Lemma socket_only_send (message : bytes) : socket_only (SafeStreamSocket.send message).
Proof.
  unfold SafeStreamSocket.send. generalize 0%nat as total.
  induction (length message) as [|fuel IH]; intros total; simpl.
  - case_decide; apply socket_only_ret.
  - case_decide; [|apply socket_only_ret].
    apply socket_only_bind; [apply socket_only_socket_send|].
    intros sent. case_decide; [apply socket_only_raise | apply IH].
Qed.

Lemma socket_only_receive (size : Z) : socket_only (SafeStreamSocket.receive size).
Proof.
  unfold SafeStreamSocket.receive. generalize (@nil byte) as message.
  induction (Z.to_nat size) as [|fuel IH]; intros message; simpl.
  - case_decide; apply socket_only_ret.
  - case_decide; [|apply socket_only_ret].
    apply socket_only_bind; [apply socket_only_socket_recv|].
    intros [|x chunk]; [apply socket_only_raise | apply IH].
Qed.

Lemma keeps_ret {A X} (f : state -> X) (a : A) : keeps f (ret a).
Proof. done. Qed.

Lemma keeps_raise {A X} (f : state -> X) (e : exception) : keeps f (@raise A e).
Proof. done. Qed.

Lemma keeps_lift {A X} (f : state -> X) (r : result A) : keeps f (lift r).
Proof. done. Qed.

Lemma keeps_get {X} (f : state -> X) : keeps f get.
Proof. done. Qed.

Lemma keeps_modify {X} (f : state -> X) (g : state -> state) :
  (forall σ, f (g σ) = f σ) -> keeps f (modify g).
Proof. intros Hg σ. apply Hg. Qed.

Lemma keeps_bind {A B X} (f : state -> X) (m : M A) (k : A -> M B) :
  keeps f m -> (forall a, keeps f (k a)) -> keeps f (bind m k).
Proof.
  intros Hm Hk σ. unfold bind. specialize (Hm σ).
  destruct (m σ) as [[a|e] σ1]; simpl in Hm; [|done].
  by rewrite Hk.
Qed.

Lemma keeps_socket_only {A X} (f : state -> X) (m : M A) :
  (forall s σ, f (set_sock s σ) = f σ) -> socket_only m -> keeps f m.
Proof. intros Hf Hm σ. destruct (Hm σ) as [s ->]. apply Hf. Qed.

Section CodecFrames.
Context `{ByteOrder} `{Plistlib}.

Lemma socket_only_is_connected : socket_only BinaryProtocol.__is_connected.
Proof.
  apply socket_only_bind; [apply socket_only_get|].
  intros σ. destruct (connected σ); [apply socket_only_raise | apply socket_only_ret].
Qed.

Lemma socket_only_pack (P : Protocol) (request : RequestType)
    (payload : Types_Payload loc) :
  socket_only (BinaryProtocol._pack P request payload).
Proof.
  unfold BinaryProtocol._pack. destruct payload; [|apply socket_only_ret].
  repeat case_decide; try apply socket_only_ret; try apply socket_only_raise.
  apply socket_only_bind; [apply socket_only_get|]. intros σ.
  apply socket_only_bind; [apply socket_only_lift|]. intros w.
  apply socket_only_ret.
Qed.

Lemma socket_only_binary_send_packet (P : Protocol) (request : RequestType)
    (tag : Z) (payload : Types_Payload loc) :
  socket_only (BinaryProtocol.send_packet P request tag payload).
Proof.
  unfold BinaryProtocol.send_packet.
  apply socket_only_bind; [apply socket_only_is_connected|]. intros _.
  apply socket_only_bind; [apply socket_only_pack|]. intros w.
  apply socket_only_bind; [apply socket_only_lift|]. intros h.
  apply socket_only_send.
Qed.

Lemma socket_only_binary_get_packet (P : Protocol) :
  socket_only (BinaryProtocol.get_packet P).
Proof.
  unfold BinaryProtocol.get_packet.
  apply socket_only_bind; [apply socket_only_is_connected|]. intros _.
  apply socket_only_bind; [apply socket_only_receive|]. intros d.
  apply socket_only_bind; [apply socket_only_lift|]. intros l.
  apply socket_only_bind; [apply socket_only_receive|]. intros b.
  apply socket_only_bind; [apply socket_only_lift|].
  intros (version & response & tag & []).
  case_decide; [|apply socket_only_raise].
  apply socket_only_bind; [apply socket_only_lift|]. intros u.
  apply socket_only_ret.
Qed.

Lemma socket_only_plist_get_packet : socket_only PlistProtocol.get_packet.
Proof.
  unfold PlistProtocol.get_packet.
  apply socket_only_bind; [apply socket_only_binary_get_packet|].
  intros [[response tag] payload].
  case_decide; [apply socket_only_raise|].
  destruct payload; [apply socket_only_ret|].
  apply socket_only_bind; [apply socket_only_lift|]. intros d.
  apply socket_only_bind; [apply socket_only_lift|]. intros q.
  apply socket_only_bind; [apply socket_only_lift|]. intros p.
  apply socket_only_ret.
Qed.

Lemma socket_only_get_packet (P : Protocol) : socket_only (get_packet P).
Proof.
  destruct P; simpl.
  - apply socket_only_bind; [apply socket_only_binary_get_packet|].
    intros [[response tag] payload]. apply socket_only_ret.
  - apply socket_only_bind; [apply socket_only_plist_get_packet|].
    intros [[response tag] payload]. apply socket_only_ret.
Qed.

(** [PlistProtocol.send_packet] writes to one payload object, and then
    to the socket only. *)
Lemma plist_send_packet_state (request : RequestType) (tag : Z) (l : loc)
    (σ : state) :
  match PlistProtocol.__request_type request with
  | Ok s => exists sk, snd (PlistProtocol.send_packet request tag l σ)
                       = set_sock sk (stamped s l σ)
  | Raise e => PlistProtocol.send_packet request tag l σ = (Raise e, σ)
  end.
Proof.
  unfold PlistProtocol.send_packet, bind, lift, modify, get.
  destruct (PlistProtocol.__request_type request) as [s|e]; [|done].
  fold (stamped s l σ).
  destruct (dumps _) as [body|e].
  - apply socket_only_binary_send_packet.
  - exists (sock σ). by destruct σ.
Qed.

Lemma keeps_send_packet {X} (f : state -> X) (P : Protocol) (request : RequestType)
    (tag : Z) (payload : Types_Payload loc) :
  (forall s σ, f (set_sock s σ) = f σ) ->
  (forall h σ, f (set_heap h σ) = f σ) ->
  keeps f (send_packet P request tag payload).
Proof.
  intros Hs Hh. destruct P; simpl.
  - by apply keeps_socket_only, socket_only_binary_send_packet.
  - destruct payload as [l|b].
    2:{ intros σ. unfold bind, lift.
        by destruct (PlistProtocol.__request_type request). }
    intros σ. pose proof (plist_send_packet_state request tag l σ) as Hst.
    destruct (PlistProtocol.__request_type request) as [s|e].
    + destruct Hst as [sk ->]. unfold stamped. by rewrite Hs, Hh.
    + by rewrite Hst.
Qed.

Lemma keeps_get_packet {X} (f : state -> X) (P : Protocol) :
  (forall s σ, f (set_sock s σ) = f σ) -> keeps f (get_packet P).
Proof. intros Hs. by apply keeps_socket_only, socket_only_get_packet. Qed.
End CodecFrames.

(** ** The byte swap of the port *)

Lemma lor_disjoint (a b : Z) : 0 <= b < 256 -> Z.lor (Z.shiftl a 8) b = a * 256 + b.
Proof.
  intros Hb.
  assert (Hland : Z.land (Z.shiftl a 8) b = 0).
  { apply Z.bits_inj'. intros n Hn. rewrite Z.land_spec, Z.bits_0.
    destruct (Z.lt_ge_cases n 8) as [Hlt|Hge].
    - by rewrite Z.shiftl_spec_low.
    - rewrite (Z.bits_above_log2 b n); [apply andb_false_r | lia |].
      destruct (Z.eq_dec b 0) as [->|Hnz]; [simpl; lia|].
      apply Z.log2_lt_pow2; [lia|]. apply Z.lt_le_trans with (2 ^ 8); [lia|].
      apply Z.pow_le_mono_r; lia. }
  rewrite <- Z.lxor_lor, <- Z.add_nocarry_lxor by done.
  by rewrite Z.shiftl_mul_pow2 by lia.
Qed.

Lemma port_number_swap (port : Z) :
  0 <= port <= 65535 ->
  Connection.port_number port = (port mod 256) * 256 + port / 256.
Proof.
  intros Hp. unfold Connection.port_number.
  change 65280 with (Z.shiftl 255 8).
  rewrite <- Z.shiftl_land. change 255 with (Z.ones 8).
  rewrite Z.land_ones by lia. rewrite Z.shiftr_div_pow2 by lia.
  change (2 ^ 8) with 256. apply lor_disjoint.
  split; [apply Z.div_pos; lia | apply Z.div_lt_upper_bound; lia].
Qed.

Lemma port_number_range (port : Z) :
  0 <= port <= 65535 -> 0 <= Connection.port_number port <= 65535.
Proof.
  intros Hp. rewrite port_number_swap by done.
  pose proof (Z.mod_pos_bound port 256).
  assert (0 <= port / 256 < 256)
    by (split; [apply Z.div_pos; lia | apply Z.div_lt_upper_bound; lia]).
  lia.
Qed.

Lemma port_number_involutive (port : Z) :
  0 <= port <= 65535 ->
  Connection.port_number (Connection.port_number port) = port.
Proof.
  intros Hp. rewrite (port_number_swap (Connection.port_number port))
    by by apply port_number_range.
  rewrite port_number_swap by done.
  pose proof (Z.mod_pos_bound port 256).
  assert (0 <= port / 256 < 256)
    by (split; [apply Z.div_pos; lia | apply Z.div_lt_upper_bound; lia]).
  replace ((port `mod` 256 * 256 + port `div` 256) `mod` 256) with (port / 256).
  2:{ rewrite Z.add_comm, Z.mod_add by lia. symmetry. by apply Z.mod_small. }
  replace ((port `mod` 256 * 256 + port `div` 256) `div` 256) with (port mod 256).
  2:{ rewrite Z.add_comm, Z.div_add by lia. rewrite Z.div_small by lia. lia. }
  pose proof (Z.div_mod port 256). lia.
Qed.

(** The two bytes of a swapped port are the two bytes of the port, the
    other way round. *)
Lemma le_digits_port_number (port : Z) :
  0 <= port <= 65535 ->
  le_digits 2 (Connection.port_number port) = rev (le_digits 2 port).
Proof.
  intros Hp. rewrite port_number_swap by done. cbn [le_digits rev app].
  assert (0 <= port / 256 < 256)
    by (split; [apply Z.div_pos; lia | apply Z.div_lt_upper_bound; lia]).
  f_equal; [|f_equal]; unfold byte_of_Z; do 3 f_equal.
  - by rewrite Z.add_comm, Z.mod_add.
  - rewrite Z.add_comm, Z.div_add by lia. rewrite (Z.div_small (port / 256)) by lia.
    rewrite Z.add_0_l. by rewrite Z.mod_mod.
Qed.

(** ** The binary codec *)

Section BinaryCodec.
Context `{ByteOrder}.

Lemma encode_port_number (port : Z) :
  0 <= port <= 65535 ->
  encode_uint 2 (Connection.port_number port) = rev (encode_uint 2 port).
Proof.
  intros Hp. unfold encode_uint. rewrite le_digits_port_number by done.
  destruct native; [done | by rewrite rev_involutive].
Qed.

(** C7. A [CONNECT] payload with device id [D] in [0, 2^32) and the port
    [P] in [0, 65535] swapped as [connect] swaps it is packed by the binary
    codec into 8 bytes: the [IH] struct, a u32 and a u16, and two zero
    bytes.  The u16 is the port with its two bytes exchanged: its value is
    [(P mod 256) * 256 + P / 256], and its two bytes in the body are those
    of [P] in the reverse of the host's order, the high byte first on a
    little-endian host.  Unpacking the struct gives [D] back, and the
    swapped port, which the same swap turns into [P] again. *)
Theorem connect_payload_round_trip (σ : state) (l : loc) (D P : Z) :
  0 <= D < 2 ^ 32 ->
  0 <= P <= 65535 ->
  Payload.DeviceID (heap σ l) = Some D ->
  Payload.PortNumber (heap σ l) = Some (Connection.port_number P) ->
  exists body device_id port,
    BinaryProtocol._pack Binary (TYPE_CONNECT Binary) (Structured l) σ = (Ok body, σ) /\
    length body = 8%nat /\
    take 4 body = encode_uint 4 D /\
    take 2 (drop 4 body) = rev (encode_uint 2 P) /\
    (native = LittleEndian ->
       take 2 (drop 4 body) = [byte_of_Z (P / 256); byte_of_Z (P mod 256)]) /\
    drop 6 body = [x00; x00] /\
    struct.unpack Formats.IH (take 6 body) = Ok (device_id, (port, tt)) /\
    device_id = D /\
    port = (P mod 256) * 256 + P / 256 /\
    Connection.port_number port = P.
Proof.
  intros HD HP EDev EPort.
  pose proof (port_number_range P HP) as Hrange.
  exists (encode_uint 4 D ++ encode_uint 2 (Connection.port_number P) ++ [x00; x00]),
    D, (Connection.port_number P).
  assert (Hport : take 2 (drop 4 (encode_uint 4 D ++
                    encode_uint 2 (Connection.port_number P) ++ [x00; x00]))
                  = rev (encode_uint 2 P)).
  { rewrite drop_app_length' by (by rewrite length_encode_uint).
    rewrite take_app_length' by (by rewrite length_encode_uint).
    by apply encode_port_number. }
  split; [|split; [|split; [|split; [|split; [|split; [|split; [|split; [|split]]]]]]]].
  - unfold BinaryProtocol._pack. simpl.
    unfold bind, get, lift, ret. rewrite EDev, EPort. simpl.
    rewrite pack_IH by lia. by rewrite <- app_assoc.
  - by rewrite !length_app, !length_encode_uint.
  - by rewrite take_app_length' by (by rewrite length_encode_uint).
  - done.
  - intros Hle. rewrite Hport. unfold encode_uint. rewrite Hle.
    cbn [le_digits rev app]. unfold byte_of_Z. by rewrite Z.mod_mod.
  - rewrite app_assoc. rewrite drop_app_length'; [done|].
    by rewrite length_app, !length_encode_uint.
  - rewrite app_assoc. rewrite take_app_length'.
    2:{ by rewrite length_app, !length_encode_uint. }
    rewrite unpack_IH by apply length_encode_uint.
    rewrite !decode_encode_uint; [done | |].
    + change (256 ^ Z.of_nat 2) with 65536. lia.
    + change (256 ^ Z.of_nat 4) with (2 ^ 32). lia.
  - done.
  - by apply port_number_swap.
  - by apply port_number_involutive.
Qed.

(** [_unpack] raises the generic error, a [struct.error] or a
    [TypeError], never the version error. *)
Lemma unpack_not_version_error (response : Z) (payload : Types_Payload Payload.t)
    (m : Messages) :
  BinaryProtocol._unpack response payload <> Raise (MuxVersionError m).
Proof.
  unfold BinaryProtocol._unpack. destruct payload as [p|b]; [done|].
  repeat case_decide; try done.
  - unfold struct.unpack. by case_decide.
  - unfold struct.unpack. by case_decide.
  - unfold struct.unpack. by case_decide.
Qed.

Lemma unpack_RESULT (body : bytes) :
  length body = 4%nat ->
  BinaryProtocol._unpack 1 (RawBytes body)
  = Ok (Payload.mk "qt4i-usbmuxd" "tcprelay" None (Some (decode_uint body))
          None None None None None).
Proof.
  intros Hb. unfold BinaryProtocol._unpack. simpl. by rewrite unpack_I.
Qed.

Lemma unpack_DEVICE_REMOVE (body : bytes) :
  length body = 4%nat ->
  BinaryProtocol._unpack 5 (RawBytes body)
  = Ok (Payload.mk "qt4i-usbmuxd" "tcprelay" None None (Some (decode_uint body))
          None None None None).
Proof.
  intros Hb. unfold BinaryProtocol._unpack. simpl. by rewrite unpack_I.
Qed.

Lemma unpack_other (response : Z) (body : bytes) :
  response <> 1 -> response <> 4 -> response <> 5 ->
  BinaryProtocol._unpack response (RawBytes body)
  = Raise (MuxError (INVALID_INCOMING_RESPONSE_TYPE (RInt response))).
Proof.
  intros H1 H4 H5. unfold BinaryProtocol._unpack. simpl.
  repeat case_decide; congruence.
Qed.

(** A [DEVICE_ADD] body of the right size, 268 bytes, gets as far as
    [serial_number.split("\0")]: a [bytes] object split on a [str]. *)
Lemma unpack_DEVICE_ADD_268 (body : bytes) :
  length body = 268%nat ->
  BinaryProtocol._unpack 4 (RawBytes body) = Raise TypeError.
Proof.
  intros Hb. unfold BinaryProtocol._unpack. simpl.
  unfold struct.unpack. rewrite decide_True by done. reflexivity.
Qed.

(** So the binary codec decodes no [DEVICE_ADD] body, whatever its length. *)
Lemma unpack_DEVICE_ADD_raises (body : bytes) :
  BinaryProtocol._unpack 4 (RawBytes body)
  = Raise (if decide (length body = 268%nat) then TypeError else struct_error).
Proof.
  case_decide as Hb; [by apply unpack_DEVICE_ADD_268|].
  unfold BinaryProtocol._unpack. simpl. by rewrite unpack_wrong_size.
Qed.

(** C2. The decode of a [DEVICE_ADD] body exposes no serial number,
    truncated or not: it raises on every body.  The body is unpacked with
    the format [IH256sHI], 268 bytes (4 + 2 + 256 + 2 + 4).  A body of 268
    bytes is unpacked, its serial field is the 256 bytes from offset 6, and
    the truncation at the first NUL byte is then attempted as
    [serial_number.split("\0")], a [bytes] object split on a [str]: that
    raises [TypeError], whatever the serial field holds.  A body of any
    other length, the 270-byte body among them, is refused by [unpack] with
    [struct.error] before the serial field is looked at. *)
Theorem device_add_serial_never_exposed (body : bytes) :
  struct.calcsize Formats.IH256sHI = 268%nat /\
  (length body = 268%nat ->
     (exists device_id product_id padding location,
        struct.unpack Formats.IH256sHI body
        = Ok (device_id, (product_id, (take 256 (drop 6 body),
               (padding, (location, tt)))))) /\
     bytes_split (take 256 (drop 6 body)) (Str (String "000"%char EmptyString))
     = Raise TypeError /\
     BinaryProtocol._unpack 4 (RawBytes body) = Raise TypeError) /\
  (length body <> 268%nat ->
     BinaryProtocol._unpack 4 (RawBytes body) = Raise struct_error) /\
  (forall payload, BinaryProtocol._unpack 4 (RawBytes body) <> Ok payload).
Proof.
  split; [reflexivity|]. split; [|split].
  - intros Hb. split; [|split; [reflexivity|]].
    + unfold struct.unpack. rewrite decide_True by done.
      cbn [struct.unpack_from Formats.IH256sHI]. eauto.
    + unfold BinaryProtocol._unpack. simpl.
      unfold struct.unpack. by rewrite decide_True.
  - intros Hb. unfold BinaryProtocol._unpack. simpl.
    by rewrite unpack_wrong_size.
  - intros payload. unfold BinaryProtocol._unpack. simpl.
    unfold struct.unpack. by case_decide.
Qed.
End BinaryCodec.

Section BinaryReceive.
Context `{ByteOrder}.

(** C5 (as amended). For a binary packet that arrives whole, the receive
    path of the binary codec raises the version error exactly when the
    version field of the header differs from the codec's [VERSION]; the
    version error is an instance of the generic error that can be told
    apart from it.  When the versions match, the body goes to the decoder
    of the opcode: a [RESULT] or [DEVICE_REMOVE] packet with a 4-byte body
    is returned decoded, and a packet whose opcode is none of [RESULT],
    [DEVICE_ADD], [DEVICE_REMOVE] fails with the generic
    invalid-incoming-response-type error. *)
Theorem binary_get_packet_version (σ : state) (version response tag : Z)
    (body : bytes) :
  connected σ = false ->
  u32 (PADDING_LENGTH + len body) -> u32 version -> u32 response -> u32 tag ->
  arrives (frame version response tag body) σ ->
  let r := fst (BinaryProtocol.get_packet Binary σ) in
  ((exists m, r = Raise (MuxVersionError m)) <-> version <> VERSION Binary) /\
  (version <> VERSION Binary ->
     r = Raise (MuxVersionError (INVALID_VERSION (VERSION Binary) version))) /\
  (forall m, isinstance_MuxError (MuxVersionError m) = true /\
             isinstance_MuxVersionError (MuxVersionError m) = true /\
             isinstance_MuxVersionError (MuxError m) = false) /\
  (version = VERSION Binary ->
     (response = 1 -> length body = 4%nat ->
        r = Ok (response, tag,
                Structured (Payload.mk "qt4i-usbmuxd" "tcprelay" None
                              (Some (decode_uint body)) None None None None None))) /\
     (response = 5 -> length body = 4%nat ->
        r = Ok (response, tag,
                Structured (Payload.mk "qt4i-usbmuxd" "tcprelay" None None
                              (Some (decode_uint body)) None None None None))) /\
     (response <> 1 -> response <> 4 -> response <> 5 ->
        r = Raise (MuxError (INVALID_INCOMING_RESPONSE_TYPE (RInt response))))).
Proof.
  intros Hc Hl Hv Hr Ht [Hne [rest Hcat]] r.
  destruct (get_packet_frame Binary σ version response tag body rest)
    as (i & _ & _ & E); try done.
  subst r. rewrite E. clear E. cbn [fst].
  split; [|split; [|split]].
  - split.
    + intros [m Hm]. case_decide; [|done].
      unfold BinaryProtocol.dispatch_unpack, result_bind in Hm.
      destruct (BinaryProtocol._unpack response (RawBytes body)) as [p|e] eqn:Eu;
        [done|].
      injection Hm as ->. by apply unpack_not_version_error in Eu.
    + intros Hn. rewrite decide_False by done. eauto.
  - intros Hn. by rewrite decide_False.
  - done.
  - intros Hver. rewrite decide_True by done.
    unfold BinaryProtocol.dispatch_unpack, result_bind.
    split; [|split].
    + intros -> Hb. by rewrite unpack_RESULT.
    + intros -> Hb. by rewrite unpack_DEVICE_REMOVE.
    + intros H1 H4 H5. by rewrite unpack_other.
Qed.
End BinaryReceive.

(** C5, witness: a [RESULT] packet with tag 3 and number 0, delivered in
    two chunks. *)
Lemma binary_get_packet_version_witness :
  fst (BinaryProtocol.get_packet (H := little_endian) Binary
         (Connection.__init__
            (socket_with [take 5 (frame (H := little_endian) 0 1 3 [x00; x00; x00; x00]);
                          drop 5 (frame (H := little_endian) 0 1 3 [x00; x00; x00; x00])]
               [])))
  = Ok (1, 3, Structured (Payload.mk "qt4i-usbmuxd" "tcprelay" None (Some 0)
                            None None None None None)).
Proof.
  refine (proj1 (proj2 (proj2 (proj2
    (binary_get_packet_version (H := little_endian)
       (Connection.__init__
          (socket_with [take 5 (frame (H := little_endian) 0 1 3 [x00; x00; x00; x00]);
                        drop 5 (frame (H := little_endian) 0 1 3 [x00; x00; x00; x00])]
             []))
       0 1 3 [x00; x00; x00; x00] _ _ _ _ _ _))) _) _ _);
    try reflexivity; try (unfold u32; vm_compute; split; congruence).
  split; [repeat constructor; discriminate | by exists []].
Defined.

(** C5, counterexample: the versions match and the packet is not returned;
    its opcode is [CONNECT]. *)
Lemma binary_get_packet_version_counterexample :
  connected (Connection.__init__ (socket_with [connect_frame] [])) = false /\
  connect_frame = frame (H := little_endian) (VERSION Binary) 2 1 [] /\
  ~ (exists packet,
       fst (BinaryProtocol.get_packet (H := little_endian) Binary
              (Connection.__init__ (socket_with [connect_frame] [])))
       = Ok packet).
Proof.
  split; [reflexivity|]. split; [reflexivity|].
  intros [packet Hp]. vm_compute in Hp. discriminate.
Qed.

(** C2, on the two failing inputs, whose serial field is "ABC123"
    followed by NUL bytes: the body of 268 bytes raises [TypeError] at the
    split, the body of 270 bytes raises [struct.error] at the unpacking. *)
Lemma device_add_serial_never_exposed_witness :
  (length device_add_body_268 = 268%nat /\
   take 256 (drop 6 device_add_body_268) = serial_field /\
   BinaryProtocol._unpack (H := little_endian) 4 (RawBytes device_add_body_268)
   = Raise TypeError) /\
  (length device_add_body_270 = 270%nat /\
   take 256 (drop 6 device_add_body_270) = serial_field /\
   BinaryProtocol._unpack (H := little_endian) 4 (RawBytes device_add_body_270)
   = Raise struct_error).
Proof.
  split; (split; [reflexivity|]; split; [reflexivity|]).
  - apply (device_add_serial_never_exposed (H := little_endian) device_add_body_268).
    reflexivity.
  - apply (device_add_serial_never_exposed (H := little_endian) device_add_body_270).
    vm_compute. lia.
Defined.

(** C2, what the split was written for: on the separator that is a
    [bytes] object, [b"\0"], the first part of the serial field is
    "ABC123". *)
Example serial_field_split_on_bytes :
  bytes_split serial_field (Bytes [x00])
  = Ok ([x41; x42; x43; x31; x32; x33] :: replicate 250 []) /\
  str_of_bytes [x41; x42; x43; x31; x32; x33] = "ABC123".
Proof. split; vm_compute; reflexivity. Qed.

(** ** Records and their dictionaries *)

Lemma Properties_init_asdict (q : Properties.t) :
  Properties_init (plist.Dict (Properties_asdict q)) = Ok q.
Proof.
  destruct q as [[?|] [?|] [?|] [?|] [?|] [?|]]; vm_compute; reflexivity.
Qed.

Lemma Properties_init_empty : Properties_init (plist.Dict ∅) = Ok Properties.empty.
Proof. vm_compute. reflexivity. Qed.

Lemma remove_none_Properties (p : Payload.t) :
  PlistProtocol.remove_none (asdict p) !! "Properties"
  = match Payload.Properties p with
    | None => None
    | Some q => Some (plist.Dict (Properties_asdict q))
    end.
Proof.
  unfold PlistProtocol.remove_none. rewrite map_lookup_filter.
  replace (asdict p !! "Properties")
    with (Some match Payload.Properties p with
               | None => plist.Scalar plist.VNone
               | Some q => plist.Dict (Properties_asdict q)
               end) by reflexivity.
  by destruct (Payload.Properties p).
Qed.

Lemma Payload_init_asdict (p : Payload.t) (properties : Properties.t) :
  Payload_init (delete "Properties" (PlistProtocol.remove_none (asdict p))) properties
  = Ok (Payload.mk (Payload.ClientVersionString p) (Payload.ProgName p)
          (Payload.MessageType p) (Payload.Number p) (Payload.DeviceID p)
          (Payload.PortNumber p) (Some properties) (Payload.PairRecordID p)
          (Payload.PairRecordData p)).
Proof.
  destruct p as [cvs pn [?|] [?|] [?|] [?|] q [?|] [?|]];
    destruct q as [q|]; vm_compute; reflexivity.
Qed.

(** ** The plist codec on the wire *)

Section PlistCodec.
Context `{ByteOrder} `{Plistlib}.

Lemma plist_send_packet_ok (request : RequestType) (s : string) (tag : Z)
    (l : loc) (σ : state) (body : bytes) (w' : list nat) :
  PlistProtocol.__request_type request = Ok s ->
  connected σ = false ->
  dumps (PlistProtocol.remove_none
           (asdict (Payload.set_MessageType (Some s) (heap σ l)))) = Ok body ->
  u32 tag ->
  u32 (PADDING_LENGTH + len body) ->
  window_after (window (sock σ))
    (length (frame (VERSION Plist) TYPE_PLIST tag body)) = Some w' ->
  PlistProtocol.send_packet request tag l σ
  = (Ok tt, with_sent (frame (VERSION Plist) TYPE_PLIST tag body) w' (stamped s l σ)).
Proof.
  intros Hreq Hc Hd Ht Hl Hw.
  unfold PlistProtocol.send_packet, bind, lift, modify, get.
  rewrite Hreq. cbn [heap set_heap]. rewrite decide_True by done. rewrite Hd.
  unfold BinaryProtocol.send_packet, BinaryProtocol.__is_connected, bind, get, lift.
  cbn [connected set_heap]. rewrite Hc. unfold ret at 1.
  cbn [BinaryProtocol._pack]. unfold ret at 1. cbn [arg_of_request].
  assert (Hu : forall n, 0 <= n < 16 -> u32 n) by (unfold u32; lia).
  rewrite pack_IIII;
    [|done|apply Hu; simpl; lia|apply Hu; unfold TYPE_PLIST; lia|done].
  rewrite <- !app_assoc.
  by rewrite (send_ok _ _ w').
Qed.

(** A [Properties] record with an absent field is not sent: [remove_none]
    looks at the top level only, the [None] stays in the nested dictionary
    and [plistlib.dumps] refuses it. *)
Lemma plist_send_packet_nested_None (request : RequestType) (tag : Z) (l : loc)
    (σ : state) (q : Properties.t) (k : string) :
  Payload.Properties (heap σ l) = Some q ->
  Properties_asdict q !! k = Some plist.VNone ->
  fst (PlistProtocol.send_packet request tag l σ) <> Ok tt.
Proof.
  intros Hq Hk.
  unfold PlistProtocol.send_packet, bind, lift, modify, get.
  destruct (PlistProtocol.__request_type request) as [s|e]; [|done].
  cbn [heap set_heap]. rewrite decide_True by done.
  destruct (dumps _) as [body|e] eqn:Hd; [|done].
  apply dumps_None in Hd.
  pose proof (remove_none_Properties
                (Payload.set_MessageType (Some s) (heap σ l))) as Hp.
  cbn [Payload.Properties Payload.set_MessageType] in Hp. rewrite Hq in Hp.
  apply (map_Forall_lookup_1 _ _ _ _ Hd) in Hp. cbn in Hp.
  by apply (map_Forall_lookup_1 _ _ _ _ Hp) in Hk.
Qed.

Lemma plist_get_packet_frame (σ : state) (tag : Z) (body rest : bytes)
    (d : gmap string plist.value) :
  connected σ = false ->
  u32 (PADDING_LENGTH + len body) -> u32 tag ->
  Forall (fun c => c <> []) (inbox (sock σ)) ->
  concat (inbox (sock σ)) = frame (VERSION Plist) TYPE_PLIST tag body ++ rest ->
  loads body = Ok d ->
  exists i,
    concat i = rest /\ Forall (fun c => c <> []) i /\
    PlistProtocol.get_packet σ =
      (let* properties :=
         Properties_init match d !! "Properties" with
                         | Some v => v
                         | None => plist.Dict ∅
                         end in
       let* payload := Payload_init (delete "Properties" d) properties in
       Ok (PlistProtocol.or_empty (Payload.MessageType payload), tag, payload),
       with_inbox i σ).
Proof.
  intros Hc Hl Ht Hne Hcat Hd.
  assert (Hu : forall n, 0 <= n < 16 -> u32 n) by (unfold u32; lia).
  destruct (get_packet_frame Plist σ (VERSION Plist) TYPE_PLIST tag body rest
              Hc Hl (Hu (VERSION Plist) ltac:(simpl; lia)) (Hu TYPE_PLIST ltac:(unfold TYPE_PLIST; lia)) Ht Hne Hcat)
    as (i & Hi & Hni & E).
  exists i. split; [done|]. split; [done|].
  unfold PlistProtocol.get_packet, bind. rewrite E.
  rewrite decide_True by done. cbn [BinaryProtocol.dispatch_unpack].
  rewrite decide_False by (intros Hn; by apply Hn).
  unfold lift. rewrite Hd.
  destruct (Properties_init _) as [properties|e]; [|done]. cbn [result_bind].
  by destruct (Payload_init _ properties).
Qed.
End PlistCodec.

Lemma Payload_init_Properties (d : gmap string plist.value) (q : Properties.t)
    (p : Payload.t) :
  Payload_init d q = Ok p -> Payload.Properties p = Some q.
Proof.
  unfold Payload_init. case_decide; [|done].
  repeat match goal with
         | |- context [result_bind ?r _] => destruct r; simpl; try done
         end.
  by intros [= <-].
Qed.

Section PlistClaims.
Context `{ByteOrder} `{Plistlib}.

(** [BinaryProtocol.get_packet] called on a [PlistProtocol] returns the
    body as bytes: the branch of [PlistProtocol.get_packet] for a payload
    that is structured already is never taken. *)
Lemma binary_get_packet_plist_raw (σ σ' : state) (response tag : Z)
    (payload : Types_Payload Payload.t) :
  BinaryProtocol.get_packet Plist σ = (Ok (response, tag, payload), σ') ->
  exists b, payload = RawBytes b.
Proof.
  unfold BinaryProtocol.get_packet, bind, lift.
  destruct (BinaryProtocol.__is_connected σ) as [[[]|?] ?]; [|done].
  destruct (SafeStreamSocket.receive _ _) as [[?|?] ?]; [|done].
  destruct (struct.unpack Formats.I _) as [?|?]; [|done].
  destruct (SafeStreamSocket.receive _ _) as [[?|?] ?]; [|done].
  destruct (struct.unpack Formats.III _) as [(v & r & t & [])|?]; [|done].
  case_decide; [|done]. simpl. intros [= <- <- <- <-]. eauto.
Qed.

Lemma plist_get_packet_Properties (σ σ' : state) (response : string) (tag : Z)
    (p : Payload.t) :
  PlistProtocol.get_packet σ = (Ok (response, tag, p), σ') ->
  exists q, Payload.Properties p = Some q.
Proof.
  unfold PlistProtocol.get_packet, bind, lift.
  destruct (BinaryProtocol.get_packet Plist σ) as [[[[r t] payload]|?] σ1] eqn:E;
    [|done].
  apply binary_get_packet_plist_raw in E as [b ->].
  case_decide; [done|].
  destruct (loads b) as [d|?]; [|done].
  destruct (Properties_init _) as [q|?]; [|done].
  destruct (Payload_init _ q) as [p'|?] eqn:Ep; [|done].
  intros [= <- <- <- <-]. exists q. by apply Payload_init_Properties in Ep.
Qed.

(** C9. A payload that the receive path of the plist codec returns has a
    [Properties] record in its [Properties] field, never [None]; it is the
    empty record when the record on the wire has no [Properties] key.  So
    when the poll step reads a [DEVICE_ADD] packet through the plist codec,
    the test for a [Properties] record succeeds and the device is made
    from its product id, serial number and location. *)
Theorem plist_payload_has_properties (σ : state) :
  (forall response tag data σ',
     get_packet Plist σ = (Ok (response, tag, data), σ') ->
     exists p q, data = Structured p /\ Payload.Properties p = Some q) /\
  (forall tag body d response tag' data σ',
     connected σ = false ->
     u32 (PADDING_LENGTH + len body) -> u32 tag ->
     arrives (frame (VERSION Plist) TYPE_PLIST tag body) σ ->
     loads body = Ok d ->
     d !! "Properties" = None ->
     get_packet Plist σ = (Ok (response, tag', data), σ') ->
     exists p, data = Structured p /\
               Payload.Properties p = Some Properties.empty) /\
  (forall tag data σ1,
     get_packet Plist σ = (Ok (TYPE_DEVICE_ADD Plist, tag, data), σ1) ->
     exists p q,
       data = Structured p /\ Payload.Properties p = Some q /\
       Connection._process_packet Plist σ
       = (Ok tt,
          set_devices
            (devices σ1 ++
             [{| ident := next_ident σ1;
                 device_id := Payload.DeviceID p;
                 usb_product_id := Properties.ProductID q;
                 serial := Properties.SerialNumber q;
                 location := Properties.LocationID q |}])
            (set_next_ident (S (next_ident σ1)) σ1))).
Proof.
  assert (Hinv : forall response tag data σ',
    get_packet Plist σ = (Ok (response, tag, data), σ') ->
    exists s p q, response = RStr s /\ data = Structured p /\
                  Payload.Properties p = Some q /\
                  PlistProtocol.get_packet σ = (Ok (s, tag, p), σ')).
  { intros response tag data σ'. simpl. unfold bind.
    destruct (PlistProtocol.get_packet σ) as [[[[s t] p]|?] σ1] eqn:E; [|done].
    intros [= <- <- <- <-].
    destruct (plist_get_packet_Properties _ _ _ _ _ E) as [q Hq].
    by exists s, p, q. }
  split; [|split].
  - intros response tag data σ' E.
    destruct (Hinv _ _ _ _ E) as (s & p & q & _ & -> & Hq & _). eauto.
  - intros tag body d response tag' data σ' Hc Hl Ht [Hne [rest Hcat]] Hd Hno E.
    destruct (Hinv _ _ _ _ E) as (s & p & q & _ & -> & Hq & E').
    exists p. split; [done|].
    destruct (plist_get_packet_frame σ tag body rest d Hc Hl Ht Hne Hcat Hd)
      as (i & _ & _ & E2).
    rewrite E2, Hno, Properties_init_empty in E'. cbn [result_bind] in E'.
    destruct (Payload_init _ Properties.empty) as [p'|?] eqn:Ep; [|done].
    injection E' as _ _ <- _. by apply Payload_init_Properties in Ep.
  - intros tag data σ1 E.
    destruct (Hinv _ _ _ _ E) as (s & p & q & _ & -> & Hq & _).
    exists p, q. split; [done|]. split; [done|].
    unfold Connection._process_packet, bind. rewrite E.
    rewrite decide_True by done. rewrite Hq. reflexivity.
Qed.

(** C10 (as amended). A call of the send path of the plist codec whose
    request is a string, or one of the integers 2 and 3, changes the
    payload object it is given in place: [MessageType] becomes the string
    form of the request, every other field of the object and every other
    object stay as they are, whether the call then returns or raises.  The
    record that is serialised and sent is the changed one.  For any other
    integer the lookup of the string form raises [KeyError] before the
    payload is touched, and nothing changes. *)
Theorem plist_send_packet_mutates (request : RequestType) (tag : Z) (l : loc)
    (σ : state) :
  (forall s, PlistProtocol.__request_type request = Ok s ->
     let σ' := snd (PlistProtocol.send_packet request tag l σ) in
     Payload.MessageType (heap σ' l) = Some s /\
     Payload.ClientVersionString (heap σ' l) = Payload.ClientVersionString (heap σ l) /\
     Payload.ProgName (heap σ' l) = Payload.ProgName (heap σ l) /\
     Payload.Number (heap σ' l) = Payload.Number (heap σ l) /\
     Payload.DeviceID (heap σ' l) = Payload.DeviceID (heap σ l) /\
     Payload.PortNumber (heap σ' l) = Payload.PortNumber (heap σ l) /\
     Payload.Properties (heap σ' l) = Payload.Properties (heap σ l) /\
     Payload.PairRecordID (heap σ' l) = Payload.PairRecordID (heap σ l) /\
     Payload.PairRecordData (heap σ' l) = Payload.PairRecordData (heap σ l) /\
     (forall l', l' <> l -> heap σ' l' = heap σ l') /\
     (forall body w',
        connected σ = false ->
        dumps (PlistProtocol.remove_none (asdict (heap σ' l))) = Ok body ->
        u32 tag -> u32 (PADDING_LENGTH + len body) ->
        window_after (window (sock σ))
          (length (frame (VERSION Plist) TYPE_PLIST tag body)) = Some w' ->
        fst (PlistProtocol.send_packet request tag l σ) = Ok tt /\
        outbox (sock σ')
        = outbox (sock σ) ++ frame (VERSION Plist) TYPE_PLIST tag body)) /\
  (forall s, request = RStr s -> PlistProtocol.__request_type request = Ok s) /\
  (request = RInt 2 -> PlistProtocol.__request_type request = Ok "Connect") /\
  (request = RInt 3 -> PlistProtocol.__request_type request = Ok "Listen") /\
  (forall n, request = RInt n -> n <> 2 -> n <> 3 ->
     PlistProtocol.send_packet request tag l σ = (Raise (KeyError request), σ)).
Proof.
  split; [|split; [|split; [|split]]].
  - intros s Hs σ'.
    pose proof (plist_send_packet_state request tag l σ) as Hst.
    rewrite Hs in Hst. destruct Hst as [sk Hsk]. subst σ'. rewrite Hsk.
    assert (Hl : heap (set_sock sk (stamped s l σ)) l
                 = Payload.set_MessageType (Some s) (heap σ l)).
    { simpl. by rewrite decide_True. }
    rewrite Hl. repeat (split; [reflexivity|]). split.
    + intros l' Hne. simpl. by rewrite decide_False.
    + intros body w' Hc Hd Ht Hlen Hw.
      rewrite (plist_send_packet_ok request s tag l σ body w') in Hsk |- *;
        try done.
      split; [done|]. by rewrite <- Hsk.
  - by intros s ->.
  - by intros ->.
  - by intros ->.
  - intros n -> H2 H3.
    pose proof (plist_send_packet_state (RInt n) tag l σ) as Hst.
    simpl in Hst. by rewrite !decide_False in Hst.
Qed.

(** C3 (as amended). A payload record with a subset of its optional
    fields, sent through the send path of the plist codec with a request
    that has a string form, and read back by the receive path, comes back
    with every field other than [MessageType] and [Properties] as it was,
    absent when absent and equal when present; [MessageType] is the string
    form of the request; a [Properties] record comes back equal, and an
    absent [Properties] comes back as the empty [Properties] record, not
    as [None].  This is for a record that [plistlib] serialises to a body
    that it reads back as the dictionary it was given. *)
Theorem plist_round_trip (σ ρ : state) (request : RequestType) (s : string)
    (tag : Z) (l : loc) (body : bytes) (w' : list nat) :
  PlistProtocol.__request_type request = Ok s ->
  connected σ = false ->
  u32 tag ->
  dumps (PlistProtocol.remove_none
           (asdict (Payload.set_MessageType (Some s) (heap σ l)))) = Ok body ->
  loads body = Ok (PlistProtocol.remove_none
                     (asdict (Payload.set_MessageType (Some s) (heap σ l)))) ->
  u32 (PADDING_LENGTH + len body) ->
  window_after (window (sock σ))
    (length (frame (VERSION Plist) TYPE_PLIST tag body)) = Some w' ->
  connected ρ = false ->
  arrives (frame (VERSION Plist) TYPE_PLIST tag body) ρ ->
  exists σ' ρ',
    PlistProtocol.send_packet request tag l σ = (Ok tt, σ') /\
    outbox (sock σ') = outbox (sock σ) ++ frame (VERSION Plist) TYPE_PLIST tag body /\
    PlistProtocol.get_packet ρ
    = (Ok (s, tag,
           Payload.mk
             (Payload.ClientVersionString (heap σ l))
             (Payload.ProgName (heap σ l))
             (Some s)
             (Payload.Number (heap σ l))
             (Payload.DeviceID (heap σ l))
             (Payload.PortNumber (heap σ l))
             (Some match Payload.Properties (heap σ l) with
                   | Some q => q
                   | None => Properties.empty
                   end)
             (Payload.PairRecordID (heap σ l))
             (Payload.PairRecordData (heap σ l))),
       ρ').
Proof.
  intros Hreq Hc Ht Hd Hback Hl Hw Hc' [Hne [rest Hcat]].
  destruct (plist_get_packet_frame ρ tag body rest _ Hc' Hl Ht Hne Hcat Hback)
    as (i & _ & _ & E).
  eexists _, _. split; [by apply plist_send_packet_ok|]. split; [done|].
  rewrite E. rewrite remove_none_Properties. f_equal.
  set (p := heap σ l).
  assert (Hprops :
    Properties_init match Payload.Properties (Payload.set_MessageType (Some s) p) with
                    | Some q => plist.Dict (Properties_asdict q)
                    | None => plist.Dict ∅
                    end
    = Ok match Payload.Properties p with Some q => q | None => Properties.empty end).
  { simpl. destruct (Payload.Properties p) as [q|].
    - apply Properties_init_asdict.
    - apply Properties_init_empty. }
  replace (match
              match Payload.Properties (Payload.set_MessageType (Some s) p) with
              | Some q => Some (plist.Dict (Properties_asdict q))
              | None => None
              end
            with
            | Some v => v
            | None => plist.Dict ∅
            end)
    with (match Payload.Properties (Payload.set_MessageType (Some s) p) with
          | Some q => plist.Dict (Properties_asdict q)
          | None => plist.Dict ∅
          end) by (by destruct (Payload.Properties _)).
  rewrite Hprops. cbn [result_bind]. by rewrite Payload_init_asdict.
Qed.
End PlistClaims.

(** ** The connection *)

Lemma Device_eqb_refl (d : Device) : Device_eqb d d = true.
Proof. apply Nat.eqb_refl. Qed.

Lemma list_remove_lookup (l : list Device) (i : nat) (d : Device) :
  l !! i = Some d -> exists l', list_remove d l = Ok l'.
Proof.
  revert i. induction l as [|y l IH]; intros i Hi; [done|]. simpl.
  destruct (Device_eqb y d) eqn:E; [eauto|].
  destruct i as [|i]; simpl in Hi.
  - injection Hi as ->. by rewrite Device_eqb_refl in E.
  - destruct (IH i Hi) as [l' ->]. simpl. eauto.
Qed.

(** The comprehension never raises: what it removes is in the list. *)
Lemma remove_matching_total (fuel i : nat) (DeviceID : option Z) (l : list Device) :
  exists l', remove_matching fuel i DeviceID l = Ok l'.
Proof.
  revert i l. induction fuel as [|fuel IH]; intros i l; simpl; [eauto|].
  destruct (l !! i) as [device|] eqn:Hi; [|eauto].
  case_decide; [|apply IH].
  destruct (list_remove_lookup l i device Hi) as [l' ->]. simpl. apply IH.
Qed.

(** With no device of that id in the registry it removes nothing. *)
Lemma remove_matching_absent (fuel i : nat) (DeviceID : option Z) (l : list Device) :
  Forall (fun d => device_id d <> DeviceID) l ->
  remove_matching fuel i DeviceID l = Ok l.
Proof.
  intros Hall. revert i. induction fuel as [|fuel IH]; intros i; simpl; [done|].
  destruct (l !! i) as [device|] eqn:Hi; [|done].
  case_decide as Hd; [|apply IH].
  rewrite Forall_lookup in Hall. by destruct (Hall i device Hi).
Qed.

(** Two neighbours with the same id: the iterator steps over the second
    one, which has moved into the place of the first. *)
Example remove_matching_skips_neighbour :
  remove_matching 3 0 (Some 7)
    [ {| ident := 0; device_id := Some 7; usb_product_id := None;
         serial := None; location := None |};
      {| ident := 1; device_id := Some 7; usb_product_id := None;
         serial := None; location := None |} ]
  = Ok [ {| ident := 1; device_id := Some 7; usb_product_id := None;
            serial := None; location := None |} ].
Proof. reflexivity. Qed.

(** The counter of the comprehension is enough as well. *)
Lemma list_remove_length (x : Device) (l l' : list Device) :
  list_remove x l = Ok l' -> length l = S (length l').
Proof.
  revert l'. induction l as [|y l IH]; intros l'; simpl; [done|].
  destruct (Device_eqb y x); [by intros [= <-]|].
  destruct (list_remove x l) as [r|e]; simpl; [|done].
  intros [= <-]. simpl. f_equal. by apply IH.
Qed.

Lemma remove_matching_fuel (fuel i : nat) (DeviceID : option Z) (l : list Device) :
  (length l < i + S fuel)%nat ->
  remove_matching (S fuel) i DeviceID l = remove_matching fuel i DeviceID l.
Proof.
  revert i l. induction fuel as [|fuel IH]; intros i l Hfuel.
  - simpl. rewrite lookup_ge_None_2 by lia. done.
  - change (remove_matching (S (S fuel)) i DeviceID l)
      with (match l !! i with
            | None => Ok l
            | Some device =>
                if decide (device_id device = DeviceID) then
                  let* l' := list_remove device l in
                  remove_matching (S fuel) (S i) DeviceID l'
                else remove_matching (S fuel) (S i) DeviceID l
            end).
    change (remove_matching (S fuel) i DeviceID l)
      with (match l !! i with
            | None => Ok l
            | Some device =>
                if decide (device_id device = DeviceID) then
                  let* l' := list_remove device l in
                  remove_matching fuel (S i) DeviceID l'
                else remove_matching fuel (S i) DeviceID l
            end).
    destruct (l !! i) as [device|] eqn:Hi; [|done].
    destruct (decide (device_id device = DeviceID)) as [_|_]; [|apply IH; lia].
    destruct (list_remove device l) as [l'|err] eqn:Hr; [|done]. simpl.
    apply list_remove_length in Hr. apply IH. lia.
Qed.

(** ** What the removal removes

    When the devices of the registry are different objects and no two
    neighbours have the id that is removed, the comprehension removes
    exactly the devices with that id.  (On two neighbours with the id, see
    [remove_matching_skips_neighbour].) *)

Lemma list_remove_at (l : list Device) (i : nat) (d : Device) :
  l !! i = Some d ->
  (forall j a, l !! j = Some a -> ident a = ident d -> j = i) ->
  list_remove d l = Ok (delete i l).
Proof.
  revert i. induction l as [|y l IH]; intros i Hi Huniq; [done|]. simpl.
  destruct (Device_eqb y d) eqn:E.
  - apply Nat.eqb_eq in E. by rewrite <- (Huniq O y eq_refl E).
  - destruct i as [|i].
    + injection Hi as ->. by rewrite Device_eqb_refl in E.
    + rewrite (IH i); [done | done |].
      intros j a Hj Ha. specialize (Huniq (S j) a Hj Ha). lia.
Qed.

Lemma remove_matching_filter_from (fuel i : nat) (DeviceID : option Z)
    (l : list Device) :
  (forall j k a b, l !! j = Some a -> l !! k = Some b -> ident a = ident b -> j = k) ->
  (forall j a b, (i <= j)%nat -> l !! j = Some a -> l !! S j = Some b ->
                 device_id a = DeviceID -> device_id b <> DeviceID) ->
  (length l < i + fuel)%nat ->
  remove_matching fuel i DeviceID l
  = Ok (take i l ++ filter (fun d => device_id d <> DeviceID) (drop i l)).
Proof.
  revert i l. induction fuel as [|fuel IH]; intros i l Huniq Hnb Hfuel.
  - simpl. by rewrite drop_ge, take_ge, app_nil_r by lia.
  - simpl. destruct (l !! i) as [d|] eqn:Hi.
    2:{ apply lookup_ge_None in Hi. by rewrite drop_ge, take_ge, app_nil_r by lia. }
    rewrite (drop_S l d i Hi).
    destruct (decide (device_id d = DeviceID)) as [Hd|Hd].
    + rewrite (list_remove_at l i d Hi) by (intros j a Hj Ha; by eapply Huniq).
      simpl. rewrite filter_cons_False by (intros Hn; by apply Hn).
      assert (Hlook : forall j, (i <= j)%nat -> delete i l !! j = l !! S j).
      { intros j Hj. by rewrite list_lookup_delete_ge. }
      assert (Hlow : forall j, (j < i)%nat -> delete i l !! j = l !! j).
      { intros j Hj. by rewrite list_lookup_delete_lt. }
      rewrite IH.
      * rewrite delete_take_drop.
        destruct (drop (S i) l) as [|b rest] eqn:Hrest.
        -- rewrite app_nil_r.
           rewrite take_ge, drop_ge by (rewrite length_take; lia).
           by rewrite app_nil_r.
        -- assert (Hb : l !! S i = Some b).
           { rewrite <- (Nat.add_0_r (S i)), <- lookup_drop, Hrest. done. }
           assert (Hlen : length (take i l) = i).
           { rewrite length_take. apply lookup_lt_Some in Hi. lia. }
           rewrite take_app_ge by lia. rewrite Hlen.
           replace (S i - i)%nat with 1%nat by lia.
           rewrite drop_app_ge by lia. rewrite Hlen.
           replace (S i - i)%nat with 1%nat by lia. simpl.
           rewrite filter_cons_True by (by eapply (Hnb i d b)).
           by rewrite <- app_assoc.
      * intros j k a b Hj Hk Hab.
        destruct (le_lt_dec i j) as [Hij|Hij];
          [rewrite Hlook in Hj by done | rewrite Hlow in Hj by done];
          (destruct (le_lt_dec i k) as [Hik|Hik];
           [rewrite Hlook in Hk by done | rewrite Hlow in Hk by done]);
          specialize (Huniq _ _ _ _ Hj Hk Hab); lia.
      * intros j a b Hij Hj Hk Ha.
        rewrite Hlook in Hj, Hk by lia. eapply (Hnb (S j)); [lia|done..].
      * rewrite length_delete by eauto. apply lookup_lt_Some in Hi. lia.
    + rewrite filter_cons_True by done.
      rewrite IH; [|done| |lia].
      * rewrite (take_S_r l i d Hi). by rewrite <- app_assoc.
      * intros j a b Hij. apply Hnb. lia.
Qed.

Lemma remove_matching_filter (DeviceID : option Z) (l : list Device) :
  (forall j k a b, l !! j = Some a -> l !! k = Some b -> ident a = ident b -> j = k) ->
  (forall j a b, l !! j = Some a -> l !! S j = Some b ->
                 device_id a = DeviceID -> device_id b <> DeviceID) ->
  remove_matching (S (length l)) 0 DeviceID l
  = Ok (filter (fun d => device_id d <> DeviceID) l).
Proof.
  intros Huniq Hnb.
  rewrite (remove_matching_filter_from _ 0 DeviceID l); [done | done | | lia].
  intros j a b _. apply Hnb.
Qed.

Section ConnectionClaims.
Context `{ByteOrder} `{Plistlib}.

Lemma get_packet_structured (P : Protocol) (σ σ' : state) (response : RequestType)
    (tag : Z) (data : Types_Payload Payload.t) :
  get_packet P σ = (Ok (response, tag, data), σ') -> exists p, data = Structured p.
Proof.
  destruct P; simpl; unfold bind.
  - unfold BinaryProtocol.get_packet, bind, lift.
    destruct (BinaryProtocol.__is_connected σ) as [[[]|?] ?]; [|done].
    destruct (SafeStreamSocket.receive _ _) as [[?|?] ?]; [|done].
    destruct (struct.unpack Formats.I _) as [?|?]; [|done].
    destruct (SafeStreamSocket.receive _ _) as [[?|?] ?]; [|done].
    destruct (struct.unpack Formats.III _) as [(v & r & t & [])|?]; [|done].
    case_decide; [|done]. cbn [BinaryProtocol.dispatch_unpack].
    destruct (BinaryProtocol._unpack r _) as [p|?]; [|done].
    cbn [result_bind]. unfold ret. intros [= <- <- <- <-]. eauto.
  - destruct (PlistProtocol.get_packet σ) as [[[[s t] p]|?] σ1]; [|done].
    intros [= <- <- <- <-]. eauto.
Qed.

Lemma opcodes_distinct (P : Protocol) :
  TYPE_DEVICE_REMOVE P <> TYPE_DEVICE_ADD P /\
  TYPE_DEVICE_REMOVE P <> TYPE_RESULT P.
Proof. by destruct P. Qed.

(** C1. In the listening state, a poll step that reads a [DEVICE_REMOVE]
    packet with a structured payload runs the removal, which leaves a
    registry without a matching device as it is, and then raises the
    invalid-packet-type error: after the removal the method does not
    return, it goes on to the test [response != TYPE_RESULT]. *)
Theorem poll_device_remove_raises (P : Protocol) (σ σ1 : state) (tag : Z)
    (p : Payload.t) :
  connected σ = false ->
  get_packet P σ = (Ok (TYPE_DEVICE_REMOVE P, tag, Structured p), σ1) ->
  exists l,
    remove_matching (S (length (devices σ1))) 0 (Payload.DeviceID p) (devices σ1)
    = Ok l /\
    (Forall (fun d => device_id d <> Payload.DeviceID p) (devices σ1) ->
     l = devices σ1) /\
    Connection.process P {| rlo := true; xlo := false |} σ
    = (Raise (MuxError (INVALID_PACKET_TYPE (TYPE_DEVICE_REMOVE P))),
       set_devices l σ1).
Proof.
  intros Hc E.
  destruct (remove_matching_total (S (length (devices σ1))) 0 (Payload.DeviceID p)
              (devices σ1)) as [l Hl].
  exists l. split; [done|]. split.
  - intros Hall. rewrite remove_matching_absent in Hl by done. congruence.
  - destruct (opcodes_distinct P) as [Hadd Hres].
    unfold Connection.process, bind, get. rewrite Hc. cbn [xlo rlo].
    unfold Connection._process_packet, bind. rewrite E.
    rewrite decide_False by done. rewrite decide_True by done.
    unfold get, lift, modify. rewrite Hl.
    by rewrite decide_True by done.
Qed.
End ConnectionClaims.

Lemma sorted_from (a : Z) (k n : nat) :
  StronglySorted Z.lt (map (fun i => a + Z.of_nat i) (seq k n)).
Proof.
  revert k. induction n as [|n IH]; intros k; simpl; constructor; [apply IH|].
  apply Forall_forall. intros t Ht. apply in_map_iff in Ht as (i & <- & Hi).
  apply in_seq in Hi. lia.
Qed.

Lemma sorted_NoDup (l : list Z) : StronglySorted Z.lt l -> NoDup l.
Proof.
  induction 1 as [|t l Hs IH Hall]; constructor; [|done].
  intros Hin. rewrite Forall_forall in Hall.
  apply list_elem_of_In in Hin. specialize (Hall t Hin). lia.
Qed.

Section TagClaims.
Context `{ByteOrder} `{Plistlib}.

Lemma keeps_tags_get_reply (P : Protocol) : keeps tags (Connection._get_reply P).
Proof.
  apply keeps_bind; [by apply keeps_get_packet|].
  intros [[response tag] data]. case_decide; [apply keeps_ret | apply keeps_raise].
Qed.

Lemma exchange_tags (P : Protocol) (request : RequestType) (l : loc) (σ : state) :
  tags (snd (Connection._exchange P request l σ)) = tags (allocated σ).
Proof.
  unfold Connection._exchange. unfold bind at 1, get, modify. unfold bind at 1.
  fold (allocated σ).
  match goal with |- tags (snd (?m _)) = _ => assert (Hk : keeps tags m) end.
  { apply keeps_bind; [by apply keeps_send_packet|]. intros _.
    apply keeps_bind; [apply keeps_tags_get_reply|]. intros [tag data].
    destruct data; [|apply keeps_raise].
    case_decide; [apply keeps_raise | apply keeps_ret]. }
  apply Hk.
Qed.

Lemma keeps_tags_process_packet (P : Protocol) :
  keeps tags (Connection._process_packet P).
Proof.
  apply keeps_bind; [by apply keeps_get_packet|].
  intros [[response tag] data]. case_decide.
  - destruct data as [p|b]; [|apply keeps_raise].
    destruct (Payload.Properties p);
      (apply keeps_bind; [done|]; intros d; by apply keeps_modify).
  - apply keeps_bind.
    + case_decide; [|apply keeps_ret].
      destruct data as [p|b]; [|apply keeps_raise].
      apply keeps_bind; [apply keeps_get|]. intros σ.
      apply keeps_bind; [apply keeps_lift|]. intros l.
      by apply keeps_modify.
    + intros _. case_decide; apply keeps_raise.
Qed.

Lemma run_tags (P : Protocol) (o : operation) (σ : state) :
  tags (snd (run P o σ)) = if is_exchange o then tags (allocated σ) else tags σ.
Proof.
  destruct o as [request tag payload| |ready| |device port|udid]; simpl.
  - by apply keeps_send_packet.
  - apply keeps_bind; [by apply keeps_get_packet|]. intros _. apply keeps_ret.
  - unfold Connection.process. unfold bind at 1, get.
    destruct (connected σ); [done|]. destruct (xlo ready); [done|].
    destruct (rlo ready); [apply keeps_tags_process_packet | done].
  - unfold Connection.listen, bind.
    pose proof (exchange_tags P (TYPE_LISTEN P) default_payload σ) as E.
    destruct (Connection._exchange _ _ _ σ) as [[[n|]|e] σ1]; simpl in *; try done.
    by destruct (negb (n =? 0)).
  - unfold Connection.connect, bind, new_Payload.
    match goal with
    | |- context [Connection._exchange P ?r ?l ?s] =>
        pose proof (exchange_tags P r l s) as E;
        destruct (Connection._exchange P r l s) as [[number|e] σ1]
    end; simpl in *; [|done].
    by destruct (truthy number).
  - unfold bind at 1, Client.get_pair_record. unfold bind at 1, get.
    unfold bind at 1, modify. fold (allocated σ).
    match goal with
    | |- tags (snd (match ?m ?s with _ => _ end)) = _ =>
        assert (Hk : keeps tags m);
          [|specialize (Hk s); by destruct (m s) as [[?|?] ?]]
    end.
    apply keeps_bind; [done|]. intros l.
    apply keeps_bind; [by apply keeps_send_packet|]. intros _.
    apply keeps_bind; [by apply keeps_get_packet|].
    intros [[response tag] data]. case_decide; [apply keeps_raise|].
    destruct data as [p|b]; [|apply keeps_raise].
    destruct (Payload.PairRecordData p); [apply keeps_lift | apply keeps_raise].
Qed.

Lemma run_all_tags (P : Protocol) (ops : list operation) (σ : state) :
  tag_log (run_all P ops σ)
  = tag_log σ ++ map (fun i => packet_tag σ + Z.of_nat i)
                    (seq 0 (length (List.filter is_exchange ops))) /\
  packet_tag (run_all P ops σ)
  = packet_tag σ + Z.of_nat (length (List.filter is_exchange ops)).
Proof.
  revert σ. induction ops as [|o ops IH]; intros σ.
  - simpl. rewrite app_nil_r. split; [done|lia].
  - cbn [run_all List.filter]. destruct (IH (snd (run P o σ))) as [E1 E2].
    pose proof (run_tags P o σ) as Ht. unfold tags in Ht.
    rewrite E1, E2. destruct (is_exchange o); injection Ht as -> ->; [|done].
    simpl. rewrite <- app_assoc. simpl. split; [|lia].
    do 2 f_equal; [lia|].
    rewrite <- seq_shift, map_map. apply map_ext. intros i. lia.
Qed.

(** C8. Whatever a caller does with one connection, and in whatever
    order, the tags that its exchanges ([listen], [connect], the
    pairing-record helper) take are the successive values of the counter:
    each is one more than the one before, so each is greater than all the
    earlier ones and none is taken twice. *)
Theorem tags_strictly_increasing (P : Protocol) (ops : list operation) (σ : state)
    (s : socket) :
  (exists new,
     tag_log (run_all P ops σ) = tag_log σ ++ new /\
     length new = length (List.filter is_exchange ops) /\
     (forall i t, new !! i = Some t -> t = packet_tag σ + Z.of_nat i) /\
     StronglySorted Z.lt new /\
     NoDup new) /\
  StronglySorted Z.lt (tag_log (run_all P ops (Connection.__init__ s))) /\
  NoDup (tag_log (run_all P ops (Connection.__init__ s))) /\
  (forall o, is_exchange o = true ->
     tag_log (snd (run P o σ)) = tag_log σ ++ [packet_tag σ] /\
     packet_tag (snd (run P o σ)) = packet_tag σ + 1).
Proof.
  split; [|split; [|split]].
  - destruct (run_all_tags P ops σ) as [E _]. eexists. split; [exact E|].
    split; [by rewrite length_map, length_seq|].
    split; [|split].
    + intros i t Hi. rewrite list_lookup_fmap in Hi.
      destruct (seq _ _ !! i) as [j|] eqn:Hj; [|done].
      apply lookup_seq in Hj as [-> _]. simpl in Hi. by injection Hi as <-.
    + apply sorted_from.
    + apply sorted_NoDup, sorted_from.
  - destruct (run_all_tags P ops (Connection.__init__ s)) as [-> _].
    apply sorted_from.
  - destruct (run_all_tags P ops (Connection.__init__ s)) as [-> _].
    apply sorted_NoDup, sorted_from.
  - intros o Ho. pose proof (run_tags P o σ) as Ht. rewrite Ho in Ht.
    unfold tags in Ht. by injection Ht as -> ->.
Qed.
End TagClaims.

Section ExchangeClaims.
Context `{ByteOrder} `{Plistlib}.

Lemma exchange_unfold (P : Protocol) (request : RequestType) (l : loc) (σ : state) :
  Connection._exchange P request l σ
  = (send_packet P request (packet_tag σ) (Structured l) ;;
     r <- Connection._get_reply P ;;
     let '(received_tag, data) := r in
     match data with
     | RawBytes _ => raise (MuxError INVALID_PAYLOAD)
     | Structured data =>
         if decide (received_tag <> packet_tag σ)
         then raise (MuxError (TAG_MISMATCH (packet_tag σ) received_tag))
         else ret (Payload.Number data)
     end) (allocated σ).
Proof. reflexivity. Qed.

(** C4. In a tagged exchange, of [listen] or of [connect], on a
    connection that is not connected: when the request has been sent and
    the packet that comes back has the opcode [RESULT] and a tag other than
    the one sent, the exchange raises the tag-mismatch error, with the tag
    that was sent as the expected one and the tag received as the current
    one, and the connected flag is still false. *)
Theorem tag_mismatch_fails (P : Protocol) (σ σ1 σ2 : state) (request : RequestType)
    (l : loc) (tag' : Z) (data : Types_Payload Payload.t) :
  connected σ = false ->
  send_packet P request (packet_tag σ) (Structured l) (allocated σ) = (Ok tt, σ1) ->
  get_packet P σ1 = (Ok (TYPE_RESULT P, tag', data), σ2) ->
  tag' <> packet_tag σ ->
  Connection._exchange P request l σ
  = (Raise (MuxError (TAG_MISMATCH (packet_tag σ) tag')), σ2) /\
  connected σ2 = false /\
  (request = TYPE_LISTEN P -> l = default_payload ->
   Connection.listen P σ
   = (Raise (MuxError (TAG_MISMATCH (packet_tag σ) tag')), σ2)) /\
  (forall device port σ0,
     request = TYPE_CONNECT P ->
     new_Payload (Connection.connect_payload device port) σ0 = (Ok l, σ) ->
     connected σ0 = false /\
     Connection.connect P device port σ0
     = (Raise (MuxError (TAG_MISMATCH (packet_tag σ0) tag')), σ2)).
Proof.
  intros Hc Hsend Hget Hne.
  assert (Hex : Connection._exchange P request l σ
                = (Raise (MuxError (TAG_MISMATCH (packet_tag σ) tag')), σ2)).
  { rewrite exchange_unfold. unfold bind. rewrite Hsend.
    unfold Connection._get_reply, bind. rewrite Hget.
    rewrite decide_True by done. unfold ret.
    destruct (get_packet_structured _ _ _ _ _ _ Hget) as [p ->].
    by rewrite decide_True by done. }
  assert (Hc2 : connected σ2 = false).
  { pose proof (keeps_get_packet connected P (fun _ _ => eq_refl) σ1) as E2.
    pose proof (keeps_send_packet connected P request (packet_tag σ) (Structured l)
                  (fun _ _ => eq_refl) (fun _ _ => eq_refl) (allocated σ)) as E1.
    rewrite Hget in E2. rewrite Hsend in E1. simpl in E1, E2. congruence. }
  split; [done|]. split; [done|]. split.
  - intros -> ->. unfold Connection.listen, bind. by rewrite Hex.
  - intros device port σ0 -> Hnew.
    unfold new_Payload in Hnew. injection Hnew as <- <-.
    split; [done|].
    unfold Connection.connect, bind, new_Payload.
    cbn [packet_tag set_next_loc set_heap] in Hex. by rewrite Hex.
Qed.

Lemma keeps_connected_exchange (P : Protocol) (request : RequestType) (l : loc) :
  keeps connected (Connection._exchange P request l).
Proof.
  apply keeps_bind; [apply keeps_get|]. intros σ.
  apply keeps_bind; [by apply keeps_modify|]. intros _.
  apply keeps_bind; [by apply keeps_send_packet|]. intros _.
  apply keeps_bind.
  { apply keeps_bind; [by apply keeps_get_packet|].
    intros [[response tag] data]. case_decide; [apply keeps_ret | apply keeps_raise]. }
  intros [tag data]. destruct data; [|apply keeps_raise].
  case_decide; [apply keeps_raise | apply keeps_ret].
Qed.

(** Once the flag is true, whatever a caller does leaves it true. *)
Lemma run_connected (P : Protocol) (o : operation) (σ : state) :
  connected σ = true -> connected (snd (run P o σ)) = true.
Proof.
  intros Hc.
  destruct o as [request tag payload| |ready| |device port|udid]; simpl.
  - by rewrite keeps_send_packet.
  - rewrite <- Hc. apply keeps_bind; [by apply keeps_get_packet|].
    intros _. apply keeps_ret.
  - unfold Connection.process, bind, get. by rewrite Hc.
  - rewrite <- Hc. apply keeps_bind; [apply keeps_connected_exchange|].
    intros [n|]; [|apply keeps_ret].
    destruct (truthy (Some n)); [apply keeps_raise | apply keeps_ret].
  - unfold Connection.connect, bind, new_Payload.
    match goal with
    | |- context [Connection._exchange P ?r ?l ?s] =>
        pose proof (keeps_connected_exchange P r l s) as E;
        destruct (Connection._exchange P r l s) as [[number|e] σ1]
    end; simpl in *; [|congruence].
    destruct (truthy number); simpl; [done|congruence].
  - rewrite <- Hc. apply keeps_bind; [|intros; apply keeps_ret].
    apply keeps_bind; [apply keeps_get|]. intros σ'.
    apply keeps_bind; [by apply keeps_modify|]. intros _.
    apply keeps_bind; [done|]. intros l.
    apply keeps_bind; [by apply keeps_send_packet|]. intros _.
    apply keeps_bind; [by apply keeps_get_packet|].
    intros [[response tag] data]. case_decide; [apply keeps_raise|].
    destruct data as [p|b]; [|apply keeps_raise].
    destruct (Payload.PairRecordData p); [apply keeps_lift | apply keeps_raise].
Qed.

(** C6 (as amended). A [connect] that returns has set the connected flag,
    and from then on the flag stays true whatever is attempted.  With the
    flag true, every attempt to send or to read a packet through the
    binary codec, so every [listen] and [connect] of a connection on that
    codec, and every attempt to read one through the plist codec, fails
    with the mux-already-connected error; the send path of the plist codec
    fails with it once it has found the string form of the request and
    serialised the payload; the poll step fails with another generic
    error, whose message is [SOCKET_IS_CONNECTED]. *)
Theorem connected_is_terminal (P : Protocol) (σ : state) :
  connected σ = true ->
  (forall request tag payload,
     BinaryProtocol.send_packet P request tag payload σ
     = (Raise (MuxError MUX_CONNECTED_ERROR), σ)) /\
  (forall request tag l s body,
     PlistProtocol.__request_type request = Ok s ->
     dumps (PlistProtocol.remove_none
              (asdict (Payload.set_MessageType (Some s) (heap σ l)))) = Ok body ->
     PlistProtocol.send_packet request tag l σ
     = (Raise (MuxError MUX_CONNECTED_ERROR), stamped s l σ)) /\
  get_packet P σ = (Raise (MuxError MUX_CONNECTED_ERROR), σ) /\
  (forall ready,
     Connection.process P ready σ = (Raise (MuxError SOCKET_IS_CONNECTED), σ)) /\
  Connection.listen Binary σ
  = (Raise (MuxError MUX_CONNECTED_ERROR), allocated σ) /\
  (forall device port,
     fst (Connection.connect Binary device port σ)
     = Raise (MuxError MUX_CONNECTED_ERROR)) /\
  (forall ops, connected (run_all P ops σ) = true) /\
  (forall σ0 device port s σ',
     Connection.connect P device port σ0 = (Ok s, σ') -> connected σ' = true).
Proof.
  intros Hc.
  assert (Hsend : forall Q request tag payload τ, connected τ = true ->
            BinaryProtocol.send_packet Q request tag payload τ
            = (Raise (MuxError MUX_CONNECTED_ERROR), τ)).
  { intros Q request tag payload τ Hτ.
    unfold BinaryProtocol.send_packet, BinaryProtocol.__is_connected, bind, get.
    by rewrite Hτ. }
  assert (Hget : forall Q, BinaryProtocol.get_packet Q σ
                           = (Raise (MuxError MUX_CONNECTED_ERROR), σ)).
  { intros Q.
    unfold BinaryProtocol.get_packet, BinaryProtocol.__is_connected, bind, get.
    by rewrite Hc. }
  split; [by auto|]. split; [|split; [|split; [|split; [|split; [|split]]]]].
  - intros request tag l s body Hs Hd.
    unfold PlistProtocol.send_packet, bind, lift, modify, get.
    rewrite Hs. cbn [heap set_heap]. rewrite decide_True by done. rewrite Hd.
    fold (stamped s l σ). by apply Hsend.
  - destruct P; simpl; unfold bind.
    + by rewrite Hget.
    + unfold PlistProtocol.get_packet, bind. by rewrite Hget.
  - intros ready. unfold Connection.process, bind, get. by rewrite Hc.
  - unfold Connection.listen, bind. rewrite exchange_unfold. unfold bind.
    simpl send_packet. by rewrite Hsend.
  - intros device port. unfold Connection.connect, bind, new_Payload.
    rewrite exchange_unfold. unfold bind. simpl send_packet.
    by rewrite Hsend.
  - intros ops. clear Hsend Hget. revert σ Hc.
    induction ops as [|o ops IH]; intros σ Hc; [done|].
    simpl. apply IH. by apply run_connected.
  - intros σ0 device port s σ'. unfold Connection.connect, bind.
    destruct (new_Payload _ σ0) as [[l|?] σa]; [|done].
    destruct (Connection._exchange _ _ _ σa) as [[number|?] σb]; [|done].
    destruct (truthy number); [|done]. unfold modify, get, ret.
    by intros [= <- <-].
Qed.
End ExchangeClaims.

(** * Further properties of the code *)

(** ** The socket wrapper *)

(** A stream that ends before [size] bytes have come. *)
Lemma receive_loop_broken (fuel : nat) (size : Z) (message : bytes) (σ : state) :
  len message + len (concat (inbox (sock σ))) < size ->
  (length (concat (inbox (sock σ))) < fuel)%nat ->
  exists i,
    SafeStreamSocket.receive_loop fuel size message σ
    = (Raise (MuxError SOCKET_CONNECTION_BROKEN), with_inbox i σ).
Proof.
  revert message σ. induction fuel as [|fuel IH]; intros message σ Hlt Hfuel; [lia|].
  cbn [SafeStreamSocket.receive_loop].
  assert (Hnn : 0 <= len (concat (inbox (sock σ)))) by (unfold len; lia).
  rewrite decide_True by lia.
  unfold bind, socket_recv.
  destruct (inbox (sock σ)) as [|c cs] eqn:Ei.
  { exists []. rewrite <- Ei. by rewrite with_inbox_same. }
  simpl in Hlt, Hfuel. unfold len in Hlt. rewrite length_app in Hlt, Hfuel.
  rewrite decide_True by (unfold len; lia). rewrite take_ge by (unfold len; lia).
  destruct c as [|x c].
  { exists cs. reflexivity. }
  set (σ1 := set_sock _ σ).
  destruct (IH (message ++ x :: c) σ1) as [i E].
  - subst σ1. unfold len. rewrite length_app. simpl in *. lia.
  - subst σ1. simpl in *. lia.
  - exists i. rewrite E. reflexivity.
Qed.

Lemma receive_broken (size : Z) (σ : state) :
  len (concat (inbox (sock σ))) < size ->
  exists i,
    SafeStreamSocket.receive size σ
    = (Raise (MuxError SOCKET_CONNECTION_BROKEN), with_inbox i σ).
Proof.
  intros Hlt. apply receive_loop_broken.
  - unfold len in *. simpl. lia.
  - unfold len in *. lia.
Qed.

(** [receive] of nothing, or of less, reads nothing. *)
Lemma receive_nothing (size : Z) (σ : state) :
  size <= 0 -> SafeStreamSocket.receive size σ = (Ok [], σ).
Proof.
  intros Hs. unfold SafeStreamSocket.receive.
  replace (Z.to_nat size) with O by lia. simpl.
  by rewrite decide_False by (unfold len; simpl; lia).
Qed.

(** X1. [SafeStreamSocket.receive] puts the stream together again: when
    the bytes [data] are on their way, in whatever chunks the operating
    system delivers them, [receive(len(data))] returns exactly [data] and
    leaves in the socket exactly what came after it. *)
Theorem receive_reassembles (data : bytes) (σ : state) :
  arrives data σ ->
  exists i,
    SafeStreamSocket.receive (len data) σ = (Ok data, with_inbox i σ) /\
    concat (inbox (sock σ)) = data ++ concat i /\
    Forall (fun c => c <> []) i.
Proof.
  intros [Hne [rest Hcat]].
  destruct (receive_ok data rest σ Hne Hcat) as (i & E & Hi & Hni).
  exists i. by rewrite Hi.
Qed.

(** What [receive] returns has [size] bytes. *)
Lemma receive_loop_length (fuel : nat) (size : Z) (message message' : bytes)
    (σ σ' : state) :
  len message <= size ->
  (Z.to_nat (size - len message) <= fuel)%nat ->
  SafeStreamSocket.receive_loop fuel size message σ = (Ok message', σ') ->
  len message' = size.
Proof.
  revert message σ. induction fuel as [|fuel IH]; intros message σ Hle Hfuel.
  - simpl. rewrite decide_False by lia. intros [= <- _]. lia.
  - cbn [SafeStreamSocket.receive_loop].
    destruct (decide (len message < size)) as [Hlt|Hge]; [|intros [= <- _]; lia].
    unfold bind, socket_recv.
    destruct (inbox (sock σ)) as [|c cs]; [done|].
    destruct (take _ c) as [|x chunk] eqn:Ec; [done|].
    apply IH.
    + rewrite <- Ec. unfold len in *. rewrite length_app, length_take. lia.
    + unfold len in *. rewrite length_app. simpl. lia.
Qed.

(** X2. [SafeStreamSocket.receive] never returns a short message: what it
    returns has exactly [size] bytes (none when [size] is zero or less, and
    then the socket is not touched); when the peer closes before [size]
    bytes have come, however many did come, it raises the generic error
    with the connection-broken message. *)
Theorem receive_short_stream (size : Z) (σ : state) :
  (len (concat (inbox (sock σ))) < size ->
   fst (SafeStreamSocket.receive size σ) = Raise (MuxError SOCKET_CONNECTION_BROKEN)) /\
  (size <= 0 -> SafeStreamSocket.receive size σ = (Ok [], σ)) /\
  (forall message σ', SafeStreamSocket.receive size σ = (Ok message, σ') ->
     len message = Z.max 0 size).
Proof.
  split; [|split].
  - intros Hlt. by destruct (receive_broken size σ Hlt) as [i ->].
  - apply receive_nothing.
  - intros message σ' E. destruct (decide (size <= 0)) as [Hs|Hs].
    + rewrite receive_nothing in E by done. injection E as <- _.
      unfold len. simpl. lia.
    + apply receive_loop_length in E; [lia | unfold len; simpl; lia |].
      unfold len. simpl. lia.
Qed.

Lemma take_take_drop {A} (l : list A) (a b : nat) :
  take a l ++ take b (drop a l) = take (a + b) l.
Proof.
  revert a. induction l as [|x l IH]; intros a.
  - by rewrite !take_nil, drop_nil, take_nil.
  - destruct a as [|a]; [done|]. simpl. by rewrite IH.
Qed.

(** Whether [send] returns or raises, what has gone out is a prefix of
    the message, and the whole of it when [send] returns. *)
Lemma send_loop_prefix (fuel : nat) (message : bytes) (total : nat) (σ : state) :
  (total <= length message)%nat ->
  (length message - total <= fuel)%nat ->
  exists n w,
    (total <= n <= length message)%nat /\
    snd (SafeStreamSocket.send_loop fuel message total σ)
    = with_sent (take (n - total) (drop total message)) w σ /\
    (fst (SafeStreamSocket.send_loop fuel message total σ) = Ok tt /\
     n = length message \/
     fst (SafeStreamSocket.send_loop fuel message total σ)
     = Raise (MuxError SOCKET_CONNECTION_BROKEN) /\ (n < length message)%nat).
Proof.
  revert total σ. induction fuel as [|fuel IH]; intros total σ Htot Hfuel.
  - exists total, (window (sock σ)). simpl. rewrite decide_False by lia.
    rewrite Nat.sub_diag, take_0, with_sent_nothing. simpl.
    split; [lia|]. split; [done|]. left. split; [done|lia].
  - cbn [SafeStreamSocket.send_loop].
    destruct (decide (total < length message)%nat) as [Hlt|Hge].
    2:{ exists total, (window (sock σ)).
        rewrite Nat.sub_diag, take_0, with_sent_nothing. simpl.
        split; [lia|]. split; [done|]. left. split; [done|lia]. }
    unfold bind, socket_send.
    destruct (window (sock σ)) as [|k ws] eqn:Ew.
    { exists total, (window (sock σ)). rewrite decide_True by done.
      rewrite Nat.sub_diag, take_0, with_sent_nothing. simpl.
      split; [lia|]. split; [done|]. right. split; [done|lia]. }
    rewrite length_drop.
    set (n := Nat.min k (length message - total)).
    destruct (decide (n = O)) as [Hn|Hn].
    { exists total, ws. rewrite Hn, Nat.sub_diag, !take_0. simpl.
      split; [lia|]. split; [done|]. right. split; [done|lia]. }
    destruct (IH (total + n)%nat
                (set_sock {| inbox := inbox (sock σ); window := ws;
                             outbox := outbox (sock σ) ++ take n (drop total message);
                             closed := closed (sock σ) |} σ))
      as (m & w & Hm & Hsnd & Hfst); [lia | lia |].
    exists m, w. split; [lia|]. split; [|done].
    rewrite Hsnd. unfold with_sent, set_sock. simpl.
    rewrite <- app_assoc, <- drop_drop, take_take_drop. do 4 f_equal. lia.
Qed.

(** A send that accepts nothing before the message is through. *)
Lemma send_loop_broken (fuel : nat) (message : bytes) (total : nat) (σ : state) :
  (total <= length message)%nat ->
  (length message - total <= fuel)%nat ->
  window_after (window (sock σ)) (length message - total) = None ->
  fst (SafeStreamSocket.send_loop fuel message total σ)
  = Raise (MuxError SOCKET_CONNECTION_BROKEN).
Proof.
  revert total σ. induction fuel as [|fuel IH]; intros total σ Htot Hfuel Hw.
  - replace (length message - total)%nat with O in Hw by lia.
    by rewrite window_after_0 in Hw.
  - cbn [SafeStreamSocket.send_loop].
    destruct (decide (total < length message)%nat) as [Hlt|Hge].
    2:{ replace (length message - total)%nat with O in Hw by lia.
        by rewrite window_after_0 in Hw. }
    unfold bind, socket_send.
    destruct (window (sock σ)) as [|k ws] eqn:Ew; [done|].
    simpl in Hw. rewrite decide_False in Hw by lia.
    rewrite length_drop.
    destruct (decide (k = O)) as [->|Hk]; [done|].
    rewrite decide_False by lia.
    apply IH; [lia | lia |].
    simpl. rewrite <- Hw. f_equal. lia.
Qed.

(** X3. [SafeStreamSocket.send] goes on until the whole message is
    through: when each call of the socket's [send] on the way accepts at
    least one byte, however few, [send] returns and the socket has taken
    the message whole and in order; when a call accepts nothing before
    that, [send] raises the generic error with the connection-broken
    message. *)
Theorem send_until_through (message : bytes) (σ : state) :
  (forall w', window_after (window (sock σ)) (length message) = Some w' ->
     SafeStreamSocket.send message σ = (Ok tt, with_sent message w' σ)) /\
  (window_after (window (sock σ)) (length message) = None ->
     fst (SafeStreamSocket.send message σ) = Raise (MuxError SOCKET_CONNECTION_BROKEN)).
Proof.
  split.
  - intros w'. apply send_ok.
  - intros Hw. apply send_loop_broken; [lia | lia |]. by rewrite Nat.sub_0_r.
Qed.

Lemma send_prefix (message : bytes) (σ : state) :
  exists n w,
    (n <= length message)%nat /\
    snd (SafeStreamSocket.send message σ) = with_sent (take n message) w σ /\
    (fst (SafeStreamSocket.send message σ) = Ok tt /\ n = length message \/
     fst (SafeStreamSocket.send message σ)
     = Raise (MuxError SOCKET_CONNECTION_BROKEN) /\ (n < length message)%nat).
Proof.
  destruct (send_loop_prefix (length message) message 0 σ) as (n & w & Hn & Hs & Hf);
    [lia | lia |].
  exists n, w. rewrite Nat.sub_0_r in Hs. split; [lia|]. by split.
Qed.

(** X4. Whether [SafeStreamSocket.send] returns or raises, the bytes the
    socket has taken are a prefix of the message, in order, and nothing
    else of the connection has changed; the prefix is the whole message
    when [send] returns, and falls short of it when [send] raises,
    whatever it raises. *)
Theorem send_sends_a_prefix (message : bytes) (σ : state) :
  exists n w,
    (n <= length message)%nat /\
    snd (SafeStreamSocket.send message σ) = with_sent (take n message) w σ /\
    outbox (sock (snd (SafeStreamSocket.send message σ)))
    = outbox (sock σ) ++ take n message /\
    (fst (SafeStreamSocket.send message σ) = Ok tt -> n = length message) /\
    (forall e, fst (SafeStreamSocket.send message σ) = Raise e ->
       (n < length message)%nat).
Proof.
  destruct (send_prefix message σ) as (n & w & Hn & Hs & Hf).
  exists n, w. split; [done|]. split; [done|]. split; [by rewrite Hs|].
  destruct Hf as [[Hok ->] | [Hraise Hlt]].
  - split; [done|]. intros e He. by rewrite Hok in He.
  - split; [|done]. intros Hok. by rewrite Hraise in Hok.
Qed.

(** ** The binary codec on the wire *)

Section BinaryWire.
Context `{ByteOrder}.

(** The header is packed when the four numbers fit their fields, and not
    otherwise. *)
Lemma pack_header_cases (a b d : Z) (request : RequestType) :
  (exists r, request = RInt r /\ u32 a /\ u32 b /\ u32 r /\ u32 d /\
     struct.pack Formats.IIII
       [struct.Int a; struct.Int b; arg_of_request request; struct.Int d]
     = Ok (encode_uint 4 a ++ encode_uint 4 b ++ encode_uint 4 r ++ encode_uint 4 d)) \/
  (~ (exists r, request = RInt r /\ u32 a /\ u32 b /\ u32 r /\ u32 d) /\
   struct.pack Formats.IIII
     [struct.Int a; struct.Int b; arg_of_request request; struct.Int d]
   = Raise struct_error).
Proof.
  destruct request as [r|s].
  - destruct (decide (u32 a /\ u32 b /\ u32 r /\ u32 d)) as [(Ha & Hb & Hr & Hd)|Hn].
    + left. exists r. repeat (split; [done|]). by apply pack_IIII.
    + right. split; [intros (r' & [= <-] & ?); by apply Hn|].
      unfold struct.pack, Formats.IIII. cbn [struct.pack_from arg_of_request struct.encode].
      unfold u32 in Hn. repeat case_decide; try done. exfalso. by apply Hn.
  - right. split; [by intros (r & ? & _)|].
    unfold struct.pack, Formats.IIII. cbn [struct.pack_from arg_of_request struct.encode].
    by repeat case_decide.
Qed.

(** What [BinaryProtocol.send_packet] does once the payload is packed. *)
Lemma binary_send_packet_packed (P : Protocol) (request : RequestType) (tag : Z)
    (payload : Types_Payload loc) (body : bytes) (σ : state) :
  connected σ = false ->
  BinaryProtocol._pack P request payload σ = (Ok body, σ) ->
  BinaryProtocol.send_packet P request tag payload σ
  = (header <- lift (struct.pack Formats.IIII
                       [struct.Int (PADDING_LENGTH + len body); struct.Int (VERSION P);
                        arg_of_request request; struct.Int tag]) ;;
     SafeStreamSocket.send (header ++ body)) σ.
Proof.
  intros Hc Hp.
  unfold BinaryProtocol.send_packet, BinaryProtocol.__is_connected.
  unfold bind at 1. unfold bind at 1, get. rewrite Hc. unfold ret at 1.
  unfold bind at 1. by rewrite Hp.
Qed.

Lemma u32_VERSION (P : Protocol) : u32 (VERSION P).
Proof. unfold u32. destruct P; simpl; lia. Qed.

Lemma binary_send_packet_sends (P : Protocol) (r tag : Z)
    (payload : Types_Payload loc) (body : bytes) (σ : state) (w' : list nat) :
  connected σ = false ->
  BinaryProtocol._pack P (RInt r) payload σ = (Ok body, σ) ->
  u32 (PADDING_LENGTH + len body) -> u32 r -> u32 tag ->
  window_after (window (sock σ)) (length (frame (VERSION P) r tag body)) = Some w' ->
  BinaryProtocol.send_packet P (RInt r) tag payload σ
  = (Ok tt, with_sent (frame (VERSION P) r tag body) w' σ).
Proof.
  intros Hc Hp Hl Hr Ht Hw.
  rewrite (binary_send_packet_packed P (RInt r) tag payload body) by done.
  unfold bind, lift. cbn [arg_of_request].
  rewrite pack_IIII by auto using u32_VERSION.
  rewrite <- !app_assoc. by apply send_ok.
Qed.

(** A call that returns has sent one whole frame. *)
Lemma binary_send_packet_returned (P : Protocol) (request : RequestType) (tag : Z)
    (payload : Types_Payload loc) (body : bytes) (σ σ' : state) :
  connected σ = false ->
  BinaryProtocol._pack P request payload σ = (Ok body, σ) ->
  BinaryProtocol.send_packet P request tag payload σ = (Ok tt, σ') ->
  exists r w,
    request = RInt r /\ u32 (PADDING_LENGTH + len body) /\ u32 r /\ u32 tag /\
    σ' = with_sent (frame (VERSION P) r tag body) w σ.
Proof.
  intros Hc Hp.
  rewrite (binary_send_packet_packed P request tag payload body) by done.
  unfold bind, lift.
  destruct (pack_header_cases (PADDING_LENGTH + len body) (VERSION P) tag request)
    as [(r & -> & Hl & _ & Hr & Ht & ->)|[_ ->]]; [|done].
  intros E. destruct (send_prefix
    ((encode_uint 4 (PADDING_LENGTH + len body) ++ encode_uint 4 (VERSION P) ++
      encode_uint 4 r ++ encode_uint 4 tag) ++ body) σ) as (n & w & Hn & Hs & Hf).
  rewrite E in Hs, Hf. simpl in Hs, Hf.
  destruct Hf as [[_ ->]|[? _]]; [|done].
  exists r, w. repeat (split; [done|]).
  rewrite Hs, take_ge by done. unfold frame. by rewrite <- !app_assoc.
Qed.

Lemma is_connected_false (σ : state) :
  connected σ = false -> BinaryProtocol.__is_connected σ = (Ok tt, σ).
Proof. intros Hc. unfold BinaryProtocol.__is_connected, bind, get. by rewrite Hc. Qed.

Lemma binary_send_packet_connected (P : Protocol) (request : RequestType) (tag : Z)
    (payload : Types_Payload loc) (σ σ' : state) (a : unit) :
  BinaryProtocol.send_packet P request tag payload σ = (Ok a, σ') ->
  connected σ = false.
Proof.
  unfold BinaryProtocol.send_packet, BinaryProtocol.__is_connected, bind, get.
  by destruct (connected σ).
Qed.

Lemma sent_with_sent (data : bytes) (w : list nat) (σ : state) :
  sent σ (with_sent data w σ) = data.
Proof. unfold sent. simpl. by rewrite drop_app_length. Qed.

(** X5. What the send path of the binary codec has sent when it returns,
    for a payload that is a [bytes] object, the receive path reads back:
    the opcode and the tag of the call, and the body.  A codec of the class
    [PlistProtocol] returns the body as the [bytes] it is; a codec of the
    class [BinaryProtocol] gives it to the decoder of the opcode.  The
    opcode of a call that returns is an integer. *)
Theorem frame_round_trip (P : Protocol) (σ σ' ρ : state) (request : RequestType)
    (tag : Z) (body : bytes) :
  BinaryProtocol.send_packet P request tag (RawBytes body) σ = (Ok tt, σ') ->
  connected ρ = false ->
  arrives (sent σ σ') ρ ->
  exists r,
    request = RInt r /\
    fst (BinaryProtocol.get_packet P ρ)
    = match BinaryProtocol.dispatch_unpack P r body with
      | Ok unpacked => Ok (r, tag, unpacked)
      | Raise e => Raise e
      end /\
    (P = Plist -> fst (BinaryProtocol.get_packet P ρ) = Ok (r, tag, RawBytes body)).
Proof.
  intros Hsend Hc' [Hne [rest Hcat]].
  pose proof (binary_send_packet_connected _ _ _ _ _ _ _ Hsend) as Hc.
  destruct (binary_send_packet_returned P request tag (RawBytes body) body σ σ' Hc
              eq_refl Hsend) as (r & w & -> & Hl & Hr & Ht & ->).
  rewrite sent_with_sent in Hcat.
  destruct (get_packet_frame P ρ (VERSION P) r tag body rest Hc' Hl (u32_VERSION P)
              Hr Ht Hne Hcat) as (i & _ & _ & E).
  exists r. split; [done|]. rewrite E, decide_True by done. split; [done|].
  by intros ->.
Qed.

(** X6. Packets that follow one another in the stream are read one
    after the other: the receive path takes the bytes of one frame and no
    more, however the stream is cut into chunks, so the next call starts at
    the next header. *)
Theorem get_packet_one_at_a_time (P : Protocol) (σ : state)
    (response1 tag1 response2 tag2 : Z) (body1 body2 : bytes)
    (unpacked1 unpacked2 : Types_Payload Payload.t) :
  connected σ = false ->
  u32 (PADDING_LENGTH + len body1) -> u32 response1 -> u32 tag1 ->
  u32 (PADDING_LENGTH + len body2) -> u32 response2 -> u32 tag2 ->
  BinaryProtocol.dispatch_unpack P response1 body1 = Ok unpacked1 ->
  BinaryProtocol.dispatch_unpack P response2 body2 = Ok unpacked2 ->
  arrives (frame (VERSION P) response1 tag1 body1 ++
           frame (VERSION P) response2 tag2 body2) σ ->
  exists σ1,
    BinaryProtocol.get_packet P σ = (Ok (response1, tag1, unpacked1), σ1) /\
    arrives (frame (VERSION P) response2 tag2 body2) σ1 /\
    fst (BinaryProtocol.get_packet P σ1) = Ok (response2, tag2, unpacked2).
Proof.
  intros Hc Hl1 Hr1 Ht1 Hl2 Hr2 Ht2 Hu1 Hu2 [Hne [rest Hcat]].
  rewrite <- app_assoc in Hcat.
  destruct (get_packet_frame P σ (VERSION P) response1 tag1 body1 _ Hc Hl1
              (u32_VERSION P) Hr1 Ht1 Hne Hcat) as (i & Hi & Hni & E).
  rewrite decide_True, Hu1 in E by done.
  exists (with_inbox i σ). split; [done|].
  assert (Ha : arrives (frame (VERSION P) response2 tag2 body2) (with_inbox i σ)).
  { split; [done|]. by exists rest. }
  split; [done|].
  destruct (get_packet_frame P (with_inbox i σ) (VERSION P) response2 tag2 body2 rest
              Hc Hl2 (u32_VERSION P) Hr2 Ht2 Hni Hi) as (j & _ & _ & E2).
  by rewrite E2, decide_True, Hu2 by done.
Qed.

(** X7. A header whose length field is below 16, the size of the header
    itself, is refused: the receive path reads the bytes the field
    announces beyond its own four, finds fewer than the twelve of the rest
    of the header, and the unpacking of version, opcode and tag raises
    [struct.error]. *)
Theorem get_packet_short_length (P : Protocol) (σ : state) (length_field : Z)
    (rest : bytes) :
  connected σ = false ->
  0 <= length_field < PADDING_LENGTH ->
  length_field - SOCKET_PADDING <= len rest ->
  arrives (encode_uint 4 length_field ++ rest) σ ->
  fst (BinaryProtocol.get_packet P σ) = Raise struct_error.
Proof.
  unfold PADDING_LENGTH, SOCKET_PADDING.
  intros Hc Hl Hrest [Hne [rest' Hcat]]. rewrite <- app_assoc in Hcat.
  destruct (receive_ok _ _ σ Hne Hcat) as (i1 & E1 & Hcat1 & Hne1).
  replace (len (encode_uint 4 length_field)) with SOCKET_PADDING in E1
    by (unfold len; by rewrite length_encode_uint).
  unfold BinaryProtocol.get_packet.
  unfold bind at 1. rewrite (is_connected_false σ Hc).
  unfold bind at 1. rewrite E1.
  unfold bind at 1, lift at 1.
  rewrite unpack_I by apply length_encode_uint.
  rewrite decode_encode_uint by (change (256 ^ Z.of_nat 4) with (2 ^ 32); lia).
  cbn [fst]. unfold bind at 1.
  set (size := length_field - SOCKET_PADDING).
  assert (Hbody : exists body σ2,
            SafeStreamSocket.receive size (with_inbox i1 σ) = (Ok body, σ2) /\
            len body < 12).
  { destruct (decide (size <= 0)) as [Hs|Hs].
    - exists [], (with_inbox i1 σ). split; [by apply receive_nothing|].
      unfold len. simpl. lia.
    - subst size. unfold SOCKET_PADDING in *.
      set (n := Z.to_nat (length_field - 4)).
      assert (Hn : (n <= length rest)%nat) by (unfold len in Hrest; lia).
      destruct (receive_ok (take n rest) (drop n rest ++ rest') (with_inbox i1 σ))
        as (i2 & E2 & _ & _); [done| |].
      { simpl. by rewrite Hcat1, app_assoc, take_drop. }
      exists (take n rest), (with_inbox i2 (with_inbox i1 σ)).
      replace (len (take n rest)) with (length_field - 4) in E2
        by (unfold len; rewrite length_take; lia).
      split; [done|]. unfold len. rewrite length_take. lia. }
  destruct Hbody as (body & σ2 & -> & Hlen).
  unfold bind, lift. rewrite unpack_wrong_size; [done|].
  rewrite length_take. unfold len in Hlen.
  change (struct.calcsize Formats.III) with 12%nat. lia.
Qed.

(** X8. A stream that ends inside a packet, in its header or in its body,
    gives no packet: the receive path raises the generic error with the
    connection-broken message. *)
Theorem get_packet_truncated (P : Protocol) (σ : state) (version response tag : Z)
    (body : bytes) (n : nat) :
  connected σ = false ->
  u32 (PADDING_LENGTH + len body) ->
  Forall (fun c => c <> []) (inbox (sock σ)) ->
  (n < length (frame version response tag body))%nat ->
  concat (inbox (sock σ)) = take n (frame version response tag body) ->
  fst (BinaryProtocol.get_packet P σ) = Raise (MuxError SOCKET_CONNECTION_BROKEN).
Proof.
  intros Hc Hl Hne Hn Hcat.
  unfold BinaryProtocol.get_packet.
  unfold bind at 1. rewrite (is_connected_false σ Hc).
  unfold bind at 1.
  destruct (decide (n < 4)%nat) as [Hn4|Hn4].
  { destruct (receive_broken SOCKET_PADDING σ) as [i ->]; [|done].
    rewrite Hcat. unfold len, SOCKET_PADDING. rewrite length_take. lia. }
  unfold frame in Hcat, Hn.
  rewrite take_app_ge in Hcat by (rewrite length_encode_uint; lia).
  rewrite length_encode_uint in Hcat.
  destruct (receive_ok _ _ σ Hne Hcat) as (i1 & E1 & Hcat1 & Hne1).
  replace (len (encode_uint 4 (PADDING_LENGTH + len body))) with SOCKET_PADDING in E1
    by (unfold len; by rewrite length_encode_uint).
  rewrite E1. unfold bind at 1, lift at 1.
  rewrite unpack_I by apply length_encode_uint.
  unfold u32 in Hl.
  rewrite decode_encode_uint by (change (256 ^ Z.of_nat 4) with (2 ^ 32); lia).
  cbn [fst]. unfold bind at 1.
  destruct (receive_broken (PADDING_LENGTH + len body - SOCKET_PADDING)
              (with_inbox i1 σ)) as [i ->]; [|done].
  simpl. rewrite Hcat1. unfold len, PADDING_LENGTH, SOCKET_PADDING.
  rewrite length_take. rewrite !length_app, !length_encode_uint in *. lia.
Qed.

End BinaryWire.

Section BinaryBounds.
Context `{ByteOrder}.

(** X9. A header field that does not fit its 32 bits stops the send path
    of the binary codec before anything is sent: with a request that is a
    string, or with an opcode, a tag or a packet length outside
    [0, 2^32), packing the header raises [struct.error] and the connection
    is as it was. *)
Theorem send_packet_out_of_range (P : Protocol) (request : RequestType) (tag : Z)
    (body : bytes) (σ : state) :
  connected σ = false ->
  ~ (exists r, request = RInt r /\ u32 r /\ u32 tag /\ u32 (PADDING_LENGTH + len body)) ->
  BinaryProtocol.send_packet P request tag (RawBytes body) σ = (Raise struct_error, σ).
Proof.
  intros Hc Hn.
  rewrite (binary_send_packet_packed P request tag (RawBytes body) body) by done.
  unfold bind, lift.
  destruct (pack_header_cases (PADDING_LENGTH + len body) (VERSION P) tag request)
    as [(r & -> & Hl & _ & Hr & Ht & _)|[_ ->]]; [|done].
  exfalso. apply Hn. by exists r.
Qed.

Lemma pack_IH_cases (d p : option Z) :
  struct.pack Formats.IH [struct.of_option d; struct.of_option p]
  = match d, p with
    | Some d, Some p =>
        if decide (u32 d /\ 0 <= p < 2 ^ 16)
        then Ok (encode_uint 4 d ++ encode_uint 2 p)
        else Raise struct_error
    | _, _ => Raise struct_error
    end.
Proof.
  destruct d as [d|], p as [p|]; try reflexivity.
  - case_decide as Hdp.
    + destruct Hdp. by apply pack_IH.
    + unfold struct.pack, Formats.IH. cbn [struct.pack_from struct.of_option struct.encode].
      unfold u32 in Hdp. repeat case_decide; try done. exfalso. by apply Hdp.
  - unfold struct.pack, Formats.IH. cbn [struct.pack_from struct.of_option struct.encode].
    by case_decide.
Qed.
End BinaryBounds.

(** The swapped port fits the 16-bit field for the ports below [2^24],
    not only for those below [2^16]. *)
Lemma lt_pow2_log2 (x n : Z) : 0 <= x -> 0 < n -> x < 2 ^ n <-> Z.log2 x < n.
Proof.
  intros Hx Hn. destruct (decide (x = 0)) as [->|Hx0].
  - simpl. split; [lia|]. intros _. apply Z.pow_pos_nonneg; lia.
  - apply Z.log2_lt_pow2. lia.
Qed.

Lemma port_number_fits (port : Z) :
  0 <= Connection.port_number port < 2 ^ 16 <-> 0 <= port < 2 ^ 24.
Proof.
  unfold Connection.port_number.
  change 65280 with (Z.shiftl 255 8).
  rewrite <- Z.shiftl_land. change 255 with (Z.ones 8).
  rewrite Z.land_ones by lia. rewrite Z.shiftr_div_pow2, Z.shiftl_mul_pow2 by lia.
  change (2 ^ 8) with 256.
  pose proof (Z.mod_pos_bound port 256 ltac:(lia)) as Hm.
  set (A := port mod 256 * 256). set (B := port / 256).
  assert (HA : 0 <= A < 2 ^ 16) by (subst A; lia).
  assert (HB : 0 <= B <-> 0 <= port).
  { subst B. split; intros Hp; [|apply Z.div_pos; lia].
    destruct (decide (0 <= port)); [done|].
    assert (port / 256 < 0) by (apply Z.div_lt_upper_bound; lia). lia. }
  rewrite Z.lor_nonneg.
  split.
  - intros [[_ HB0] Hlt]. apply HB in HB0 as Hp. split; [done|].
    apply lt_pow2_log2 in Hlt; [|apply Z.lor_nonneg; lia|lia].
    rewrite Z.log2_lor in Hlt by lia.
    assert (HBlt : B < 2 ^ 16) by (apply lt_pow2_log2; lia).
    subst B. change (2 ^ 24) with (256 * 2 ^ 16).
    pose proof (Z.div_mod port 256 ltac:(lia)). lia.
  - intros Hp. assert (HB0 : 0 <= B) by (apply HB; lia).
    split; [lia|]. apply lt_pow2_log2; [apply Z.lor_nonneg; lia|lia|].
    rewrite Z.log2_lor by lia.
    assert (HBlt : B < 2 ^ 16).
    { subst B. apply Z.div_lt_upper_bound; lia. }
    apply lt_pow2_log2 in HBlt; [|lia|lia].
    destruct HA as [HA0 HA1]. apply lt_pow2_log2 in HA1; lia.
Qed.

(** ** The connection *)

Section ConnectionFurther.
Context `{ByteOrder} `{Plistlib}.

(** X10. Over the binary codec, [connect] packs the device id and the
    swapped port before it sends: for a device without an id, an id
    outside [0, 2^32) or a port outside [0, 2^24), the packing raises
    [struct.error]; nothing has been sent, the connection is still not
    connected and the tag of the exchange is used up.  For every other
    device and port the payload is packed, a port from [2^16] to
    [2^24 - 1] included. *)
Theorem binary_connect_unpackable (device : Device) (port : Z) (σ : state) :
  connected σ = false ->
  (~ (exists d, device_id device = Some d /\ u32 d /\ 0 <= port < 2 ^ 24) ->
   exists σ',
     Connection.connect Binary device port σ = (Raise struct_error, σ') /\
     sock σ' = sock σ /\
     connected σ' = false /\
     packet_tag σ' = packet_tag σ + 1) /\
  (forall d l τ,
     device_id device = Some d -> u32 d -> 0 <= port < 2 ^ 24 ->
     heap τ l = Connection.connect_payload device port ->
     BinaryProtocol._pack Binary (TYPE_CONNECT Binary) (Structured l) τ
     = (Ok (encode_uint 4 d ++ encode_uint 2 (Connection.port_number port) ++
            [x00; x00]), τ)).
Proof.
  intros Hc. split.
  - intros Hn.
    unfold Connection.connect. unfold bind at 1, new_Payload.
    unfold bind at 1. rewrite exchange_unfold.
    unfold bind at 1. simpl send_packet.
    match goal with
    | |- context [BinaryProtocol.send_packet ?P ?r ?t ?p ?s] =>
        assert (E : BinaryProtocol.send_packet P r t p s = (Raise struct_error, s))
    end.
    { unfold BinaryProtocol.send_packet. unfold bind at 1.
      rewrite is_connected_false by done.
      unfold bind at 1. unfold BinaryProtocol._pack.
      rewrite decide_False by done. rewrite decide_True by done.
      unfold bind at 1, get. unfold bind at 1, lift.
      cbn [heap allocated set_tag_log set_packet_tag set_next_loc set_heap].
      rewrite decide_True by done.
      cbn [Connection.connect_payload Payload.DeviceID Payload.PortNumber].
      rewrite pack_IH_cases.
      destruct (device_id device) as [d|]; [|done].
      rewrite decide_False; [done|].
      intros [Hd Hp]. apply Hn. exists d. split; [done|]. split; [done|].
      by apply port_number_fits. }
    rewrite E. eexists. split; [reflexivity|]. done.
  - intros d l τ Hd Hu Hp Hl.
    unfold BinaryProtocol._pack.
    rewrite decide_False by done. rewrite decide_True by done.
    unfold bind, get, lift. rewrite Hl.
    cbn [Connection.connect_payload Payload.DeviceID Payload.PortNumber].
    rewrite Hd, pack_IH_cases.
    rewrite decide_True by (split; [done | by apply port_number_fits]).
    unfold ret. by rewrite <- app_assoc.
Qed.

(** X11. A tagged exchange whose request has been sent and whose answer
    is a [RESULT] packet with the tag of the request returns the [Number]
    of the answer.  [listen] then returns when the number is 0 or missing
    and raises the generic error with the listen-failed message otherwise;
    [connect] returns the socket and sets the connected flag when the
    number is not 0, and raises the generic error with the
    connection-failed message, leaving the flag false, when the number is
    0 or missing. *)
Theorem exchange_outcome (P : Protocol) (σ σ1 σ2 : state) (request : RequestType)
    (l : loc) (p : Payload.t) :
  send_packet P request (packet_tag σ) (Structured l) (allocated σ) = (Ok tt, σ1) ->
  get_packet P σ1 = (Ok (TYPE_RESULT P, packet_tag σ, Structured p), σ2) ->
  Connection._exchange P request l σ = (Ok (Payload.Number p), σ2) /\
  (request = TYPE_LISTEN P -> l = default_payload ->
   Connection.listen P σ
   = (match Payload.Number p with
      | Some n => if decide (n = 0) then Ok tt else Raise (MuxError (LISTEN_FAILED n))
      | None => Ok tt
      end, σ2)) /\
  (forall device port σ0,
     request = TYPE_CONNECT P ->
     new_Payload (Connection.connect_payload device port) σ0 = (Ok l, σ) ->
     Connection.connect P device port σ0
     = match Payload.Number p with
       | Some n =>
           if decide (n = 0)
           then (Raise (MuxError (CONNECTION_FAILED (Some 0))), σ2)
           else (Ok (sock σ2), set_connected true σ2)
       | None => (Raise (MuxError (CONNECTION_FAILED None)), σ2)
       end).
Proof.
  intros Hsend Hget.
  assert (Hex : Connection._exchange P request l σ = (Ok (Payload.Number p), σ2)).
  { rewrite exchange_unfold. unfold bind. rewrite Hsend.
    unfold Connection._get_reply, bind. rewrite Hget.
    rewrite decide_True by done. unfold ret.
    by rewrite decide_False by (intros Hn; by apply Hn). }
  split; [done|]. split.
  - intros -> ->. unfold Connection.listen, bind. rewrite Hex.
    destruct (Payload.Number p) as [n|]; [|done]. simpl.
    case_decide as Hn; [by subst n|].
    by rewrite (proj2 (Z.eqb_neq n 0) Hn).
  - intros device port σ0 -> Hnew.
    unfold Connection.connect, bind. rewrite Hnew, Hex.
    destruct (Payload.Number p) as [n|]; [|done]. simpl.
    case_decide as Hn; [by subst n|].
    by rewrite (proj2 (Z.eqb_neq n 0) Hn).
Qed.

(** [listen] over the binary codec when the answer has the version 0,
    the opcode [RESULT] and the tag of the request. *)
Lemma binary_listen_reply (σ : state) (number : Z) (w' : list nat) :
  connected σ = false ->
  u32 (packet_tag σ) -> u32 number ->
  window_after (window (sock σ)) 16 = Some w' ->
  arrives (frame 0 1 (packet_tag σ) (encode_uint 4 number)) σ ->
  exists i,
    Connection.listen Binary σ
    = (if decide (number = 0) then Ok tt
       else Raise (MuxError (LISTEN_FAILED number)),
       with_inbox i (with_sent (frame 0 3 (packet_tag σ) []) w' (allocated σ))).
Proof.
  intros Hc Ht Hnum Hw [Hne [rest Hcat]].
  assert (Hsend : send_packet Binary (TYPE_LISTEN Binary) (packet_tag σ)
                    (Structured default_payload) (allocated σ)
                  = (Ok tt, with_sent (frame 0 3 (packet_tag σ) []) w' (allocated σ))).
  { apply (binary_send_packet_sends Binary 3 (packet_tag σ) _ []);
      [done | done | unfold u32, PADDING_LENGTH, len; simpl; lia | unfold u32; lia
      | done |].
    unfold frame. rewrite !length_app, !length_encode_uint. exact Hw. }
  set (σ1 := with_sent _ w' (allocated σ)) in *.
  destruct (get_packet_frame Binary σ1 0 1 (packet_tag σ) (encode_uint 4 number) rest)
    as (i & _ & _ & E); try done.
  { unfold u32, PADDING_LENGTH, len. rewrite length_encode_uint. lia. }
  rewrite decide_True in E by done. cbn [BinaryProtocol.dispatch_unpack] in E.
  rewrite unpack_RESULT in E by apply length_encode_uint. cbn [result_bind] in E.
  rewrite decode_encode_uint in E by (change (256 ^ Z.of_nat 4) with (2 ^ 32); done).
  assert (Hget : get_packet Binary σ1
                 = (Ok (TYPE_RESULT Binary, packet_tag σ,
                        Structured (Payload.mk "qt4i-usbmuxd" "tcprelay" None
                                      (Some number) None None None None None)),
                    with_inbox i σ1)).
  { simpl. unfold bind. by rewrite E. }
  exists i.
  unfold Connection.listen, bind. rewrite exchange_unfold. unfold bind.
  rewrite Hsend. unfold Connection._get_reply, bind. rewrite Hget.
  rewrite decide_True by done. unfold ret.
  rewrite decide_False by (intros Hn; by apply Hn). simpl.
  case_decide as Hn; [by subst number|].
  by rewrite (proj2 (Z.eqb_neq number 0) Hn).
Qed.

(** [listen] over the binary codec when the packet that comes back has
    another version than 0. *)
Lemma binary_listen_other_version (σ : state) (version response tag : Z)
    (body : bytes) (w' : list nat) :
  connected σ = false ->
  u32 (packet_tag σ) ->
  window_after (window (sock σ)) 16 = Some w' ->
  u32 (PADDING_LENGTH + len body) -> u32 version -> u32 response -> u32 tag ->
  version <> 0 ->
  arrives (frame version response tag body) σ ->
  exists i,
    Connection.listen Binary σ
    = (Raise (MuxVersionError (INVALID_VERSION 0 version)),
       with_inbox i (with_sent (frame 0 3 (packet_tag σ) []) w' (allocated σ))).
Proof.
  intros Hc Ht Hw Hl Hv Hr Htag Hver [Hne [rest Hcat]].
  assert (Hsend : send_packet Binary (TYPE_LISTEN Binary) (packet_tag σ)
                    (Structured default_payload) (allocated σ)
                  = (Ok tt, with_sent (frame 0 3 (packet_tag σ) []) w' (allocated σ))).
  { apply (binary_send_packet_sends Binary 3 (packet_tag σ) _ []);
      [done | done | unfold u32, PADDING_LENGTH, len; simpl; lia | unfold u32; lia
      | done |].
    unfold frame. rewrite !length_app, !length_encode_uint. exact Hw. }
  set (σ1 := with_sent _ w' (allocated σ)) in *.
  destruct (get_packet_frame Binary σ1 version response tag body rest)
    as (i & _ & _ & E); try done.
  rewrite decide_False in E by done.
  exists i.
  unfold Connection.listen, bind. rewrite exchange_unfold. unfold bind.
  rewrite Hsend. unfold Connection._get_reply, bind.
  cbn [get_packet]. unfold bind. by rewrite E.
Qed.

(** X12. [listen] over the binary codec, on the wire: it sends one
    16-byte packet, a header with the length 16, the version 0, the opcode
    3 and the current tag, and no body; when the daemon answers with a
    [RESULT] packet of version 0 that carries this tag and a number, it
    returns if the number is 0 and raises the generic error with the
    listen-failed message if not.  The tag counter is one higher; the
    registry and the connected flag are as before. *)
Theorem binary_listen_on_the_wire (σ : state) (number : Z) (w' : list nat) :
  connected σ = false ->
  u32 (packet_tag σ) -> u32 number ->
  window_after (window (sock σ)) 16 = Some w' ->
  arrives (frame 0 1 (packet_tag σ) (encode_uint 4 number)) σ ->
  exists σ',
    Connection.listen Binary σ
    = (if decide (number = 0) then Ok tt
       else Raise (MuxError (LISTEN_FAILED number)), σ') /\
    sent σ σ' = frame 0 3 (packet_tag σ) [] /\
    length (sent σ σ') = 16%nat /\
    packet_tag σ' = packet_tag σ + 1 /\
    devices σ' = devices σ /\
    connected σ' = false.
Proof.
  intros Hc Ht Hnum Hw Ha.
  destruct (binary_listen_reply σ number w' Hc Ht Hnum Hw Ha) as [i E].
  eexists. split; [exact E|].
  assert (Hs : sent σ (with_inbox i (with_sent (frame 0 3 (packet_tag σ) []) w'
                                       (allocated σ)))
               = frame 0 3 (packet_tag σ) []).
  { unfold sent. simpl. by rewrite drop_app_length. }
  split; [done|]. split; [|done].
  rewrite Hs. unfold frame. by rewrite !length_app, !length_encode_uint.
Qed.

(** X13. An exchange takes the next packet for its answer, whatever it
    is: when the packet that follows the request is not a [RESULT], an
    attach or detach notification for instance, the exchange raises the
    generic error with the invalid-packet-type message; the packet is used
    up and the registry has not changed. *)
Theorem exchange_needs_result (P : Protocol) (σ σ1 σ2 : state) (request : RequestType)
    (l : loc) (response : RequestType) (tag : Z) (data : Types_Payload Payload.t) :
  send_packet P request (packet_tag σ) (Structured l) (allocated σ) = (Ok tt, σ1) ->
  get_packet P σ1 = (Ok (response, tag, data), σ2) ->
  response <> TYPE_RESULT P ->
  Connection._exchange P request l σ
  = (Raise (MuxError (INVALID_PACKET_TYPE response)), σ2) /\
  devices σ2 = devices σ /\
  (request = TYPE_LISTEN P -> l = default_payload ->
   Connection.listen P σ = (Raise (MuxError (INVALID_PACKET_TYPE response)), σ2)).
Proof.
  intros Hsend Hget Hne.
  assert (Hex : Connection._exchange P request l σ
                = (Raise (MuxError (INVALID_PACKET_TYPE response)), σ2)).
  { rewrite exchange_unfold. unfold bind. rewrite Hsend.
    unfold Connection._get_reply, bind. rewrite Hget.
    by rewrite decide_False by done. }
  split; [done|]. split.
  - pose proof (keeps_get_packet devices P (fun _ _ => eq_refl) σ1) as E2.
    pose proof (keeps_send_packet devices P request (packet_tag σ) (Structured l)
                  (fun _ _ => eq_refl) (fun _ _ => eq_refl) (allocated σ)) as E1.
    rewrite Hget in E2. rewrite Hsend in E1. simpl in E1, E2. congruence.
  - intros -> ->. unfold Connection.listen, bind. by rewrite Hex.
Qed.

(** X14. The poll step reads a packet only when [select] reports the
    socket readable and not in error.  On a timeout it returns and nothing
    has changed.  When the socket is reported in error it closes the
    socket and raises the generic error with the listener-error message,
    without reading, also when the socket is reported readable as well. *)
Theorem process_without_packet (P : Protocol) (ready : select_result) (σ : state) :
  connected σ = false ->
  (xlo ready = false -> rlo ready = false ->
   Connection.process P ready σ = (Ok tt, σ)) /\
  (xlo ready = true ->
   exists σ',
     Connection.process P ready σ = (Raise (MuxError SOCKET_LISTENER_ERROR), σ') /\
     closed (sock σ') = true /\
     inbox (sock σ') = inbox (sock σ) /\
     outbox (sock σ') = outbox (sock σ) /\
     devices σ' = devices σ /\
     packet_tag σ' = packet_tag σ) /\
  (xlo ready = false -> rlo ready = true ->
   Connection.process P ready σ = Connection._process_packet P σ).
Proof.
  intros Hc. unfold Connection.process, bind, get. rewrite Hc.
  split; [|split].
  - by intros -> ->.
  - intros ->. eexists. split; [reflexivity|]. done.
  - by intros -> ->.
Qed.

(** X15. A poll step that reads a [RESULT] packet raises the generic
    error with the unexpected-result message; one that reads a packet
    whose type is none of [RESULT], [DEVICE_ADD] and [DEVICE_REMOVE] raises
    it with the invalid-packet-type message.  The packet is used up and
    the registry has not changed. *)
Theorem poll_unexpected_packet (P : Protocol) (σ σ1 : state) (response : RequestType)
    (tag : Z) (data : Types_Payload Payload.t) :
  connected σ = false ->
  get_packet P σ = (Ok (response, tag, data), σ1) ->
  response <> TYPE_DEVICE_ADD P ->
  response <> TYPE_DEVICE_REMOVE P ->
  Connection.process P {| rlo := true; xlo := false |} σ
  = (Raise (MuxError (if decide (response = TYPE_RESULT P)
                      then UNEXPECTED_RESULT response
                      else INVALID_PACKET_TYPE response)), σ1) /\
  devices σ1 = devices σ.
Proof.
  intros Hc E Hadd Hrem. split.
  - unfold Connection.process, bind, get. rewrite Hc. cbn [xlo rlo].
    unfold Connection._process_packet, bind. rewrite E.
    rewrite !decide_False by done. unfold ret.
    by repeat case_decide.
  - pose proof (keeps_get_packet devices P (fun _ _ => eq_refl) σ) as E1.
    by rewrite E in E1.
Qed.

Lemma remove_matching_length (fuel i : nat) (DeviceID : option Z) (l l' : list Device) :
  remove_matching fuel i DeviceID l = Ok l' -> (length l' <= length l)%nat.
Proof.
  revert i l. induction fuel as [|fuel IH]; intros i l; simpl.
  - by intros [= <-].
  - destruct (l !! i) as [device|]; [|by intros [= <-]].
    case_decide; [|apply IH].
    destruct (list_remove device l) as [r|e] eqn:Hr; [|done]. simpl.
    intros E. apply IH in E. apply list_remove_length in Hr. lia.
Qed.

(** The receive path of the binary codec returns no [DEVICE_ADD]
    packet. *)
Lemma binary_get_packet_no_DEVICE_ADD (σ σ' : state) (response : RequestType)
    (tag : Z) (data : Types_Payload Payload.t) :
  get_packet Binary σ = (Ok (response, tag, data), σ') ->
  response <> TYPE_DEVICE_ADD Binary.
Proof.
  simpl. unfold bind.
  unfold BinaryProtocol.get_packet, bind, lift.
  destruct (BinaryProtocol.__is_connected σ) as [[[]|?] ?]; [|done].
  destruct (SafeStreamSocket.receive _ _) as [[?|?] ?]; [|done].
  destruct (struct.unpack Formats.I _) as [?|?]; [|done].
  destruct (SafeStreamSocket.receive _ _) as [[?|?] ?]; [|done].
  destruct (struct.unpack Formats.III _) as [(v & r & t & [])|?]; [|done].
  case_decide; [|done]. cbn [BinaryProtocol.dispatch_unpack].
  destruct (BinaryProtocol._unpack r _) as [p|?] eqn:Eu; [|done].
  cbn [result_bind]. unfold ret. intros [= <- <- <- <-] [= ->].
  by rewrite unpack_DEVICE_ADD_raises in Eu.
Qed.

Lemma binary_process_packet (σ : state) :
  (exists e, fst (Connection._process_packet Binary σ) = Raise e) /\
  (length (devices (snd (Connection._process_packet Binary σ)))
   <= length (devices σ))%nat.
Proof.
  unfold Connection._process_packet, bind.
  pose proof (keeps_get_packet devices Binary (fun _ _ => eq_refl) σ) as Ek.
  destruct (get_packet Binary σ) as [[[[response tag] data]|e] σ1] eqn:E;
    simpl in Ek; rewrite <- Ek; [|split; [eauto | done]].
  rewrite decide_False by (by eapply binary_get_packet_no_DEVICE_ADD).
  case_decide as Hrem.
  - destruct data as [p|b].
    + unfold get, lift, modify.
      destruct (remove_matching_total (S (length (devices σ1))) 0 (Payload.DeviceID p)
                  (devices σ1)) as [l Hl].
      rewrite Hl. apply remove_matching_length in Hl.
      case_decide; (split; [simpl; eauto | simpl; lia]).
    + split; [simpl; eauto | simpl; lia].
  - unfold ret. case_decide; (split; [simpl; eauto | simpl; lia]).
Qed.

Lemma keeps_devices_exchange (P : Protocol) (request : RequestType) (l : loc) :
  keeps devices (Connection._exchange P request l).
Proof.
  apply keeps_bind; [apply keeps_get|]. intros σ.
  apply keeps_bind; [by apply keeps_modify|]. intros _.
  apply keeps_bind; [by apply keeps_send_packet|]. intros _.
  apply keeps_bind.
  { apply keeps_bind; [by apply keeps_get_packet|].
    intros [[response tag] data]. case_decide; [apply keeps_ret | apply keeps_raise]. }
  intros [tag data]. destruct data; [|apply keeps_raise].
  case_decide; [apply keeps_raise | apply keeps_ret].
Qed.

Lemma keeps_devices_listen (P : Protocol) : keeps devices (Connection.listen P).
Proof.
  apply keeps_bind; [apply keeps_devices_exchange|].
  intros [n|]; [|apply keeps_ret].
  destruct (truthy (Some n)); [apply keeps_raise | apply keeps_ret].
Qed.

Lemma keeps_devices_connect (P : Protocol) (device : Device) (port : Z) :
  keeps devices (Connection.connect P device port).
Proof.
  apply keeps_bind; [done|]. intros l.
  apply keeps_bind; [apply keeps_devices_exchange|]. intros number.
  destruct (truthy number); [|apply keeps_raise].
  apply keeps_bind; [by apply keeps_modify|]. intros _.
  apply keeps_bind; [apply keeps_get|]. intros σ. apply keeps_ret.
Qed.

Lemma keeps_get_pair_record {X} (f : state -> X) (udid : string) :
  (forall s σ, f (set_sock s σ) = f σ) ->
  (forall h σ, f (set_heap h σ) = f σ) ->
  (forall n σ, f (set_next_loc n σ) = f σ) ->
  (forall t σ, f (set_packet_tag t σ) = f σ) ->
  (forall t σ, f (set_tag_log t σ) = f σ) ->
  keeps f (Client.get_pair_record udid).
Proof.
  intros Hs Hh Hn Ht Hl.
  apply keeps_bind; [apply keeps_get|]. intros σ'.
  apply keeps_bind; [apply keeps_modify; intros; by rewrite Hl, Ht|]. intros _.
  apply keeps_bind; [intros σ; unfold new_Payload; simpl; by rewrite Hn, Hh|].
  intros l.
  apply keeps_bind; [by apply keeps_send_packet|]. intros _.
  apply keeps_bind; [by apply keeps_get_packet|].
  intros [[response tag] data]. case_decide; [apply keeps_raise|].
  destruct data as [p|b]; [|apply keeps_raise].
  destruct (Payload.PairRecordData p); [apply keeps_lift | apply keeps_raise].
Qed.

Lemma binary_run_devices (o : operation) (σ : state) :
  (length (devices (snd (run Binary o σ))) <= length (devices σ))%nat.
Proof.
  destruct o as [request tag payload| |ready| |device port|udid]; cbn [run].
  - by rewrite keeps_send_packet.
  - match goal with |- context [snd (?m σ)] => assert (Hk : keeps devices m) end.
    { apply keeps_bind; [by apply keeps_get_packet|]. intros _. apply keeps_ret. }
    by rewrite Hk.
  - unfold Connection.process. unfold bind at 1, get.
    destruct (connected σ); [done|]. destruct (xlo ready); [done|].
    destruct (rlo ready); [apply binary_process_packet | done].
  - by rewrite keeps_devices_listen.
  - match goal with |- context [snd (?m σ)] => assert (Hk : keeps devices m) end.
    { apply keeps_bind; [apply keeps_devices_connect|]. intros _. apply keeps_ret. }
    by rewrite Hk.
  - match goal with |- context [snd (?m σ)] => assert (Hk : keeps devices m) end.
    { apply keeps_bind; [by apply keeps_get_pair_record|]. intros _. apply keeps_ret. }
    by rewrite Hk.
Qed.

(** X16. Over the binary codec the registry never gains a device.  The
    codec decodes no [DEVICE_ADD] packet, so the poll step gets none; on
    every packet it does get, and on every failure to get one, the
    processing of the packet ends in an exception.  Whatever a caller does
    with a connection on the binary codec, the registry is not longer
    afterwards, and the registry of a new connection stays empty. *)
Theorem binary_registry_never_grows (σ : state) (ops : list operation) (s : socket) :
  (exists e, fst (Connection._process_packet Binary σ) = Raise e) /\
  (forall response tag data σ',
     get_packet Binary σ = (Ok (response, tag, data), σ') ->
     response <> TYPE_DEVICE_ADD Binary) /\
  (length (devices (run_all Binary ops σ)) <= length (devices σ))%nat /\
  devices (run_all Binary ops (Connection.__init__ s)) = [].
Proof.
  assert (Hall : forall τ,
            (length (devices (run_all Binary ops τ)) <= length (devices τ))%nat).
  { induction ops as [|o ops IH]; intros τ; [done|]. simpl.
    etrans; [apply IH | apply binary_run_devices]. }
  split; [apply binary_process_packet|]. split.
  - intros response tag data σ'. apply binary_get_packet_no_DEVICE_ADD.
  - split; [apply Hall|].
    specialize (Hall (Connection.__init__ s)). simpl in Hall.
    destruct (devices _); [done | simpl in Hall; lia].
Qed.

(** X17. Nothing but [connect] sets the connected flag, and [connect]
    only when it returns: after any other operation, and after a [connect]
    that raises, a connection that was not connected is still not
    connected. *)
Theorem only_connect_connects (P : Protocol) (o : operation) (σ : state) :
  connected σ = false ->
  connected (snd (run P o σ)) = true ->
  exists device port, o = op_connect device port /\ fst (run P o σ) = Ok tt.
Proof.
  intros Hc.
  destruct o as [request tag payload| |ready| |device port|udid]; simpl.
  - rewrite keeps_send_packet by done. congruence.
  - match goal with |- context [snd (?m σ)] => assert (Hk : keeps connected m) end.
    { apply keeps_bind; [by apply keeps_get_packet|]. intros _. apply keeps_ret. }
    rewrite Hk. congruence.
  - unfold Connection.process. unfold bind at 1, get. rewrite Hc.
    destruct (xlo ready); [simpl; congruence|].
    destruct (rlo ready); [|simpl; congruence].
    match goal with |- context [snd (?m σ)] => assert (Hk : keeps connected m) end.
    { apply keeps_bind; [by apply keeps_get_packet|].
      intros [[response tag] data]. case_decide.
      - destruct data as [p|b]; [|apply keeps_raise].
        destruct (Payload.Properties p);
          (apply keeps_bind; [done|]; intros d; by apply keeps_modify).
      - apply keeps_bind.
        + case_decide; [|apply keeps_ret].
          destruct data as [p|b]; [|apply keeps_raise].
          apply keeps_bind; [apply keeps_get|]. intros σ'.
          apply keeps_bind; [apply keeps_lift|]. intros l.
          by apply keeps_modify.
        + intros _. case_decide; apply keeps_raise. }
    rewrite Hk. congruence.
  - match goal with |- context [snd (?m σ)] => assert (Hk : keeps connected m) end.
    { apply keeps_bind; [apply keeps_connected_exchange|].
      intros [n|]; [|apply keeps_ret].
      destruct (truthy (Some n)); [apply keeps_raise | apply keeps_ret]. }
    rewrite Hk. congruence.
  - intros Hc'. exists device, port. split; [done|].
    revert Hc'. unfold bind at 1 2. unfold Connection.connect, bind, new_Payload.
    match goal with
    | |- context [Connection._exchange P ?r ?l ?s] =>
        pose proof (keeps_connected_exchange P r l s) as E;
        destruct (Connection._exchange P r l s) as [[number|e] σ1]
    end; simpl in *; [|congruence].
    destruct (truthy number); simpl; [done|congruence].
  - match goal with |- context [snd (?m σ)] => assert (Hk : keeps connected m) end.
    { apply keeps_bind; [by apply keeps_get_pair_record|]. intros _. apply keeps_ret. }
    rewrite Hk. congruence.
Qed.

Lemma idents_distinct (l : list Device) :
  NoDup (ident <$> l) ->
  forall j k a b, l !! j = Some a -> l !! k = Some b -> ident a = ident b -> j = k.
Proof.
  intros Hnd j k a b Hj Hk Hab.
  apply (proj1 (NoDup_alt _) Hnd j k (ident a)).
  - by rewrite list_lookup_fmap, Hj.
  - by rewrite list_lookup_fmap, Hk, Hab.
Qed.

Lemma filter_delete_not {A} (P : A -> Prop) `{!forall x, Decision (P x)}
    (l : list A) (i : nat) (d : A) :
  l !! i = Some d -> ~ P d -> filter P (delete i l) = filter P l.
Proof.
  intros Hi Hd. rewrite delete_take_drop.
  rewrite <- (take_drop_middle l i d Hi) at 3.
  by rewrite !list.filter_app, filter_cons_False.
Qed.

(** The removal takes nothing but devices with the id it is given. *)
Lemma remove_matching_keeps_others (fuel i : nat) (DeviceID : option Z)
    (l l' : list Device) :
  NoDup (ident <$> l) ->
  remove_matching fuel i DeviceID l = Ok l' ->
  l' `sublist_of` l /\
  filter (fun d => device_id d <> DeviceID) l'
  = filter (fun d => device_id d <> DeviceID) l.
Proof.
  revert i l. induction fuel as [|fuel IH]; intros i l Hnd; simpl.
  - by intros [= <-].
  - destruct (l !! i) as [d|] eqn:Hi; [|by intros [= <-]].
    case_decide as Hd; [|by apply IH].
    rewrite (list_remove_at l i d Hi)
      by (intros j a Hj Ha; by eapply (idents_distinct l Hnd)).
    simpl. intros E. apply IH in E as [Hsub Hf].
    + split; [etrans; [done | apply sublist_delete]|].
      rewrite Hf. apply (filter_delete_not _ l i d Hi). by intros Hn.
    + eapply sublist_NoDup; [done|]. apply fmap_sublist, sublist_delete.
Qed.

(** X18. What a [DEVICE_REMOVE] packet removes from the registry, the
    devices of which are distinct objects.  Whatever the registry, the
    devices with another id than the one of the packet all stay, in their
    order, and nothing is added.  When no two neighbours in the registry
    both have the id of the packet, every device with that id goes.  (The
    poll step then raises, as on every [DEVICE_REMOVE] packet.) *)
Theorem poll_device_remove_which (P : Protocol) (σ σ1 : state) (tag : Z)
    (p : Payload.t) :
  connected σ = false ->
  get_packet P σ = (Ok (TYPE_DEVICE_REMOVE P, tag, Structured p), σ1) ->
  NoDup (ident <$> devices σ) ->
  let kept := fun d => device_id d <> Payload.DeviceID p in
  let after :=
    devices (snd (Connection.process P {| rlo := true; xlo := false |} σ)) in
  after `sublist_of` devices σ /\
  filter kept after = filter kept (devices σ) /\
  ((forall j a b,
      devices σ !! j = Some a -> devices σ !! S j = Some b ->
      device_id a = Payload.DeviceID p -> device_id b <> Payload.DeviceID p) ->
   after = filter kept (devices σ)).
Proof.
  intros Hc E Hnd kept after.
  pose proof (keeps_get_packet devices P (fun _ _ => eq_refl) σ) as Ek.
  rewrite E in Ek. simpl in Ek.
  destruct (remove_matching_total (S (length (devices σ1))) 0 (Payload.DeviceID p)
              (devices σ1)) as [l Hl].
  assert (Hafter : after = l).
  { subst after. destruct (opcodes_distinct P) as [Hadd Hres].
    unfold Connection.process, bind, get. rewrite Hc. cbn [xlo rlo].
    unfold Connection._process_packet, bind. rewrite E.
    rewrite decide_False by done. rewrite decide_True by done.
    unfold get, lift, modify. rewrite Hl.
    by rewrite decide_True by done. }
  rewrite Hafter. rewrite Ek in Hl.
  destruct (remove_matching_keeps_others _ _ _ _ _ Hnd Hl) as [Hsub Hf].
  split; [done|]. split; [done|].
  intros Hnb. rewrite remove_matching_filter in Hl.
  - by injection Hl as <-.
  - by apply idents_distinct.
  - done.
Qed.

End ConnectionFurther.

(** ** The plist codec *)

Section PlistFurther.
Context `{ByteOrder} `{Plistlib}.

(** X19. What the receive path of the plist codec refuses, of a packet
    with the version 1 that arrives whole.  A packet whose type is not 8
    raises the generic error with the invalid-incoming-response-type
    message.  A record whose [Properties] is not a dictionary, or is a
    dictionary with a key that is no field of the [Properties] record,
    raises [TypeError], and so does a record with a key of its own that is
    no field of the payload: the two dataclasses are made with the keys of
    the record as keywords. *)
Theorem plist_get_packet_refuses (σ : state) (response tag : Z) (body : bytes) :
  connected σ = false ->
  u32 (PADDING_LENGTH + len body) -> u32 response -> u32 tag ->
  arrives (frame (VERSION Plist) response tag body) σ ->
  (response <> TYPE_PLIST ->
   fst (PlistProtocol.get_packet σ)
   = Raise (MuxError (INVALID_INCOMING_RESPONSE_TYPE (RInt response)))) /\
  (forall d, response = TYPE_PLIST -> loads body = Ok d ->
     (forall x, d !! "Properties" = Some (plist.Scalar x) ->
        fst (PlistProtocol.get_packet σ) = Raise TypeError) /\
     (forall q k x, d !! "Properties" = Some (plist.Dict q) ->
        q !! k = Some x -> k ∉ Properties_keywords ->
        fst (PlistProtocol.get_packet σ) = Raise TypeError) /\
     (forall q k v,
        Properties_init match d !! "Properties" with
                        | Some v => v
                        | None => plist.Dict ∅
                        end = Ok q ->
        d !! k = Some v -> k <> "Properties" -> k ∉ Payload_keywords ->
        fst (PlistProtocol.get_packet σ) = Raise TypeError)).
Proof.
  intros Hc Hl Hr Ht [Hne [rest Hcat]]. split.
  - intros Hn.
    destruct (get_packet_frame Plist σ (VERSION Plist) response tag body rest Hc Hl
                (u32_VERSION Plist) Hr Ht Hne Hcat) as (i & _ & _ & E).
    unfold PlistProtocol.get_packet, bind. rewrite E.
    rewrite decide_True by done. cbn [BinaryProtocol.dispatch_unpack].
    by rewrite decide_True by done.
  - intros d -> Hd.
    destruct (plist_get_packet_frame σ tag body rest d Hc Hl Ht Hne Hcat Hd)
      as (i & _ & _ & ->).
    cbn [fst]. split; [|split].
    + by intros x ->.
    + intros q k x -> Hk Hnk. cbn [Properties_init].
      rewrite decide_False; [done|].
      intros Hall. by apply Hnk, (Hall k x).
    + intros q k v -> Hk Hnp Hnk. cbn [result_bind].
      unfold Payload_init. rewrite decide_False; [done|].
      intros Hall. apply Hnk, (Hall k v). by rewrite lookup_delete_ne.
Qed.

(** X20. A payload whose [Properties] record has a field that is [None]
    is not sent by the plist codec: [remove_none] takes the [None] values
    out of the top level of the record only, the one inside [Properties]
    stays, and [plistlib.dumps] does not serialise it.  Nothing goes to the
    socket. *)
Theorem plist_send_packet_partial_properties (request : RequestType) (tag : Z)
    (l : loc) (σ : state) (q : Properties.t) :
  Payload.Properties (heap σ l) = Some q ->
  Properties.ConnectionType q = None \/ Properties.DeviceID q = None \/
  Properties.LocationID q = None \/ Properties.ProductID q = None \/
  Properties.SerialNumber q = None \/ Properties.UDID q = None ->
  fst (PlistProtocol.send_packet request tag l σ) <> Ok tt /\
  sock (snd (PlistProtocol.send_packet request tag l σ)) = sock σ.
Proof.
  intros Hq Hnone.
  assert (Hk : exists k, Properties_asdict q !! k = Some plist.VNone).
  { destruct q as [a b c d e f]. simpl in Hnone.
    destruct Hnone as [-> | [-> | [-> | [-> | [-> | ->]]]]];
      [exists "ConnectionType" | exists "DeviceID" | exists "LocationID"
      | exists "ProductID" | exists "SerialNumber" | exists "UDID"];
      reflexivity. }
  destruct Hk as [k Hk].
  unfold PlistProtocol.send_packet, bind, lift, modify, get.
  destruct (PlistProtocol.__request_type request) as [s|e]; [|done].
  cbn [heap set_heap]. rewrite decide_True by done.
  destruct (dumps _) as [body|e] eqn:Hd; [|done].
  exfalso. apply dumps_None in Hd.
  pose proof (remove_none_Properties
                (Payload.set_MessageType (Some s) (heap σ l))) as Hp.
  cbn [Payload.Properties Payload.set_MessageType] in Hp. rewrite Hq in Hp.
  apply (map_Forall_lookup_1 _ _ _ _ Hd) in Hp. cbn in Hp.
  by apply (map_Forall_lookup_1 _ _ _ _ Hp) in Hk.
Qed.

(** The record of an answer that carries a number. *)
Lemma Payload_init_Result (number : Z) :
  Payload_init
    (delete "Properties"
       (<["MessageType" := plist.Scalar (plist.VStr "Result")]>
          (<["Number" := plist.Scalar (plist.VInt number)]> ∅)))
    Properties.empty
  = Ok (Payload.mk "qt4i-usbmuxd" "tcprelay" (Some "Result") (Some number) None None
          (Some Properties.empty) None None).
Proof. vm_compute. reflexivity. Qed.

(** [listen] over the plist codec when the answer is the record of a
    [Result] with the tag of the request. *)
Lemma plist_listen_reply (σ : state) (body reply : bytes) (number : Z)
    (w' : list nat) :
  connected σ = false ->
  u32 (packet_tag σ) ->
  dumps (PlistProtocol.remove_none
           (asdict (Payload.set_MessageType (Some "Listen") (heap σ default_payload))))
  = Ok body ->
  u32 (PADDING_LENGTH + len body) ->
  window_after (window (sock σ))
    (length (frame (VERSION Plist) TYPE_PLIST (packet_tag σ) body)) = Some w' ->
  u32 (PADDING_LENGTH + len reply) ->
  arrives (frame (VERSION Plist) TYPE_PLIST (packet_tag σ) reply) σ ->
  loads reply = Ok (<["MessageType" := plist.Scalar (plist.VStr "Result")]>
                      (<["Number" := plist.Scalar (plist.VInt number)]> ∅)) ->
  exists i,
    Connection.listen Plist σ
    = (if decide (number = 0) then Ok tt
       else Raise (MuxError (LISTEN_FAILED number)),
       with_inbox i
         (with_sent (frame (VERSION Plist) TYPE_PLIST (packet_tag σ) body) w'
            (stamped "Listen" default_payload (allocated σ)))).
Proof.
  intros Hc Ht Hd Hl Hw Hl' [Hne [rest Hcat]] Hloads.
  assert (Hsend : send_packet Plist (TYPE_LISTEN Plist) (packet_tag σ)
                    (Structured default_payload) (allocated σ)
                  = (Ok tt, with_sent (frame (VERSION Plist) TYPE_PLIST (packet_tag σ) body)
                              w' (stamped "Listen" default_payload (allocated σ)))).
  { by apply (plist_send_packet_ok (RStr "Listen") "Listen"). }
  set (σ1 := with_sent _ w' _) in *.
  destruct (plist_get_packet_frame σ1 (packet_tag σ) reply rest _ Hc Hl' Ht Hne Hcat
              Hloads) as (i & _ & _ & E).
  rewrite lookup_insert_ne, lookup_insert_ne, lookup_empty in E by done.
  rewrite Properties_init_empty in E. cbn [result_bind] in E.
  rewrite Payload_init_Result in E. cbn [result_bind Payload.MessageType
    PlistProtocol.or_empty] in E.
  exists i.
  unfold Connection.listen, bind. rewrite exchange_unfold. unfold bind.
  rewrite Hsend. unfold Connection._get_reply, bind.
  cbn [get_packet]. unfold bind. rewrite E. unfold ret.
  rewrite decide_True by done.
  rewrite decide_False by (intros Hn; by apply Hn). simpl.
  case_decide as Hn; [by subst number|].
  by rewrite (proj2 (Z.eqb_neq number 0) Hn).
Qed.

(** X21. [listen] over the plist codec, on the wire: it writes [Listen]
    into the [MessageType] of the default payload, the one object that
    every exchange without a payload of its own shares, and sends one
    packet of version 1 and type 8 with the current tag, whose body is the
    serialised record of that payload; when the daemon answers with a
    packet of version 1 and type 8 that carries this tag and the record
    of a [Result] with a number, it returns if the number is 0 and raises
    the generic error with the listen-failed message if not. *)
Theorem plist_listen_on_the_wire (σ : state) (body reply : bytes) (number : Z)
    (w' : list nat) :
  connected σ = false ->
  u32 (packet_tag σ) ->
  dumps (PlistProtocol.remove_none
           (asdict (Payload.set_MessageType (Some "Listen") (heap σ default_payload))))
  = Ok body ->
  u32 (PADDING_LENGTH + len body) ->
  window_after (window (sock σ))
    (length (frame (VERSION Plist) TYPE_PLIST (packet_tag σ) body)) = Some w' ->
  u32 (PADDING_LENGTH + len reply) ->
  arrives (frame (VERSION Plist) TYPE_PLIST (packet_tag σ) reply) σ ->
  loads reply = Ok (<["MessageType" := plist.Scalar (plist.VStr "Result")]>
                      (<["Number" := plist.Scalar (plist.VInt number)]> ∅)) ->
  exists σ',
    Connection.listen Plist σ
    = (if decide (number = 0) then Ok tt
       else Raise (MuxError (LISTEN_FAILED number)), σ') /\
    sent σ σ' = frame (VERSION Plist) TYPE_PLIST (packet_tag σ) body /\
    Payload.MessageType (heap σ' default_payload) = Some "Listen" /\
    packet_tag σ' = packet_tag σ + 1.
Proof.
  intros Hc Ht Hd Hl Hw Hl' Ha Hloads.
  destruct (plist_listen_reply σ body reply number w' Hc Ht Hd Hl Hw Hl' Ha Hloads)
    as [i E].
  eexists. split; [exact E|]. split; [|split].
  - unfold sent. simpl. by rewrite drop_app_length.
  - reflexivity.
  - done.
Qed.

(** X22. The pairing-record helper, on the wire: it sends one packet of
    version 1 and type 8 with the current tag, whose body is the
    serialised record of a payload with the [MessageType]
    [ReadPairRecord] and the [PairRecordID] it is given, and takes the next
    packet for the answer, whatever its [MessageType].  When the tag of the
    answer is another than the one sent, it raises [KeyError]: the message
    of the error it is about to raise is formatted with a keyword the
    template does not have.  With the right tag it returns what [plistlib]
    reads from the [PairRecordData] of the answer, and raises the generic
    error with the invalid-payload message when the answer has none. *)
Theorem get_pair_record_on_the_wire (udid : string) (σ : state) (body reply : bytes)
    (tag' : Z) (w' : list nat) (d : gmap string plist.value) (q : Properties.t)
    (p : Payload.t) :
  connected σ = false ->
  u32 (packet_tag σ) ->
  dumps (PlistProtocol.remove_none
           (asdict (Payload.mk "qt4i-usbmuxd" "tcprelay" (Some Client.TYPE_READ_PAIR)
                      None None None None (Some udid) None))) = Ok body ->
  u32 (PADDING_LENGTH + len body) ->
  window_after (window (sock σ))
    (length (frame (VERSION Plist) TYPE_PLIST (packet_tag σ) body)) = Some w' ->
  u32 tag' -> u32 (PADDING_LENGTH + len reply) ->
  arrives (frame (VERSION Plist) TYPE_PLIST tag' reply) σ ->
  loads reply = Ok d ->
  Properties_init match d !! "Properties" with
                  | Some v => v
                  | None => plist.Dict ∅
                  end = Ok q ->
  Payload_init (delete "Properties" d) q = Ok p ->
  exists σ',
    Client.get_pair_record udid σ
    = (if decide (tag' <> packet_tag σ) then Raise (KeyError (RStr "expected"))
       else match Payload.PairRecordData p with
            | Some record => loads record
            | None => Raise (MuxError INVALID_PAYLOAD)
            end, σ') /\
    sent σ σ' = frame (VERSION Plist) TYPE_PLIST (packet_tag σ) body /\
    packet_tag σ' = packet_tag σ + 1.
Proof.
  intros Hc Ht Hd Hl Hw Ht' Hl' [Hne [rest Hcat]] Hloads Hq Hp.
  unfold Client.get_pair_record.
  unfold bind at 1, get. unfold bind at 1, modify. fold (allocated σ).
  unfold bind at 1, new_Payload.
  set (l := next_loc (allocated σ)).
  set (σa := set_next_loc (S l) _).
  assert (Hsend : send_packet Plist (RStr Client.TYPE_READ_PAIR) (packet_tag σ)
                    (Structured l) σa
                  = (Ok tt, with_sent (frame (VERSION Plist) TYPE_PLIST (packet_tag σ) body)
                              w' (stamped Client.TYPE_READ_PAIR l σa))).
  { apply (plist_send_packet_ok (RStr Client.TYPE_READ_PAIR) Client.TYPE_READ_PAIR);
      try done.
    subst σa. cbn [heap set_next_loc set_heap]. by rewrite decide_True. }
  unfold bind at 1. rewrite Hsend.
  set (σ1 := with_sent _ w' _).
  destruct (plist_get_packet_frame σ1 tag' reply rest d Hc Hl' Ht' Hne Hcat Hloads)
    as (i & _ & _ & E).
  rewrite Hq in E. cbn [result_bind] in E. rewrite Hp in E. cbn [result_bind] in E.
  exists (with_inbox i σ1). split; [|split].
  - unfold bind at 1. cbn [get_packet]. unfold bind at 1. rewrite E. unfold ret.
    case_decide; [done|]. by destruct (Payload.PairRecordData p).
  - unfold sent. simpl. by rewrite drop_app_length.
  - done.
Qed.

End PlistFurther.

(** ** The address of the daemon *)

(** X23. The address that [Socket()(socket)] gives is never empty, and
    it is one that a socket of the family it comes with connects to
    exactly when the platform is [win32] or [cygwin], or the caller gives no
    tuple other than the empty one.  On [win32] and [cygwin] it is the TCP
    address 127.0.0.1:27015 with [AF_INET], whatever the caller asks for.
    Elsewhere the family is [AF_UNIX] and the address is the caller's,
    unless the caller gives none or an empty one: then it is the path
    [/var/run/usbmuxd].  So a tuple of a host and a port that the caller
    gives elsewhere is passed on as it is, with [AF_UNIX]: the two do not
    fit. *)
Theorem socket_address_and_family (platform : string)
    (socket : option Socket.Address) :
  Socket.truthy (fst (Socket.__call__ platform socket)) = true /\
  (Socket.fits (fst (Socket.__call__ platform socket))
     (snd (Socket.__call__ platform socket)) = true <->
   platform ∈ Socket.WINDOWS \/
   (forall items, socket = Some (Socket.AddressTuple items) -> items = [])) /\
  (platform ∈ Socket.WINDOWS ->
   Socket.__call__ platform socket
   = (Socket.AddressTuple [Socket.Host "127.0.0.1"; Socket.Port 27015],
      Socket.AF_INET)) /\
  (platform ∉ Socket.WINDOWS ->
   snd (Socket.__call__ platform socket) = Socket.AF_UNIX /\
   (forall a, socket = Some a -> Socket.truthy a = true ->
      fst (Socket.__call__ platform socket) = a) /\
   (socket = None \/ (exists a, socket = Some a /\ Socket.truthy a = false) ->
      fst (Socket.__call__ platform socket) = Socket.AddressStr "/var/run/usbmuxd")).
Proof.
  unfold Socket.__call__, Socket.__address, Socket.__socket, Socket.is_nt.
  split; [|split; [|split]].
  - cbn [fst]. case_bool_decide; [done|].
    destruct socket as [a|]; [|done].
    by destruct (Socket.truthy a) eqn:E.
  - cbn [fst snd]. case_bool_decide as Hw; [by split; [left|]|].
    split.
    + intros Hfit. right. intros items ->.
      destruct items as [|i items]; [done|]. by simpl in Hfit.
    + intros [Hin | Hitems]; [done|].
      destruct socket as [[items | path | buffer]|]; simpl; try done.
      * by rewrite (Hitems items eq_refl).
      * by destruct path.
      * by destruct buffer.
  - intros Hw. by rewrite bool_decide_eq_true_2.
  - intros Hw. rewrite bool_decide_eq_false_2 by done. cbn [fst snd].
    split; [done|]. split.
    + by intros a -> ->.
    + by intros [-> | (a & -> & ->)].
Qed.

(** ** The text of a device *)

(** X24. [str(device)] needs the three numbers of the device: it is a
    text when the device id, the product id and the location are all
    there, and raises [TypeError] when one of them is [None], as it is for
    a device made from an attach notification without the property.  The
    serial number may be missing: it is then printed as [None], so that a
    device without a serial number and one whose serial number is the
    string [None] have the same text. *)
Theorem Device_str_needs_numbers (d : Device) :
  ((exists text, Device_str d = Ok text) <->
   device_id d <> None /\ usb_product_id d <> None /\ location d <> None) /\
  (device_id d = None \/ usb_product_id d = None \/ location d = None ->
   Device_str d = Raise TypeError) /\
  (forall n i p l,
     Device_str {| ident := n; device_id := Some i; usb_product_id := Some p;
                   serial := None; location := Some l |}
     = Device_str {| ident := S n; device_id := Some i; usb_product_id := Some p;
                     serial := Some "None"; location := Some l |}).
Proof.
  unfold Device_str. split; [|split].
  - destruct (device_id d), (usb_product_id d), (location d); split;
      try (intros [text Ht]; done); try (by intros (? & ? & ?)); eauto.
  - by intros [-> | [-> | ->]]; destruct (device_id d), (usb_product_id d).
  - done.
Qed.

(** ** [USBMux] *)

Section USBMuxFurther.
Context `{ByteOrder} `{Plistlib}.

Lemma keeps_connected_listen (P : Protocol) : keeps connected (Connection.listen P).
Proof.
  apply keeps_bind; [apply keeps_connected_exchange|].
  intros [n|]; [|apply keeps_ret].
  destruct (truthy (Some n)); [apply keeps_raise | apply keeps_ret].
Qed.

Lemma keeps_connected_process_packet (P : Protocol) :
  keeps connected (Connection._process_packet P).
Proof.
  apply keeps_bind; [by apply keeps_get_packet|].
  intros [[response tag] data]. case_decide.
  - destruct data as [p|b]; [|apply keeps_raise].
    destruct (Payload.Properties p);
      (apply keeps_bind; [done|]; intros d; by apply keeps_modify).
  - apply keeps_bind.
    + case_decide; [|apply keeps_ret].
      destruct data as [p|b]; [|apply keeps_raise].
      apply keeps_bind; [apply keeps_get|]. intros σ'.
      apply keeps_bind; [apply keeps_lift|]. intros l.
      by apply keeps_modify.
    + intros _. case_decide; apply keeps_raise.
Qed.

Lemma keeps_process {X} (f : state -> X) (P : Protocol) (ready : select_result) :
  (forall s σ, f (set_sock s σ) = f σ) ->
  keeps f (Connection._process_packet P) ->
  keeps f (Connection.process P ready).
Proof.
  intros Hs Hp.
  apply keeps_bind; [apply keeps_get|]. intros σ.
  destruct (connected σ); [apply keeps_raise|].
  destruct (xlo ready).
  - apply keeps_bind; [|intros _; apply keeps_raise].
    apply keeps_modify. intros τ. apply Hs.
  - destruct (rlo ready); [done | apply keeps_ret].
Qed.

Lemma process_listener (P : Protocol) (ready : select_result) (σ : state) :
  connected (snd (Connection.process P ready σ)) = connected σ /\
  tags (snd (Connection.process P ready σ)) = tags σ.
Proof.
  split.
  - apply keeps_process; [done | apply keeps_connected_process_packet].
  - apply keeps_process; [done | apply keeps_tags_process_packet].
Qed.

(** X25. How a [USBMux] finds the protocol of the daemon.  It first
    listens over the binary codec on a connection of its own.  When the
    daemon answers with a [RESULT] packet of version 0 for the tag 1, the
    object is made with the binary codec and the version 0 if the number is
    0, and the constructor raises the generic error with the listen-failed
    message if not: there is no second attempt.  When the packet that comes
    back has another version than 0, it listens over the plist codec on a
    second connection, whose first tag is 1 again; when the daemon there
    answers with the record of a [Result] for the tag 1, the object is made
    with the plist codec and the version 1 if the number is 0, and the
    constructor raises the generic error with the listen-failed message if
    not. *)
Theorem usbmux_finds_the_protocol (s1 s2 : socket) (world : state) (w1 : list nat) :
  window_after (window s1) 16 = Some w1 ->
  (forall number,
     u32 number ->
     arrives (frame 0 1 1 (encode_uint 4 number)) (new_Connection s1 world) ->
     (number = 0 ->
      exists self,
        fst (USBMux.__init__ s1 s2 world) = Ok self /\
        USBMux.protocol self = Binary /\ USBMux.version self = 0 /\
        sent (new_Connection s1 world) (USBMux.listener self) = frame 0 3 1 []) /\
     (number <> 0 ->
      fst (USBMux.__init__ s1 s2 world) = Raise (MuxError (LISTEN_FAILED number)))) /\
  (forall version response tag body body2 reply number w2,
     u32 (PADDING_LENGTH + len body) -> u32 version -> u32 response -> u32 tag ->
     version <> 0 ->
     arrives (frame version response tag body) (new_Connection s1 world) ->
     dumps (PlistProtocol.remove_none
              (asdict (Payload.set_MessageType (Some "Listen")
                         (heap world default_payload)))) = Ok body2 ->
     u32 (PADDING_LENGTH + len body2) ->
     window_after (window s2) (length (frame (VERSION Plist) TYPE_PLIST 1 body2))
     = Some w2 ->
     u32 (PADDING_LENGTH + len reply) ->
     arrives (frame (VERSION Plist) TYPE_PLIST 1 reply) (new_Connection s2 world) ->
     loads reply = Ok (<["MessageType" := plist.Scalar (plist.VStr "Result")]>
                         (<["Number" := plist.Scalar (plist.VInt number)]> ∅)) ->
     (number = 0 ->
      exists self,
        fst (USBMux.__init__ s1 s2 world) = Ok self /\
        USBMux.protocol self = Plist /\ USBMux.version self = 1 /\
        sent (new_Connection s2 world) (USBMux.listener self)
        = frame (VERSION Plist) TYPE_PLIST 1 body2) /\
     (number <> 0 ->
      fst (USBMux.__init__ s1 s2 world) = Raise (MuxError (LISTEN_FAILED number)))).
Proof.
  intros Hw1.
  assert (Ht1 : u32 1) by (unfold u32; lia).
  split.
  - intros number Hnum Ha.
    destruct (binary_listen_reply (new_Connection s1 world) number w1
                eq_refl Ht1 Hnum Hw1 Ha) as [i E].
    unfold USBMux.__init__, USBMux.__connect. rewrite E. split.
    + intros ->. rewrite decide_True by done. eexists. split; [reflexivity|].
      split; [done|]. split; [done|].
      unfold sent. simpl. by rewrite drop_app_length.
    + intros Hn. by rewrite decide_False by done.
  - intros version response tag body body2 reply number w2 Hl Hv Hr Ht Hver Ha
      Hd Hl2 Hw2 Hlr Ha2 Hloads.
    destruct (binary_listen_other_version (new_Connection s1 world) version response
                tag body w1 eq_refl Ht1 Hw1 Hl Hv Hr Ht Hver Ha) as [i E].
    assert (E1 : USBMux.__init__ s1 s2 world
                 = USBMux.__connect Plist 1 s2
                     (with_inbox i (with_sent (frame 0 3 1 []) w1
                                      (allocated (new_Connection s1 world))))).
    { unfold USBMux.__init__. unfold USBMux.__connect at 1. by rewrite E. }
    rewrite E1. clear E E1.
    set (c := with_inbox i _).
    destruct (plist_listen_reply (new_Connection s2 c) body2 reply number w2
                eq_refl Ht1 Hd Hl2 Hw2 Hlr Ha2 Hloads) as [j E2].
    unfold USBMux.__connect. rewrite E2. split.
    + intros ->. rewrite decide_True by done. eexists. split; [reflexivity|].
      split; [done|]. split; [done|].
      unfold sent. simpl. by rewrite drop_app_length.
    + intros Hn. by rewrite decide_False by done.
Qed.

Lemma usbmux_connect_listener (P : Protocol) (version : Z) (s : socket)
    (world c : state) (self : USBMux.t) :
  USBMux.__connect P version s world = (Ok self, c) ->
  connected (USBMux.listener self) = false /\
  packet_tag (USBMux.listener self) = 2 /\
  USBMux.protocol self = P /\ USBMux.version self = version.
Proof.
  unfold USBMux.__connect.
  pose proof (keeps_connected_listen P (new_Connection s world)) as Hc.
  pose proof (run_tags P op_listen (new_Connection s world)) as Ht.
  cbn [run is_exchange] in Ht.
  destruct (Connection.listen P (new_Connection s world)) as [[[]|e] c'];
    [|done].
  intros [= <- <-]. simpl in Hc, Ht. unfold tags in Ht.
  injection Ht as Ht _. by repeat split.
Qed.

(** The listener of a [USBMux]: not connected, and done with its one
    exchange. *)
Definition listening (self : USBMux.t) : Prop :=
  connected (USBMux.listener self) = false /\
  packet_tag (USBMux.listener self) = 2.

Lemma usbmux_init_listening (s1 s2 : socket) (world world' : state) (self : USBMux.t) :
  USBMux.__init__ s1 s2 world = (Ok self, world') ->
  listening self /\
  (USBMux.protocol self = Binary /\ USBMux.version self = 0 \/
   USBMux.protocol self = Plist /\ USBMux.version self = 1).
Proof.
  unfold USBMux.__init__.
  destruct (USBMux.__connect Binary 0 s1 world) as [[self1|e] c] eqn:E1.
  - intros [= <- <-].
    destruct (usbmux_connect_listener _ _ _ _ _ _ E1) as (? & ? & ? & ?).
    split; [by split | by left].
  - destruct (isinstance_MuxVersionError e); [|done].
    intros E2.
    destruct (usbmux_connect_listener _ _ _ _ _ _ E2) as (? & ? & ? & ?).
    split; [by split | by right].
Qed.

Lemma usbmux_run_listening (o : usbmux_operation) (self : USBMux.t) :
  listening self ->
  listening (usbmux_run o self) /\
  USBMux.protocol (usbmux_run o self) = USBMux.protocol self /\
  USBMux.version (usbmux_run o self) = USBMux.version self.
Proof.
  intros [Hc Ht]. destruct o as [ready|s device port]; cbn [usbmux_run].
  - unfold USBMux.process.
    destruct (process_listener (USBMux.protocol self) ready (USBMux.listener self))
      as [Ec Et].
    destruct (Connection.process _ ready _) as [r c]. simpl in *.
    unfold tags in Et. injection Et as Et _.
    split; [split; simpl; congruence | done].
  - unfold USBMux.connect.
    destruct (Connection.connect _ device port _) as [r connector]. simpl.
    split; [split; simpl; congruence | done].
Qed.

Lemma usbmux_run_all_listening (ops : list usbmux_operation) (self : USBMux.t) :
  listening self ->
  listening (usbmux_run_all ops self) /\
  USBMux.protocol (usbmux_run_all ops self) = USBMux.protocol self /\
  USBMux.version (usbmux_run_all ops self) = USBMux.version self.
Proof.
  revert self. induction ops as [|o ops IH]; intros self Hl; [done|].
  cbn [usbmux_run_all].
  destruct (usbmux_run_listening o self Hl) as (Hl' & Hp & Hv).
  destruct (IH _ Hl') as (? & ? & ?). split; [done|]. split; congruence.
Qed.

(** X26. The listener of a [USBMux] is never connected.  [connect]
    makes a connection of its own for every call, whose exchange has the
    tag 1, and leaves the socket, the registry, the flag and the tag
    counter of the listener as they are.  So whatever is done with a
    [USBMux] that its constructor has returned, with calls of [process] and
    of [connect] in any order, the listener is not connected, its tag
    counter stays at 2, the protocol and the version are those the
    constructor has found, and a [process] that ends in a timeout
    returns. *)
Theorem usbmux_listener_never_connected (s1 s2 : socket) (world world' : state)
    (self : USBMux.t) (ops : list usbmux_operation) :
  USBMux.__init__ s1 s2 world = (Ok self, world') ->
  connected (USBMux.listener (usbmux_run_all ops self)) = false /\
  packet_tag (USBMux.listener (usbmux_run_all ops self)) = 2 /\
  USBMux.protocol (usbmux_run_all ops self) = USBMux.protocol self /\
  USBMux.version (usbmux_run_all ops self) = USBMux.version self /\
  USBMux.process {| rlo := false; xlo := false |} (usbmux_run_all ops self)
  = (Ok tt, usbmux_run_all ops self) /\
  (forall s device port,
     let after := USBMux.connect s device port (usbmux_run_all ops self) in
     sock (USBMux.listener (snd (fst after)))
     = sock (USBMux.listener (usbmux_run_all ops self)) /\
     devices (USBMux.listener (snd (fst after)))
     = devices (USBMux.listener (usbmux_run_all ops self)) /\
     tag_log (snd after) = [1]).
Proof.
  intros Hinit.
  destruct (usbmux_init_listening _ _ _ _ _ Hinit) as [Hl _].
  destruct (usbmux_run_all_listening ops self Hl) as ([Hc Ht] & Hp & Hv).
  set (m := usbmux_run_all ops self) in *.
  repeat (split; [done|]). split.
  - unfold USBMux.process, Connection.process, bind, get. rewrite Hc.
    by destruct m.
  - intros s device port after. subst after. unfold USBMux.connect.
    pose proof (run_tags (USBMux.protocol m) (op_connect device port)
                  (new_Connection s (USBMux.listener m))) as Etags.
    cbn [run is_exchange] in Etags.
    assert (Ek : tags (snd (Connection.connect (USBMux.protocol m) device port
                              (new_Connection s (USBMux.listener m))))
                 = tags (allocated (new_Connection s (USBMux.listener m)))).
    { rewrite <- Etags. unfold bind.
      by destruct (Connection.connect _ device port _) as [[?|?] ?]. }
    destruct (Connection.connect _ device port _) as [r connector].
    simpl in *. unfold tags in Ek. by injection Ek as _ ->.
Qed.

End USBMuxFurther.

(** ** The objects of the registry *)

(** The devices of the registry are objects of their own, made before
    the next one that will be made. *)
Definition distinct_devices (σ : state) : Prop :=
  NoDup (ident <$> devices σ) /\
  Forall (fun d => (ident d < next_ident σ)%nat) (devices σ).

(** The registry and the counter of identities. *)
Definition registry (σ : state) : list Device * nat := (devices σ, next_ident σ).

Section Registry.
Context `{ByteOrder} `{Plistlib}.

Lemma keeps_registry_exchange (P : Protocol) (request : RequestType) (l : loc) :
  keeps registry (Connection._exchange P request l).
Proof.
  apply keeps_bind; [apply keeps_get|]. intros σ.
  apply keeps_bind; [by apply keeps_modify|]. intros _.
  apply keeps_bind; [by apply keeps_send_packet|]. intros _.
  apply keeps_bind.
  { apply keeps_bind; [by apply keeps_get_packet|].
    intros [[response tag] data]. case_decide; [apply keeps_ret | apply keeps_raise]. }
  intros [tag data]. destruct data; [|apply keeps_raise].
  case_decide; [apply keeps_raise | apply keeps_ret].
Qed.

Lemma remove_matching_sublist (fuel i : nat) (DeviceID : option Z)
    (l l' : list Device) :
  NoDup (ident <$> l) ->
  remove_matching fuel i DeviceID l = Ok l' -> l' `sublist_of` l.
Proof. intros Hnd E. by destruct (remove_matching_keeps_others _ _ _ _ _ Hnd E). Qed.

Lemma distinct_devices_sublist (l : list Device) (σ : state) :
  distinct_devices σ -> l `sublist_of` devices σ ->
  distinct_devices (set_devices l σ).
Proof.
  intros [Hnd Hall] Hsub. split; simpl.
  - eapply sublist_NoDup; [done|]. by apply fmap_sublist.
  - apply Forall_forall. intros d Hd. rewrite Forall_forall in Hall.
    apply Hall. apply list_elem_of_In. apply list_elem_of_In in Hd.
    by eapply elem_of_sublist.
Qed.

Lemma distinct_devices_append (device_id usb_product_id : option Z)
    (serial : option string) (location : option Z) (σ : state) :
  distinct_devices σ ->
  distinct_devices
    (snd ((device <- new_Device device_id usb_product_id serial location ;;
           Connection.append device) σ)).
Proof.
  intros [Hnd Hall]. split; simpl.
  - rewrite fmap_app. simpl. apply list.NoDup_app. split; [done|]. split.
    + intros n Hn Hin. apply list_elem_of_singleton in Hin as ->.
      apply list_elem_of_fmap in Hn as (d & Hd & Hin).
      rewrite Forall_forall in Hall. apply list_elem_of_In in Hin.
      specialize (Hall d Hin). lia.
    + apply NoDup_singleton.
  - apply Forall_app. split.
    + eapply Forall_impl; [|done]. intros d. simpl. lia.
    + apply Forall_singleton. simpl. lia.
Qed.

Lemma distinct_devices_registry (σ σ' : state) :
  registry σ' = registry σ -> distinct_devices σ -> distinct_devices σ'.
Proof. unfold registry, distinct_devices. by intros [= -> ->]. Qed.

Lemma distinct_devices_process_packet (P : Protocol) (σ : state) :
  distinct_devices σ -> distinct_devices (snd (Connection._process_packet P σ)).
Proof.
  intros Hd. unfold Connection._process_packet. unfold bind at 1.
  pose proof (keeps_get_packet registry P (fun _ _ => eq_refl) σ) as Ek.
  destruct (get_packet P σ) as [[[[response tag] data]|e] σ1]; simpl in Ek;
    [|by eapply distinct_devices_registry].
  apply (distinct_devices_registry σ σ1 Ek) in Hd. clear Ek.
  case_decide.
  - destruct data as [p|b]; [|done].
    destruct (Payload.Properties p); by apply distinct_devices_append.
  - unfold bind at 1.
    assert (Hrem : distinct_devices
              (snd ((if decide (response = TYPE_DEVICE_REMOVE P) then
                       match data with
                       | Structured data =>
                           σ0 <- get ;;
                           l <- lift (remove_matching (S (length (devices σ0))) 0
                                        (Payload.DeviceID data) (devices σ0)) ;;
                           modify (set_devices l)
                       | RawBytes _ => raise (MuxError INVALID_PAYLOAD)
                       end
                     else ret tt) σ1))).
    { case_decide; [|done]. destruct data as [p|b]; [|done].
      unfold bind, get, lift, modify.
      destruct (remove_matching _ _ _ _) as [l|e] eqn:El; [|done].
      simpl. apply distinct_devices_sublist; [done|].
      destruct Hd as [Hnd _]. by eapply remove_matching_sublist. }
    match goal with
    | |- context [match ?m σ1 with _ => _ end] => destruct (m σ1) as [[[]|e] σ2]
    end; [|done].
    by case_decide.
Qed.

Lemma distinct_devices_run (P : Protocol) (o : operation) (σ : state) :
  distinct_devices σ -> distinct_devices (snd (run P o σ)).
Proof.
  intros Hd.
  destruct o as [request tag payload| |ready| |device port|udid]; cbn [run].
  - eapply distinct_devices_registry; [|done]. by apply keeps_send_packet.
  - eapply distinct_devices_registry; [|done].
    apply keeps_bind; [by apply keeps_get_packet|]. intros _. apply keeps_ret.
  - unfold Connection.process. unfold bind at 1, get.
    destruct (connected σ); [done|]. destruct (xlo ready); [done|].
    destruct (rlo ready); [by apply distinct_devices_process_packet | done].
  - eapply distinct_devices_registry; [|done].
    apply keeps_bind; [apply keeps_registry_exchange|].
    intros [n|]; [|apply keeps_ret].
    destruct (truthy (Some n)); [apply keeps_raise | apply keeps_ret].
  - eapply distinct_devices_registry; [|done].
    apply keeps_bind; [|intros _; apply keeps_ret].
    apply keeps_bind; [done|]. intros l.
    apply keeps_bind; [apply keeps_registry_exchange|]. intros number.
    destruct (truthy number); [|apply keeps_raise].
    apply keeps_bind; [by apply keeps_modify|]. intros _.
    apply keeps_bind; [apply keeps_get|]. intros σ'. apply keeps_ret.
  - eapply distinct_devices_registry; [|done].
    apply keeps_bind; [by apply keeps_get_pair_record|]. intros _. apply keeps_ret.
Qed.

(** X27. Every entry of the registry is a [Device] object of its own.
    The poll step makes a new object for each [DEVICE_ADD] packet and puts
    it at the end of the registry; nothing else puts an object there.  So
    in the registry of a connection, whatever has been done with it since
    it was made, no object is there twice, and [list.remove(device)], which
    takes out the first entry equal to [device], takes out the entry that
    the comprehension is looking at. *)
Theorem registry_objects_are_distinct (P : Protocol) (ops : list operation)
    (s : socket) :
  NoDup (ident <$> devices (run_all P ops (Connection.__init__ s))) /\
  (forall i device,
     devices (run_all P ops (Connection.__init__ s)) !! i = Some device ->
     list_remove device (devices (run_all P ops (Connection.__init__ s)))
     = Ok (delete i (devices (run_all P ops (Connection.__init__ s))))).
Proof.
  assert (Hd : distinct_devices (run_all P ops (Connection.__init__ s))).
  { assert (Hinit : distinct_devices (Connection.__init__ s)).
    { split; simpl; [apply NoDup_nil_2 | done]. }
    revert Hinit. generalize (Connection.__init__ s).
    induction ops as [|o ops IH]; intros σ Hσ; [done|].
    cbn [run_all]. by apply IH, distinct_devices_run. }
  destruct Hd as [Hnd _]. split; [done|].
  intros i device Hi. apply list_remove_at; [done|].
  intros j a Hj Ha. by eapply (idents_distinct _ Hnd).
Qed.

(** X28. An attach notification and a detach notification for the same
    device id, one after the other, leave the registry as it was before
    the two, when it had no device of that id: the first poll step returns
    and the registry has one device more, at its end; the second takes
    that device out again (and raises, as on every [DEVICE_REMOVE]
    packet). *)
Theorem attach_then_detach (P : Protocol) (σ σ1 σ3 : state) (tag tag' : Z)
    (p p' : Payload.t) :
  connected σ = false ->
  distinct_devices σ ->
  Forall (fun d => device_id d <> Payload.DeviceID p) (devices σ) ->
  get_packet P σ = (Ok (TYPE_DEVICE_ADD P, tag, Structured p), σ1) ->
  get_packet P (snd (Connection.process P {| rlo := true; xlo := false |} σ))
  = (Ok (TYPE_DEVICE_REMOVE P, tag', Structured p'), σ3) ->
  Payload.DeviceID p' = Payload.DeviceID p ->
  fst (Connection.process P {| rlo := true; xlo := false |} σ) = Ok tt /\
  (exists device,
     devices (snd (Connection.process P {| rlo := true; xlo := false |} σ))
     = devices σ ++ [device] /\
     device_id device = Payload.DeviceID p) /\
  devices (snd (Connection.process P {| rlo := true; xlo := false |}
                  (snd (Connection.process P {| rlo := true; xlo := false |} σ))))
  = devices σ.
Proof.
  intros Hc Hd Hall Eadd Erem Hid.
  pose proof (keeps_get_packet registry P (fun _ _ => eq_refl) σ) as Ek.
  rewrite Eadd in Ek. simpl in Ek. unfold registry in Ek. injection Ek as Ekd Ekn.
  assert (Hproc : exists device,
            Connection.process P {| rlo := true; xlo := false |} σ
            = (Ok tt, set_devices (devices σ ++ [device])
                        (set_next_ident (S (next_ident σ)) σ1)) /\
            device_id device = Payload.DeviceID p /\
            ident device = next_ident σ).
  { unfold Connection.process, bind, get. rewrite Hc. cbn [xlo rlo].
    unfold Connection._process_packet, bind. rewrite Eadd.
    rewrite decide_True by done.
    destruct (Payload.Properties p) as [q|];
      unfold new_Device, Connection.append, modify; simpl;
      rewrite Ekd, Ekn; eexists; (split; [reflexivity|]); by split. }
  destruct Hproc as (device & Eproc & Hdev & Hident).
  rewrite Eproc in Erem |- *. cbn [fst snd] in Erem |- *.
  split; [done|]. split; [by exists device|].
  set (σ2 := set_devices _ _) in *.
  assert (Hc2 : connected σ2 = false).
  { subst σ2. simpl.
    pose proof (keeps_get_packet connected P (fun _ _ => eq_refl) σ) as E.
    rewrite Eadd in E. simpl in E. congruence. }
  pose proof (keeps_get_packet devices P (fun _ _ => eq_refl) σ2) as Ek3.
  rewrite Erem in Ek3. simpl in Ek3.
  destruct (opcodes_distinct P) as [Hadd Hres].
  unfold Connection.process, bind, get. rewrite Hc2. cbn [xlo rlo].
  unfold Connection._process_packet, bind. rewrite Erem.
  rewrite decide_False by done. rewrite decide_True by done.
  unfold get, lift, modify. rewrite Ek3.
  rewrite remove_matching_filter.
  - rewrite decide_True by done. simpl.
    rewrite list.filter_app, filter_cons_False, filter_nil, app_nil_r
      by (intros Hn; apply Hn; congruence).
    rewrite Hid. clear -Hall. induction Hall as [|d l Hd Hl IH]; [done|].
    by rewrite filter_cons_True, IH.
  - apply idents_distinct. destruct Hd as [Hnd Hlt].
    rewrite fmap_app. simpl. apply list.NoDup_app. split; [done|]. split.
    + intros n Hn Hin. apply list_elem_of_singleton in Hin as ->.
      apply list_elem_of_fmap in Hn as (d & Hdn & Hin).
      rewrite Forall_forall in Hlt. apply list_elem_of_In in Hin.
      specialize (Hlt d Hin). lia.
    + apply NoDup_singleton.
  - intros j a b Hj Hk Ha. exfalso.
    assert (Hlt : (j < length (devices σ))%nat).
    { apply lookup_lt_Some in Hk. rewrite length_app in Hk. simpl in Hk. lia. }
    rewrite lookup_app_l in Hj by done.
    rewrite Forall_lookup in Hall. apply (Hall j a Hj). congruence.
Qed.

End Registry.

(** ** The statements on sample inputs *)

Local Existing Instance little_endian.
Local Existing Instance reference.plistlib.

(** C7, on the device 7 and the port 62078. *)
Lemma connect_payload_round_trip_witness :
  exists body device_id port,
    BinaryProtocol._pack Binary (TYPE_CONNECT Binary)
      (Structured 1%nat)
      (snd (new_Payload (Connection.connect_payload device_7 lockdown_port)
              idle_connection))
    = (Ok body,
       snd (new_Payload (Connection.connect_payload device_7 lockdown_port)
              idle_connection)) /\
    length body = 8%nat /\
    take 4 body = encode_uint 4 7 /\
    take 2 (drop 4 body) = rev (encode_uint 2 lockdown_port) /\
    (native = LittleEndian ->
       take 2 (drop 4 body)
       = [byte_of_Z (lockdown_port / 256); byte_of_Z (lockdown_port mod 256)]) /\
    drop 6 body = [x00; x00] /\
    struct.unpack Formats.IH (take 6 body)
    = Ok (device_id, (port, tt)) /\
    device_id = 7 /\
    port = (lockdown_port mod 256) * 256 + lockdown_port / 256 /\
    Connection.port_number port = lockdown_port.
Proof.
  apply (connect_payload_round_trip
           (snd (new_Payload (Connection.connect_payload device_7 lockdown_port)
                   idle_connection))
           1%nat 7 lockdown_port);
    [lia | unfold lockdown_port; lia | reflexivity | reflexivity].
Defined.

(** C7, the bytes: the port 62078 is 0xf27e, and the body carries f2
    before 7e on a little-endian host. *)
Example connect_payload_bytes :
  fst (BinaryProtocol._pack Binary (TYPE_CONNECT Binary) (Structured 1%nat)
         (snd (new_Payload (Connection.connect_payload device_7 lockdown_port)
                 idle_connection)))
  = Ok [x07; x00; x00; x00; xf2; x7e; x00; x00].
Proof. vm_compute. reflexivity. Qed.

(** C1, on the registry that holds the device 7: the device goes and the
    poll step raises. *)
Lemma poll_device_remove_raises_witness :
  exists l,
    remove_matching 2 0 (Some 7) [device_7] = Ok l /\
    (Forall (fun d => device_id d <> Some 7) [device_7] -> l = [device_7]) /\
    Connection.process Binary
      {| rlo := true; xlo := false |} removal_pending
    = (Raise (MuxError (INVALID_PACKET_TYPE (RInt 5))),
       set_devices l
         (snd (get_packet Binary
                 removal_pending))).
Proof.
  exact (poll_device_remove_raises Binary removal_pending
           (snd (get_packet Binary removal_pending)) 0
           (Payload.mk "qt4i-usbmuxd" "tcprelay" None None (Some 7) None None None None)
           eq_refl eq_refl).
Defined.

(** C1, the two failing inputs evaluated.  A [DEVICE_REMOVE] for the
    device in the registry empties the registry and raises; a
    [DEVICE_REMOVE] for a device that is not there leaves the registry as it
    is and raises as well. *)
Example poll_device_remove_evaluated :
  fst (Connection.process Binary
         {| rlo := true; xlo := false |} removal_pending)
  = Raise (MuxError (INVALID_PACKET_TYPE (RInt 5))) /\
  devices (snd (Connection.process
                  Binary {| rlo := true; xlo := false |} removal_pending)) = [] /\
  fst (Connection.process Binary
         {| rlo := true; xlo := false |} removal_of_absent_pending)
  = Raise (MuxError (INVALID_PACKET_TYPE (RInt 5))) /\
  devices (snd (Connection.process
                  Binary {| rlo := true; xlo := false |} removal_of_absent_pending))
  = devices removal_of_absent_pending.
Proof. repeat split; vm_compute; reflexivity. Qed.

(** C4, on a [listen] that sends the tag 1 and is answered with the tag 9. *)
Lemma tag_mismatch_fails_witness :
  Connection.listen Binary
    wrong_tag_pending
  = (Raise (MuxError (TAG_MISMATCH 1 9)),
     snd (get_packet Binary
            (snd (send_packet Binary
                    (TYPE_LISTEN Binary) 1 (Structured default_payload)
                    (allocated wrong_tag_pending))))) /\
  connected
    (snd (get_packet Binary
            (snd (send_packet Binary
                    (TYPE_LISTEN Binary) 1 (Structured default_payload)
                    (allocated wrong_tag_pending))))) = false.
Proof.
  destruct (tag_mismatch_fails Binary
              wrong_tag_pending
              (snd (send_packet Binary
                      (TYPE_LISTEN Binary) 1 (Structured default_payload)
                      (allocated wrong_tag_pending)))
              (snd (get_packet Binary
                      (snd (send_packet
                              Binary (TYPE_LISTEN Binary) 1 (Structured default_payload)
                              (allocated wrong_tag_pending)))))
              (TYPE_LISTEN Binary) default_payload 9
              (Structured (Payload.mk "qt4i-usbmuxd" "tcprelay" None (Some 0)
                             None None None None None)))
    as (_ & Hflag & Hlisten & _);
    [reflexivity | reflexivity | reflexivity | simpl; lia |].
  split; [by apply Hlisten | exact Hflag].
Defined.

(** C6, on a connection whose flag is set. *)
Lemma connected_is_terminal_witness :
  get_packet Binary connected_connection
  = (Raise (MuxError MUX_CONNECTED_ERROR), connected_connection) /\
  Connection.process Binary
    {| rlo := true; xlo := false |} connected_connection
  = (Raise (MuxError SOCKET_IS_CONNECTED), connected_connection) /\
  Connection.listen Binary
    connected_connection
  = (Raise (MuxError MUX_CONNECTED_ERROR), allocated connected_connection).
Proof.
  destruct (connected_is_terminal
              Binary connected_connection eq_refl)
    as (_ & _ & Hget & Hprocess & Hlisten & _).
  split; [exact Hget|]. split; [apply Hprocess | exact Hlisten].
Defined.

(** C6, counterexample: with the flag set, the poll step does not fail
    with the mux-already-connected error. *)
Lemma connected_is_terminal_counterexample :
  connected connected_connection = true /\
  fst (Connection.process Binary
         {| rlo := true; xlo := false |} connected_connection)
  <> Raise (MuxError MUX_CONNECTED_ERROR).
Proof. split; [reflexivity|]. vm_compute. discriminate. Qed.

(** C8, on a caller that listens, polls, connects and asks for a pairing
    record. *)
Lemma tags_strictly_increasing_witness :
  StronglySorted Z.lt
    (tag_log (run_all Binary
                [op_listen; op_process {| rlo := false; xlo := false |};
                 op_connect device_7 lockdown_port; op_get_pair_record "udid"]
                (Connection.__init__ (socket_with [] [])))) /\
  NoDup
    (tag_log (run_all Binary
                [op_listen; op_process {| rlo := false; xlo := false |};
                 op_connect device_7 lockdown_port; op_get_pair_record "udid"]
                (Connection.__init__ (socket_with [] [])))).
Proof.
  destruct (tags_strictly_increasing
              Binary
              [op_listen; op_process {| rlo := false; xlo := false |};
               op_connect device_7 lockdown_port; op_get_pair_record "udid"]
              idle_connection (socket_with [] []))
    as (_ & Hsorted & Hnodup & _).
  split; [exact Hsorted | exact Hnodup].
Defined.

Example tags_evaluated :
  tag_log (run_all Binary
             [op_listen; op_process {| rlo := false; xlo := false |};
              op_connect device_7 lockdown_port; op_get_pair_record "udid"]
             (Connection.__init__ (socket_with [] [])))
  = [1; 2; 3].
Proof. vm_compute. reflexivity. Qed.

(** C3, on the default payload sent with the request [Listen]. *)
Lemma plist_round_trip_witness :
  exists σ' ρ',
    PlistProtocol.send_packet (RStr "Listen") 1 default_payload plist_sender
    = (Ok tt, σ') /\
    outbox (sock σ')
    = outbox (sock plist_sender) ++
      frame (VERSION Plist) TYPE_PLIST 1 (serialised listen_record) /\
    PlistProtocol.get_packet plist_receiver
    = (Ok ("Listen", 1,
           Payload.mk "qt4i-usbmuxd" "tcprelay" (Some "Listen") None None None
             (Some Properties.empty) None None),
       ρ').
Proof.
  refine (plist_round_trip plist_sender plist_receiver (RStr "Listen") "Listen" 1
            default_payload (serialised listen_record) [] eq_refl eq_refl
            _ _ _ _ _ eq_refl _).
  - unfold u32. lia.
  - vm_compute. reflexivity.
  - apply reference.parse_serialise. vm_compute. reflexivity.
  - unfold u32. vm_compute. split; [discriminate | reflexivity].
  - vm_compute. reflexivity.
  - split; [constructor; [vm_compute; discriminate | constructor]|].
    exists []. vm_compute. reflexivity.
Defined.

(** C3, counterexample: the default payload has no [Properties]; sent
    with the request [Listen] and read back from the bytes that were sent, it
    has one, the empty record. *)
Lemma plist_round_trip_counterexample :
  Payload.Properties (heap plist_sender default_payload) = None /\
  fst (PlistProtocol.send_packet (RStr "Listen") 1 default_payload plist_sender)
  = Ok tt /\
  inbox (sock plist_receiver)
  = [outbox (sock (snd (PlistProtocol.send_packet (RStr "Listen") 1 default_payload
                          plist_sender)))] /\
  fst (PlistProtocol.get_packet plist_receiver)
  = Ok ("Listen", 1,
        Payload.mk "qt4i-usbmuxd" "tcprelay" (Some "Listen") None None None
          (Some Properties.empty) None None).
Proof. repeat split; vm_compute; reflexivity. Qed.

(** C9, on an attach notification without a [Properties] key: the poll
    step makes the device from the empty record. *)
Lemma plist_payload_has_properties_witness :
  Connection._process_packet Plist attach_pending
  = (Ok tt,
     set_devices
       [{| ident := 0; device_id := Some 3; usb_product_id := None;
           serial := None; location := None |}]
       (set_next_ident 1 (snd (get_packet Plist attach_pending)))).
Proof.
  destruct (plist_payload_has_properties attach_pending) as (_ & _ & Hadd).
  destruct (Hadd 0
              (Structured
                 (Payload.mk "qt4i-usbmuxd" "tcprelay" (Some "Attached") None (Some 3)
                    None (Some Properties.empty) None None))
              (snd (get_packet Plist attach_pending)))
    as (p & q & Hp & Hq & E).
  - vm_compute. reflexivity.
  - injection Hp as <-. injection Hq as <-. exact E.
Defined.

(** C10, on a [listen] request given as the integer 3. *)
Lemma plist_send_packet_mutates_witness :
  Payload.MessageType
    (heap (snd (PlistProtocol.send_packet (RInt 3) 1 default_payload plist_sender))
       default_payload) = Some "Listen" /\
  Payload.ProgName
    (heap (snd (PlistProtocol.send_packet (RInt 3) 1 default_payload plist_sender))
       default_payload) = Payload.ProgName (heap plist_sender default_payload).
Proof.
  destruct (plist_send_packet_mutates (RInt 3) 1 default_payload plist_sender)
    as [Hstamp _].
  destruct (Hstamp "Listen" eq_refl) as (Hm & _ & Hp & _).
  split; [exact Hm | exact Hp].
Defined.

(** C10, counterexample: a call with the integer 1 as its request raises
    [KeyError] and leaves the [MessageType] of the payload as it was, [None]. *)
Lemma plist_send_packet_mutates_counterexample :
  fst (PlistProtocol.send_packet (RInt 1) 1 default_payload plist_sender)
  = Raise (KeyError (RInt 1)) /\
  Payload.MessageType (heap plist_sender default_payload) = None /\
  Payload.MessageType
    (heap (snd (PlistProtocol.send_packet (RInt 1) 1 default_payload plist_sender))
       default_payload) = None.
Proof. repeat split; vm_compute; reflexivity. Qed.

(** ** The further properties on sample inputs *)

(** Three bytes and one more, delivered in two chunks. *)
Definition two_chunks : state :=
  Connection.__init__ (socket_with [[x01]; [x02; x03; x04]] []).

(** X1, on three bytes that come in two chunks. *)
Lemma receive_reassembles_witness :
  exists i,
    SafeStreamSocket.receive (len [x01; x02; x03]) two_chunks
    = (Ok [x01; x02; x03], with_inbox i two_chunks) /\
    concat (inbox (sock two_chunks)) = [x01; x02; x03] ++ concat i /\
    Forall (fun c => c <> []) i.
Proof.
  apply (receive_reassembles [x01; x02; x03] two_chunks).
  split; [repeat constructor; discriminate | by exists [x04]].
Defined.

(** A plist packet with a one-byte body, as the send path writes it, and
    a connection that receives what was sent. *)
Definition raw_sender : state := Connection.__init__ (socket_with [] [64%nat]).

Definition raw_sent : state :=
  snd (BinaryProtocol.send_packet Plist (RInt 8) 1 (RawBytes [x41]) raw_sender).

Definition raw_receiver : state :=
  Connection.__init__ (socket_with [sent raw_sender raw_sent] []).

(** X5, on a packet of type 8 with the tag 1 and the body [A]. *)
Lemma frame_round_trip_witness :
  fst (BinaryProtocol.get_packet Plist raw_receiver) = Ok (8, 1, RawBytes [x41]).
Proof.
  destruct (frame_round_trip Plist raw_sender raw_sent raw_receiver (RInt 8) 1 [x41])
    as (r & Hr & _ & Hp).
  - vm_compute. reflexivity.
  - reflexivity.
  - split; [constructor; [vm_compute; discriminate | constructor]|].
    exists []. vm_compute. reflexivity.
  - injection Hr as <-. exact (Hp eq_refl).
Defined.

(** Two plist packets in one stream, cut in the middle of the first
    header. *)
Definition two_packets : state :=
  Connection.__init__
    (socket_with
       [take 3 (frame (VERSION Plist) 8 1 [x41] ++ frame (VERSION Plist) 8 2 [x42]);
        drop 3 (frame (VERSION Plist) 8 1 [x41] ++ frame (VERSION Plist) 8 2 [x42])]
       []).

(** X6, on two packets with the tags 1 and 2. *)
Lemma get_packet_one_at_a_time_witness :
  exists σ1,
    BinaryProtocol.get_packet Plist two_packets = (Ok (8, 1, RawBytes [x41]), σ1) /\
    arrives (frame (VERSION Plist) 8 2 [x42]) σ1 /\
    fst (BinaryProtocol.get_packet Plist σ1) = Ok (8, 2, RawBytes [x42]).
Proof.
  apply (get_packet_one_at_a_time Plist two_packets 8 1 8 2 [x41] [x42]);
    try reflexivity; try (unfold u32; vm_compute; split; congruence).
  split; [repeat constructor; vm_compute; discriminate|].
  exists []. vm_compute. reflexivity.
Defined.

(** A header that announces 8 bytes in all. *)
Definition short_length_pending : state :=
  Connection.__init__ (socket_with [encode_uint 4 8 ++ [x00; x00; x00; x00]] []).

(** X7, on a length field of 8. *)
Lemma get_packet_short_length_witness :
  fst (BinaryProtocol.get_packet Binary short_length_pending) = Raise struct_error.
Proof.
  apply (get_packet_short_length Binary short_length_pending 8 [x00; x00; x00; x00]).
  - reflexivity.
  - unfold PADDING_LENGTH. lia.
  - vm_compute. discriminate.
  - split; [repeat constructor; vm_compute; discriminate|].
    exists []. vm_compute. reflexivity.
Defined.

(** The first ten bytes of a [RESULT] packet, and then the end of the
    stream. *)
Definition truncated_pending : state :=
  Connection.__init__
    (socket_with [take 10 (frame 0 1 3 [x00; x00; x00; x00])] []).

(** X8, on a packet cut after ten bytes. *)
Lemma get_packet_truncated_witness :
  fst (BinaryProtocol.get_packet Binary truncated_pending)
  = Raise (MuxError SOCKET_CONNECTION_BROKEN).
Proof.
  apply (get_packet_truncated Binary truncated_pending 0 1 3 [x00; x00; x00; x00] 10).
  - reflexivity.
  - unfold u32. vm_compute. split; congruence.
  - repeat constructor. vm_compute. discriminate.
  - vm_compute. lia.
  - vm_compute. reflexivity.
Defined.

(** X9, on the tag -1. *)
Lemma send_packet_out_of_range_witness :
  BinaryProtocol.send_packet Binary (RInt 3) (-1) (RawBytes []) idle_connection
  = (Raise struct_error, idle_connection).
Proof.
  apply (send_packet_out_of_range Binary (RInt 3) (-1) [] idle_connection).
  - reflexivity.
  - intros (r & _ & _ & Ht & _). unfold u32 in Ht. lia.
Defined.

(** A device without an id. *)
Definition device_without_id : Device :=
  {| ident := 0; device_id := None; usb_product_id := None;
     serial := None; location := None |}.

(** X10, on a device without an id. *)
Lemma binary_connect_unpackable_witness :
  exists σ',
    Connection.connect Binary device_without_id lockdown_port idle_connection
    = (Raise struct_error, σ') /\
    sock σ' = sock idle_connection /\
    connected σ' = false /\
    packet_tag σ' = packet_tag idle_connection + 1.
Proof.
  apply (proj1 (binary_connect_unpackable device_without_id lockdown_port
                  idle_connection eq_refl)).
  intros (d & Hd & _). discriminate.
Defined.

(** A connection on the binary codec about to [listen], whose daemon
    answers the tag 1 with the number 0, and one whose daemon answers it
    with the number 1. *)
Definition listen_answered : state :=
  Connection.__init__ (socket_with [frame 0 1 1 [x00; x00; x00; x00]] [64%nat]).

Definition answered_with_1 : state :=
  Connection.__init__ (socket_with [frame 0 1 1 [x01; x00; x00; x00]] [64%nat]).

Definition listen_request_sent : state :=
  snd (send_packet Binary (TYPE_LISTEN Binary) 1 (Structured default_payload)
         (allocated listen_answered)).

(** X11, on a [listen] that is answered with the number 0. *)
Lemma exchange_outcome_witness :
  Connection.listen Binary listen_answered
  = (Ok tt, snd (get_packet Binary listen_request_sent)).
Proof.
  refine (proj1 (proj2
    (exchange_outcome Binary listen_answered listen_request_sent
       (snd (get_packet Binary listen_request_sent)) (TYPE_LISTEN Binary)
       default_payload
       (Payload.mk "qt4i-usbmuxd" "tcprelay" None (Some 0) None None None None None)
       _ _)) eq_refl eq_refl).
  - vm_compute. reflexivity.
  - vm_compute. reflexivity.
Defined.

(** X12, on the same connection. *)
Lemma binary_listen_on_the_wire_witness :
  exists σ',
    Connection.listen Binary listen_answered
    = (if decide (0 = 0) then Ok tt else Raise (MuxError (LISTEN_FAILED 0)), σ') /\
    sent listen_answered σ' = frame 0 3 (packet_tag listen_answered) [] /\
    length (sent listen_answered σ') = 16%nat /\
    packet_tag σ' = packet_tag listen_answered + 1 /\
    devices σ' = devices listen_answered /\
    connected σ' = false.
Proof.
  apply (binary_listen_on_the_wire listen_answered 0 []).
  - reflexivity.
  - unfold u32. vm_compute. split; congruence.
  - unfold u32. lia.
  - reflexivity.
  - split; [repeat constructor; vm_compute; discriminate|].
    exists []. vm_compute. reflexivity.
Defined.

(** A connection about to [listen] that gets a detach notification
    first. *)
Definition notified_first : state :=
  Connection.__init__ (socket_with [device_remove_frame] [64%nat]).

Definition notified_request_sent : state :=
  snd (send_packet Binary (TYPE_LISTEN Binary) 1 (Structured default_payload)
         (allocated notified_first)).

(** X13, on a [listen] that is answered with a detach notification. *)
Lemma exchange_needs_result_witness :
  Connection.listen Binary notified_first
  = (Raise (MuxError (INVALID_PACKET_TYPE (RInt 5))),
     snd (get_packet Binary notified_request_sent)).
Proof.
  refine (proj2 (proj2
    (exchange_needs_result Binary notified_first notified_request_sent
       (snd (get_packet Binary notified_request_sent)) (TYPE_LISTEN Binary)
       default_payload (RInt 5) 0
       (Structured (Payload.mk "qt4i-usbmuxd" "tcprelay" None None (Some 7) None None
                      None None))
       _ _ _)) eq_refl eq_refl).
  - vm_compute. reflexivity.
  - vm_compute. reflexivity.
  - discriminate.
Defined.

(** X14, on a timeout. *)
Lemma process_without_packet_witness :
  Connection.process Binary {| rlo := false; xlo := false |} idle_connection
  = (Ok tt, idle_connection).
Proof.
  exact (proj1 (process_without_packet Binary {| rlo := false; xlo := false |}
                  idle_connection eq_refl) eq_refl eq_refl).
Defined.

(** X15, on a [RESULT] packet that nobody asked for. *)
Lemma poll_unexpected_packet_witness :
  Connection.process Binary {| rlo := true; xlo := false |} wrong_tag_pending
  = (Raise (MuxError (UNEXPECTED_RESULT (RInt 1))),
     snd (get_packet Binary wrong_tag_pending)) /\
  devices (snd (get_packet Binary wrong_tag_pending)) = devices wrong_tag_pending.
Proof.
  refine (poll_unexpected_packet Binary wrong_tag_pending
            (snd (get_packet Binary wrong_tag_pending)) (RInt 1) 9
            (Structured (Payload.mk "qt4i-usbmuxd" "tcprelay" None (Some 0) None None
                           None None None))
            eq_refl _ _ _).
  - vm_compute. reflexivity.
  - discriminate.
  - discriminate.
Defined.

(** X17, on a [connect] that is answered with the number 1. *)
Lemma only_connect_connects_witness :
  exists device port,
    op_connect device_7 lockdown_port = op_connect device port /\
    fst (run Binary (op_connect device_7 lockdown_port) answered_with_1) = Ok tt.
Proof.
  apply (only_connect_connects Binary (op_connect device_7 lockdown_port)
           answered_with_1).
  - reflexivity.
  - vm_compute. reflexivity.
Defined.

(** X18, on the registry with the device 7 and a detach notification for
    it. *)
Lemma poll_device_remove_which_witness :
  devices (snd (Connection.process Binary {| rlo := true; xlo := false |}
                  removal_pending)) = [].
Proof.
  destruct (poll_device_remove_which Binary removal_pending
              (snd (get_packet Binary removal_pending)) 0
              (Payload.mk "qt4i-usbmuxd" "tcprelay" None None (Some 7) None None
                 None None))
    as (_ & _ & Hall).
  - reflexivity.
  - vm_compute. reflexivity.
  - apply NoDup_singleton.
  - rewrite Hall; [reflexivity|].
    intros j a b Hj Hk. destruct j; simpl in Hk; discriminate.
Defined.

(** A packet of version 1 and type 2. *)
Definition not_a_plist_pending : state :=
  Connection.__init__ (socket_with [frame 1 2 0 []] []).

(** X19, on a packet of type 2. *)
Lemma plist_get_packet_refuses_witness :
  fst (PlistProtocol.get_packet not_a_plist_pending)
  = Raise (MuxError (INVALID_INCOMING_RESPONSE_TYPE (RInt 2))).
Proof.
  refine (proj1 (plist_get_packet_refuses not_a_plist_pending 2 0 [] eq_refl _ _ _ _) _).
  - unfold u32. vm_compute. split; congruence.
  - unfold u32. lia.
  - unfold u32. lia.
  - split; [repeat constructor; vm_compute; discriminate|].
    exists []. vm_compute. reflexivity.
  - unfold TYPE_PLIST. lia.
Defined.

(** A payload with the empty [Properties] record, in a connection on the
    plist codec. *)
Definition with_empty_properties : state :=
  snd (new_Payload
         (Payload.mk "qt4i-usbmuxd" "tcprelay" None None (Some 3) None
            (Some Properties.empty) None None)
         plist_sender).

(** X20, on a payload with the empty [Properties] record. *)
Lemma plist_send_packet_partial_properties_witness :
  fst (PlistProtocol.send_packet (RStr "Attached") 1 1%nat with_empty_properties)
  <> Ok tt /\
  sock (snd (PlistProtocol.send_packet (RStr "Attached") 1 1%nat with_empty_properties))
  = sock with_empty_properties.
Proof.
  apply (plist_send_packet_partial_properties (RStr "Attached") 1 1%nat
           with_empty_properties Properties.empty).
  - reflexivity.
  - left. reflexivity.
Defined.

(** The record of a [Result] with the number 0, and a connection on the
    plist codec about to [listen] whose daemon answers with it. *)
Definition result_record : gmap string plist.value :=
  <["MessageType" := plist.Scalar (plist.VStr "Result")]>
    (<["Number" := plist.Scalar (plist.VInt 0)]> ∅).

Definition plist_listen_answered : state :=
  Connection.__init__
    (socket_with [frame 1 8 1 (serialised result_record)] [4096%nat]).

(** X21, on a [listen] that is answered with the number 0. *)
Lemma plist_listen_on_the_wire_witness :
  exists σ',
    Connection.listen Plist plist_listen_answered
    = (if decide (0 = 0) then Ok tt else Raise (MuxError (LISTEN_FAILED 0)), σ') /\
    sent plist_listen_answered σ'
    = frame (VERSION Plist) TYPE_PLIST (packet_tag plist_listen_answered)
        (serialised listen_record) /\
    Payload.MessageType (heap σ' default_payload) = Some "Listen" /\
    packet_tag σ' = packet_tag plist_listen_answered + 1.
Proof.
  apply (plist_listen_on_the_wire plist_listen_answered (serialised listen_record)
           (serialised result_record) 0 []).
  - reflexivity.
  - unfold u32. vm_compute. split; congruence.
  - vm_compute. reflexivity.
  - unfold u32. vm_compute. split; congruence.
  - vm_compute. reflexivity.
  - unfold u32. vm_compute. split; congruence.
  - split; [repeat constructor; vm_compute; discriminate|].
    exists []. vm_compute. reflexivity.
  - apply reference.parse_serialise. vm_compute. reflexivity.
Defined.

(** A pairing record, the answer that carries it, and a connection on
    the plist codec whose daemon sends this answer with the tag 1. *)
Definition host_record : gmap string plist.value :=
  <["HostID" := plist.Scalar (plist.VStr "host")]> ∅.

Definition pair_record_answer : gmap string plist.value :=
  <["PairRecordData" := plist.Scalar (plist.VBytes (serialised host_record))]> ∅.

Definition pair_record_answered : state :=
  Connection.__init__
    (socket_with [frame 1 8 1 (serialised pair_record_answer)] [4096%nat]).

Definition pair_record_request : gmap string plist.value :=
  PlistProtocol.remove_none
    (asdict (Payload.mk "qt4i-usbmuxd" "tcprelay" (Some Client.TYPE_READ_PAIR)
               None None None None (Some "udid") None)).

(** X22, on an answer with the right tag and a pairing record. *)
Lemma get_pair_record_on_the_wire_witness :
  exists σ',
    Client.get_pair_record "udid" pair_record_answered
    = (if decide (1 <> packet_tag pair_record_answered)
       then Raise (KeyError (RStr "expected"))
       else match Some (serialised host_record) with
            | Some record => loads record
            | None => Raise (MuxError INVALID_PAYLOAD)
            end, σ') /\
    sent pair_record_answered σ'
    = frame (VERSION Plist) TYPE_PLIST (packet_tag pair_record_answered)
        (serialised pair_record_request) /\
    packet_tag σ' = packet_tag pair_record_answered + 1.
Proof.
  apply (get_pair_record_on_the_wire "udid" pair_record_answered
           (serialised pair_record_request) (serialised pair_record_answer) 1 []
           pair_record_answer Properties.empty
           (Payload.mk "qt4i-usbmuxd" "tcprelay" None None None None
              (Some Properties.empty) None (Some (serialised host_record)))).
  - reflexivity.
  - unfold u32. vm_compute. split; congruence.
  - vm_compute. reflexivity.
  - unfold u32. vm_compute. split; congruence.
  - vm_compute. reflexivity.
  - unfold u32. lia.
  - unfold u32. vm_compute. split; congruence.
  - split; [repeat constructor; vm_compute; discriminate|].
    exists []. vm_compute. reflexivity.
  - apply reference.parse_serialise. vm_compute. reflexivity.
  - vm_compute. reflexivity.
  - vm_compute. reflexivity.
Defined.

(** The helper returns the pairing record. *)
Example get_pair_record_evaluated :
  fst (Client.get_pair_record "udid" pair_record_answered) = Ok host_record.
Proof. vm_compute. reflexivity. Qed.

(** A process where nothing has been made yet; a socket on which the
    daemon answers in the plist protocol, and one on which it answers in
    the binary protocol. *)
Definition new_process : state := Connection.__init__ (socket_with [] []).

Definition plist_daemon : socket :=
  socket_with [frame 1 8 1 (serialised result_record)] [4096%nat].

Definition binary_daemon : socket :=
  socket_with [frame 0 1 1 [x00; x00; x00; x00]] [64%nat].

(** X25, on a daemon that answers in the plist protocol. *)
Lemma usbmux_finds_the_protocol_witness :
  exists self,
    fst (USBMux.__init__ plist_daemon plist_daemon new_process) = Ok self /\
    USBMux.protocol self = Plist /\ USBMux.version self = 1 /\
    sent (new_Connection plist_daemon new_process) (USBMux.listener self)
    = frame (VERSION Plist) TYPE_PLIST 1 (serialised listen_record).
Proof.
  refine (proj1 (proj2 (usbmux_finds_the_protocol plist_daemon plist_daemon
                          new_process [] _)
                   1 8 1 (serialised result_record) (serialised listen_record)
                   (serialised result_record) 0 [] _ _ _ _ _ _ _ _ _ _ _ _) eq_refl).
  - reflexivity.
  - unfold u32. vm_compute. split; congruence.
  - unfold u32. lia.
  - unfold u32. lia.
  - unfold u32. lia.
  - lia.
  - split; [repeat constructor; vm_compute; discriminate|].
    exists []. vm_compute. reflexivity.
  - vm_compute. reflexivity.
  - unfold u32. vm_compute. split; congruence.
  - vm_compute. reflexivity.
  - unfold u32. vm_compute. split; congruence.
  - split; [repeat constructor; vm_compute; discriminate|].
    exists []. vm_compute. reflexivity.
  - apply reference.parse_serialise. vm_compute. reflexivity.
Defined.

(** The [USBMux] that the constructor makes on a daemon that answers in
    the binary protocol. *)
Definition binary_usbmux : USBMux.t :=
  {| USBMux.listener := snd (Connection.listen Binary
                               (new_Connection binary_daemon new_process));
     USBMux.version := 0;
     USBMux.protocol := Binary |}.

(** X26, on a poll that ends in a timeout and a [connect] after it. *)
Lemma usbmux_listener_never_connected_witness :
  connected
    (USBMux.listener
       (usbmux_run_all
          [usbmux_process {| rlo := false; xlo := false |};
           usbmux_connect binary_daemon device_7 lockdown_port]
          binary_usbmux)) = false.
Proof.
  refine (proj1 (usbmux_listener_never_connected binary_daemon plist_daemon
                   new_process (USBMux.listener binary_usbmux) binary_usbmux
                   [usbmux_process {| rlo := false; xlo := false |};
                    usbmux_connect binary_daemon device_7 lockdown_port] _)).
  vm_compute. reflexivity.
Defined.

(** What the two texts of X24 look like. *)
Example Device_str_evaluated :
  Device_str {| ident := 0; device_id := Some 7; usb_product_id := Some 4776;
                serial := Some "ABC123"; location := Some 0 |}
  = Ok "<usbmux.connection.device.Device: Device ID 7, USB Product ID 0x12a8, Serial 'ABC123', Location 0x0>" /\
  Device_str {| ident := 0; device_id := Some 3; usb_product_id := None;
                serial := None; location := None |}
  = Raise TypeError.
Proof. split; reflexivity. Qed.

(** A detach notification for the device 3, and a plist connection that
    receives the attach notification and then this one. *)
Definition detached_record : gmap string plist.value :=
  list_to_map [("MessageType", plist.Scalar (plist.VStr "Detached"));
               ("DeviceID", plist.Scalar (plist.VInt 3))].

Definition attach_detach_pending : state :=
  Connection.__init__
    (socket_with [frame 1 8 0 (serialised attached_record);
                  frame 1 8 0 (serialised detached_record)] []).

(** X28, on the device 3 that comes and goes. *)
Lemma attach_then_detach_witness :
  devices
    (snd (Connection.process Plist {| rlo := true; xlo := false |}
            (snd (Connection.process Plist {| rlo := true; xlo := false |}
                    attach_detach_pending))))
  = devices attach_detach_pending.
Proof.
  refine (proj2 (proj2
    (attach_then_detach Plist attach_detach_pending
       (snd (get_packet Plist attach_detach_pending))
       (snd (get_packet Plist
               (snd (Connection.process Plist {| rlo := true; xlo := false |}
                       attach_detach_pending))))
       0 0
       (Payload.mk "qt4i-usbmuxd" "tcprelay" (Some "Attached") None (Some 3) None
          (Some Properties.empty) None None)
       (Payload.mk "qt4i-usbmuxd" "tcprelay" (Some "Detached") None (Some 3) None
          (Some Properties.empty) None None)
       eq_refl _ _ _ _ eq_refl))).
  - split; [apply NoDup_nil_2 | constructor].
  - constructor.
  - vm_compute. reflexivity.
  - vm_compute. reflexivity.
Defined.

(** X23, on a host and a port given on Linux: the tuple comes back with
    [AF_UNIX]. *)
Example socket_tuple_off_windows :
  Socket.__call__ "linux"
    (Some (Socket.AddressTuple [Socket.Host "127.0.0.1"; Socket.Port 27015]))
  = (Socket.AddressTuple [Socket.Host "127.0.0.1"; Socket.Port 27015],
     Socket.AF_UNIX) /\
  Socket.fits (Socket.AddressTuple [Socket.Host "127.0.0.1"; Socket.Port 27015])
    Socket.AF_UNIX = false.
Proof. split; reflexivity. Qed.
